(** * blueprint-toolkit: checkpoint store, run context, metric sink and
      S3 key translation, embedded from the Python sources.

    Python values are modelled as follows.
    - [str] is a list of characters; [lit] turns a literal into one.
    - [int] values are [Z].
    - An exception is a value [exn] with its class, message and
      [__context__]; a call that can raise returns a [result].
    - The file system is a tree [node]; the order of a directory's
      entries is the order in which [os.scandir] lists them. *)

From Stdlib Require Import List Ascii String ZArith Bool Lia Arith SpecFloat.
Import ListNotations.

Set Implicit Arguments.
Set Warnings "-register-all".
Local Open Scope list_scope.

(** ** Python strings *)

Definition str := list ascii.

Definition lit (s : string) : str := list_ascii_of_string s.

Module PyStr.

Definition eqb (a b : str) : bool :=
  if list_eq_dec ascii_dec a b then true else false.

(** [c in s] for a one-character [c]. *)
Definition contains_char (c : ascii) (s : str) : bool :=
  existsb (Ascii.eqb c) s.

(** [s[len(p):]] when [s.startswith(p)]. *)
Fixpoint strip_prefix (p s : str) : option str :=
  match p, s with
  | [], _ => Some s
  | _ :: _, [] => None
  | a :: p', b :: s' => if Ascii.eqb a b then strip_prefix p' s' else None
  end.

Definition startswith (s p : str) : bool :=
  match strip_prefix p s with Some _ => true | None => false end.

Definition endswith (s p : str) : bool := startswith (rev s) (rev p).

(** [p in s] for a substring [p]. *)
Fixpoint contains (p s : str) : bool :=
  match strip_prefix p s with
  | Some _ => true
  | None => match s with [] => false | _ :: s' => contains p s' end
  end.

(** [s.split(sep)] for a one-character separator. *)
Fixpoint split (sep : ascii) (s : str) : list str :=
  match s with
  | [] => [[]]
  | c :: s' =>
      if Ascii.eqb c sep then [] :: split sep s'
      else match split sep s' with
           | [] => [[c]]
           | w :: ws => (c :: w) :: ws
           end
  end.

(** [sep.join(l)]. *)
Fixpoint join (sep : str) (l : list str) : str :=
  match l with
  | [] => []
  | x :: l' => match l' with [] => x | _ :: _ => x ++ sep ++ join sep l' end
  end.

(** The rightmost occurrence of [sep] in [s]: what is before it and what
    is after it. *)
Fixpoint rpartition (sep s : str) : option (str * str) :=
  match s with
  | [] => option_map (fun rest => ([], rest)) (strip_prefix sep [])
  | c :: s' =>
      match rpartition sep s' with
      | Some (a, b) => Some (c :: a, b)
      | None => option_map (fun rest => ([], rest)) (strip_prefix sep s)
      end
  end.

(** [s.rsplit(sep, 1)]: one or two pieces. *)
Definition rsplit1 (sep s : str) : list str :=
  match rpartition sep s with
  | Some (a, b) => [a; b]
  | None => [s]
  end.

(** [s.replace(old, new)], left to right, occurrences not overlapping.
    [fuel] bounds the number of steps; [replace] gives enough. *)
Fixpoint replace_fuel (fuel : nat) (old new s : str) : str :=
  match fuel with
  | O => s
  | S f =>
      match strip_prefix old s with
      | Some rest => new ++ replace_fuel f old new rest
      | None => match s with
                | [] => []
                | c :: s' => c :: replace_fuel f old new s'
                end
      end
  end.

Definition replace (s old new : str) : str :=
  match old with
  | [] => new ++ flat_map (fun c => c :: new) s
  | _ :: _ => replace_fuel (S (List.length s)) old new s
  end.

(** *** [str(n)] and [int(s)] *)

Definition digit_char (d : Z) : ascii := ascii_of_nat (48 + Z.to_nat d).

Definition digit_val (c : ascii) : option Z :=
  let n := nat_of_ascii c in
  if ((48 <=? n) && (n <=? 57))%nat then Some (Z.of_nat (n - 48)) else None.

Fixpoint digits_fuel (fuel : nat) (n : Z) : str :=
  match fuel with
  | O => []
  | S f =>
      if (n <? 10)%Z then [digit_char n]
      else digits_fuel f (n / 10)%Z ++ [digit_char (n mod 10)%Z]
  end.

(** The decimal digits of [n >= 0]; a number has no more decimal digits
    than binary ones. *)
Definition digits (n : Z) : str :=
  digits_fuel (S (Z.to_nat (Z.log2 n))) n.

(** [str(n)] for an [int]. *)
Definition str_of_int (n : Z) : str :=
  if (n <? 0)%Z then "-"%char :: digits (- n) else digits n.

(** The white space that [int] takes off both ends, among the characters
    up to U+00FF: the ASCII white space, U+0085 and U+00A0. *)
Definition is_space (c : ascii) : bool :=
  let n := nat_of_ascii c in
  ((n =? 32) || ((9 <=? n) && (n <=? 13)) || (n =? 133) || (n =? 160))%nat.

Fixpoint lstrip (s : str) : str :=
  match s with
  | [] => []
  | c :: s' => if is_space c then lstrip s' else s
  end.

Definition strip (s : str) : str := rev (lstrip (rev (lstrip s))).

(** Digits, with single underscores allowed between two digits. *)
Fixpoint parse_digits (acc : Z) (after_digit : bool) (s : str) : option Z :=
  match s with
  | [] => if after_digit then Some acc else None
  | c :: s' =>
      if Ascii.eqb c "_"%char
      then (if after_digit then parse_digits acc false s' else None)
      else match digit_val c with
           | Some d => parse_digits (10 * acc + d)%Z true s'
           | None => None
           end
  end.

(** [int(s)] in base ten for a string of characters up to U+00FF, whose
    decimal digits are the ASCII ones: surrounding white space, an
    optional sign, digits.  [None] stands for [ValueError]. *)
Definition int (s : str) : option Z :=
  match strip s with
  | c :: r =>
      if Ascii.eqb c "-"%char then option_map Z.opp (parse_digits 0 false r)
      else if Ascii.eqb c "+"%char then parse_digits 0 false r
      else parse_digits 0 false (c :: r)
  | [] => None
  end.

(** A decimal digit. *)
Definition is_digit (c : ascii) : bool :=
  match digit_val c with Some _ => true | None => false end.

(** The number that a string of digits denotes, after [acc]. *)
Definition horner (acc : Z) (l : str) : Z :=
  fold_left (fun a c => match digit_val c with
                        | Some d => (10 * a + d)%Z
                        | None => a
                        end) l acc.

Definition uu : str := lit "__".

End PyStr.

(** ** Exceptions and results *)

Inductive exc_class : Type :=
| ValueError
| RuntimeError
| AssertionError
| IndexError
| NotImplementedError
| OSError
| FileNotFoundError
| NotADirectoryError
| FileExistsError
| CheckpointNotFoundError
| RunContextInterruptedError
| KeyboardInterrupt
| SystemExit
| OtherException (name : str)
| OtherBaseException (name : str).

(** [issubclass(c, Exception)]: what [except Exception] catches. *)
Definition is_Exception (c : exc_class) : bool :=
  match c with
  | KeyboardInterrupt | SystemExit | OtherBaseException _ => false
  | _ => true
  end.

Inductive exn : Type :=
| Exn (cls : exc_class) (msg : str) (context : option exn).

Definition exn_cls (e : exn) : exc_class := let 'Exn c _ _ := e in c.
Definition exn_msg (e : exn) : str := let 'Exn _ m _ := e in m.
Definition exn_context (e : exn) : option exn := let 'Exn _ _ x := e in x.

(** [raise Cls(msg)] while [handled] is the exception being handled: the
    interpreter sets [__context__] to it. *)
Definition raise_new (c : exc_class) (msg : str) (handled : option exn) : exn :=
  Exn c msg handled.

(** The exceptions reachable from [e] through [__context__], [e] first. *)
Fixpoint context_chain (e : exn) : list exn :=
  match e with
  | Exn _ _ None => [e]
  | Exn _ _ (Some e') => e :: context_chain e'
  end.

Inductive result (A : Type) : Type :=
| Ok (a : A)
| Raise (e : exn).

Arguments Ok {A} a.
Arguments Raise {A} e.

Definition bind {A B : Type} (c : result A) (k : A -> result B) : result B :=
  match c with
  | Ok a => k a
  | Raise e => Raise e
  end.

Notation "x <- c ;; k" := (bind c (fun x => k))
  (at level 61, c at next level, right associativity).

(** ** The file system *)

Inductive node : Type :=
| File (mtime : Z) (content : str)
| Dir (mtime : Z) (entries : list (str * node)).

(** The parts of an absolute [pathlib.Path], after the root. *)
Definition Path := list str.

Module Fs.

Definition st_mtime (n : node) : Z :=
  match n with File t _ => t | Dir t _ => t end.

Definition is_dir_node (n : node) : bool :=
  match n with Dir _ _ => true | File _ _ => false end.

Fixpoint assoc (name : str) (es : list (str * node)) : option node :=
  match es with
  | [] => None
  | (k, v) :: es' => if PyStr.eqb k name then Some v else assoc name es'
  end.

(** Applies [f] to the entry called [name]. *)
Fixpoint update (name : str) (f : node -> node) (es : list (str * node))
  : list (str * node) :=
  match es with
  | [] => []
  | (k, v) :: es' =>
      if PyStr.eqb k name then (k, f v) :: es'
      else (k, v) :: update name f es'
  end.

Definition delete (name : str) (es : list (str * node)) : list (str * node) :=
  filter (fun e => negb (PyStr.eqb (fst e) name)) es.

(** The node at a path made of entry names only. *)
Fixpoint lookup (n : node) (p : Path) : option node :=
  match p with
  | [] => Some n
  | c :: p' =>
      match n with
      | Dir _ es =>
          match assoc c es with
          | Some m => lookup m p'
          | None => None
          end
      | File _ _ => None
      end
  end.

Definition is_dir_at (root : node) (p : Path) : bool :=
  match lookup root p with
  | Some (Dir _ _) => true
  | _ => false
  end.

Definition dotdot : str := lit "..".

(** Path resolution without symbolic links: from the directory [cur],
    [..] goes to the parent and a name goes down.  The result is a
    path of names; its last name may be missing. *)
Fixpoint canon (root : node) (cur : Path) (p : Path) : option Path :=
  match p with
  | [] => Some cur
  | c :: p' =>
      if is_dir_at root cur then
        if PyStr.eqb c dotdot then canon root (removelast cur) p'
        else canon root (cur ++ [c]) p'
      else None
  end.

Definition resolve (root : node) (p : Path) : option node :=
  match canon root [] p with
  | Some cp => lookup root cp
  | None => None
  end.

Definition exists_ (root : node) (p : Path) : bool :=
  match resolve root p with Some _ => true | None => false end.

Definition is_dir (root : node) (p : Path) : bool :=
  match resolve root p with Some (Dir _ _) => true | _ => false end.

(** The entries [os.scandir] lists, in its order. *)
Definition scandir (root : node) (p : Path) : list (str * node) :=
  match resolve root p with
  | Some (Dir _ es) => es
  | _ => []
  end.

(** Removes the entry at a path of names, with all below it; the
    directory that held it is modified at [now]. *)
Fixpoint remove (n : node) (p : Path) (now : Z) {struct p} : node :=
  match p with
  | [] => n
  | c :: p' =>
      match n with
      | File _ _ => n
      | Dir t es =>
          match p' with
          | [] => Dir now (delete c es)
          | _ :: _ => Dir t (update c (fun m => remove m p' now) es)
          end
      end
  end.

(** Adds the entry [name] to the directory at a path of names. *)
Fixpoint insert (n : node) (p : Path) (name : str) (child : node) (now : Z)
         {struct p} : node :=
  match p with
  | [] =>
      match n with
      | Dir _ es => Dir now (es ++ [(name, child)])
      | File _ _ => n
      end
  | c :: p' =>
      match n with
      | Dir t es => Dir t (update c (fun m => insert m p' name child now) es)
      | File _ _ => n
      end
  end.

(** The class of the [OSError] for a path that does not resolve to a
    directory. *)
Fixpoint stat_error (root : node) (cur : Path) (p : Path) : exc_class :=
  match p with
  | [] => match lookup root cur with
          | Some (File _ _) => NotADirectoryError
          | _ => FileNotFoundError
          end
  | c :: p' =>
      match lookup root cur with
      | Some (Dir _ _) =>
          if PyStr.eqb c dotdot then stat_error root (removelast cur) p'
          else stat_error root (cur ++ [c]) p'
      | Some (File _ _) => NotADirectoryError
      | None => FileNotFoundError
      end
  end.

(** [shutil.rmtree(p)], called while [handled] is being handled. *)
Definition rmtree (root : node) (p : Path) (now : Z) (handled : option exn)
  : result node :=
  match canon root [] p with
  | Some (c :: cp) =>
      match lookup root (c :: cp) with
      | Some (Dir _ _) => Ok (remove root (c :: cp) now)
      | _ => Raise (raise_new (stat_error root [] p) (lit "rmtree") handled)
      end
  | Some [] => Raise (raise_new OSError (lit "rmtree") handled)
  | None => Raise (raise_new (stat_error root [] p) (lit "rmtree") handled)
  end.

(** [os.makedirs(p, exist_ok=True)]: the parts of [p] are visited from
    the directory [cur]; a missing one is created at time [now].  What
    was created stays when a later part fails. *)
Fixpoint makedirs_from (root : node) (cur : Path) (p : Path) (now : Z)
  : node * option exn :=
  match p with
  | [] => (root, None)
  | c :: p' =>
      if negb (is_dir_at root cur)
      then (root, Some (raise_new NotADirectoryError (lit "mkdir") None))
      else if PyStr.eqb c dotdot
      then makedirs_from root (removelast cur) p' now
      else
        match lookup root (cur ++ [c]) with
        | Some (Dir _ _) => makedirs_from root (cur ++ [c]) p' now
        | Some (File _ _) =>
            match p' with
            | [] => (root, Some (raise_new FileExistsError (lit "mkdir") None))
            | _ :: _ => (root, Some (raise_new NotADirectoryError (lit "mkdir") None))
            end
        | None =>
            makedirs_from (insert root cur c (Dir now []) now) (cur ++ [c]) p' now
        end
  end.

Definition makedirs (root : node) (p : Path) (now : Z) : node * option exn :=
  makedirs_from root [] p now.

End Fs.

(** ** [fnmatch] and [pathlib], as in CPython 3.11 *)

Module Fnmatch.

Inductive class_item : Type :=
| CChar (c : ascii)
| CRange (lo hi : ascii).

Inductive pat_item : Type :=
| PStar
| PAny
| PClass (negated : bool) (items : list class_item)
| PLit (c : ascii).

(** Splits at the first ["]"]. *)
Fixpoint break_bracket (s : str) : option (str * str) :=
  match s with
  | [] => None
  | c :: s' =>
      if Ascii.eqb c "]"%char then Some ([], s')
      else option_map (fun '(a, b) => (c :: a, b)) (break_bracket s')
  end.

(** After an opening bracket, at [i]: [j] passes a leading [!] and a
    ["]"] that comes first, and goes on to the next ["]"].  The result is
    [pat[i:j]] and what follows the bracket expression; [None] when the
    bracket is never closed. *)
Definition close_bracket (r : str) : option (str * str) :=
  let '(bang, r1) :=
    match r with
    | c :: r' => if Ascii.eqb c "!"%char then ([c], r') else ([], r)
    | [] => ([], r)
    end in
  let '(first, r2) :=
    match r1 with
    | c :: r' => if Ascii.eqb c "]"%char then ([c], r') else ([], r1)
    | [] => ([], r1)
    end in
  match break_bracket r2 with
  | Some (stuff, rest) => Some (bang ++ first ++ stuff, rest)
  | None => None
  end.

(** The chunks of [pat[i:j]] between the hyphens that make ranges:
    [k = pat.find('-', k, j)] passes over [skip] characters first, and
    after a hyphen at [k] the search goes on from [k+3]. *)
Fixpoint chunks_from (skip : nat) (chunk : str) (s : str) : list str :=
  match s with
  | [] => [rev chunk]
  | c :: s' =>
      match skip with
      | S n => chunks_from n (c :: chunk) s'
      | O =>
          if Ascii.eqb c "-"%char then rev chunk :: chunks_from 2 [] s'
          else chunks_from 0 (c :: chunk) s'
      end
  end.

(** The last chunk [pat[i:j]]: when it is empty, the hyphen before it
    goes to the chunk before. *)
Fixpoint close_chunks (l : list str) : list str :=
  match l with
  | [] => []
  | c :: rest =>
      match rest with
      | [] => [c]
      | [[]] => [c ++ ["-"%char]]
      | _ :: _ => c :: close_chunks rest
      end
  end.

(** [for k in range(len(chunks)-1, 0, -1)]: a range whose first character
    is greater than its last is taken out, and its two chunks become
    one. *)
Fixpoint remove_empty_ranges (chunks : list str) : list str :=
  match chunks with
  | [] => []
  | c :: rest =>
      match remove_empty_ranges rest with
      | [] => [c]
      | d :: rest' =>
          if (nat_of_ascii (hd "000"%char d) <? nat_of_ascii (last c "000"%char))%nat
          then (removelast c ++ tl d) :: rest'
          else c :: d :: rest'
      end
  end.

(** The members of the set [[stuff]], where [stuff] is the chunks joined
    by hyphens, with the hyphens and backslashes inside a chunk escaped:
    the last character of a chunk and the first of the next make a range,
    every other character stands for itself. *)
Fixpoint items_of (chunk : str) (rest : list str) : list class_item :=
  match rest with
  | [] => map CChar chunk
  | d :: rest' =>
      map CChar (removelast chunk)
          ++ CRange (last chunk "000"%char) (hd "000"%char d) :: items_of (tl d) rest'
  end.

(** What [fnmatch.translate] makes of the bracket expression around
    [pat[i:j]]: nothing matches the empty set, every character the set
    [!], and a [!] that comes first negates. *)
Definition class_of (stuff : str) : pat_item :=
  let skip := match stuff with
              | c :: _ => if Ascii.eqb c "!"%char then 2%nat else 1%nat
              | [] => 1%nat
              end in
  match remove_empty_ranges (close_chunks (chunks_from skip [] stuff)) with
  | [] => PClass false []
  | [[]] => PClass false []
  | chunk :: rest =>
      match chunk, rest with
      | [c], [] => if Ascii.eqb c "!"%char then PAny else PClass false [CChar c]
      | c :: chunk', _ =>
          if Ascii.eqb c "!"%char then PClass true (items_of chunk' rest)
          else PClass false (items_of chunk rest)
      | [], _ => PClass false (items_of chunk rest)
      end
  end.

Fixpoint translate_fuel (fuel : nat) (pat : str) : list pat_item :=
  match fuel with
  | O => []
  | S f =>
      match pat with
      | [] => []
      | c :: r =>
          if Ascii.eqb c "*"%char then PStar :: translate_fuel f r
          else if Ascii.eqb c "?"%char then PAny :: translate_fuel f r
          else if Ascii.eqb c "["%char then
            match close_bracket r with
            | Some (stuff, rest) => class_of stuff :: translate_fuel f rest
            | None => PLit c :: translate_fuel f r
            end
          else PLit c :: translate_fuel f r
      end
  end.

Definition translate (pat : str) : list pat_item :=
  translate_fuel (S (List.length pat)) pat.

Definition in_class (items : list class_item) (c : ascii) : bool :=
  existsb (fun it =>
             match it with
             | CChar d => Ascii.eqb c d
             | CRange lo hi =>
                 ((nat_of_ascii lo <=? nat_of_ascii c)
                  && (nat_of_ascii c <=? nat_of_ascii hi))%nat
             end) items.

Fixpoint matches (p : list pat_item) : str -> bool :=
  match p with
  | [] => fun s => match s with [] => true | _ :: _ => false end
  | PStar :: p' =>
      fix star (s : str) : bool :=
        matches p' s || match s with [] => false | _ :: s' => star s' end
  | PAny :: p' =>
      fun s => match s with [] => false | _ :: s' => matches p' s' end
  | PClass neg items :: p' =>
      fun s => match s with
               | [] => false
               | c :: s' => xorb neg (in_class items c) && matches p' s'
               end
  | PLit d :: p' =>
      fun s => match s with
               | [] => false
               | c :: s' => Ascii.eqb c d && matches p' s'
               end
  end.

(** [re.compile(fnmatch.translate(pat)).fullmatch(name)], with the
    documented meaning of the star, the question mark and the bracket
    expressions. *)
Definition fnmatch (name pat : str) : bool := matches (translate pat) name.

End Fnmatch.

Module Pathlib.

Definition slash : ascii := "/"%char.

(** The parts of a path string: empty parts and [.] are dropped. *)
Definition parse_parts (s : str) : Path :=
  filter (fun x => negb (PyStr.eqb x [] || PyStr.eqb x (lit ".")))
         (PyStr.split slash s).

(** [p / s]: an absolute [s] replaces [p]. *)
Definition joinpath (p : Path) (s : str) : Path :=
  if PyStr.startswith s [slash] then parse_parts s else p ++ parse_parts s.

(** [p.name] *)
Definition name (p : Path) : str := last p [].

Definition _is_wildcard_pattern (pat : str) : bool :=
  PyStr.contains_char "*"%char pat
  || PyStr.contains_char "?"%char pat
  || PyStr.contains_char "["%char pat.

Inductive selector : Type :=
| _TerminatingSelector
| _PreciseSelector (name : str) (dironly : bool) (successor : selector)
| _WildcardSelector (pat : str) (dironly : bool) (successor : selector)
| _RecursiveWildcardSelector (successor : selector).

Definition invalid_pattern : exn :=
  Exn ValueError
      (lit "Invalid pattern: '**' can only be an entire path component") None.

Fixpoint _make_selector (pattern_parts : list str) : result selector :=
  match pattern_parts with
  | [] => Ok _TerminatingSelector
  | pat :: child_parts =>
      if PyStr.eqb pat [] then Ok _TerminatingSelector
      else
        let dironly := match child_parts with [] => false | _ :: _ => true end in
        if PyStr.eqb pat (lit "**") then
          successor <- _make_selector child_parts ;;
          Ok (_RecursiveWildcardSelector successor)
        else if PyStr.contains (lit "**") pat then Raise invalid_pattern
        else
          successor <- _make_selector child_parts ;;
          if _is_wildcard_pattern pat
          then Ok (_WildcardSelector pat dironly successor)
          else Ok (_PreciseSelector pat dironly successor)
  end.

(** The directories below the directory [n] at [p], [p] first. *)
Fixpoint _iterate_directories (n : node) (p : Path) : list Path :=
  match n with
  | File _ _ => []
  | Dir _ es =>
      p :: (fix each (es : list (str * node)) : list Path :=
              match es with
              | [] => []
              | (k, child) :: es' =>
                  _iterate_directories child (p ++ [k]) ++ each es'
              end) es
  end.

Definition path_eq_dec : forall a b : Path, {a = b} + {a <> b} :=
  list_eq_dec (list_eq_dec ascii_dec).

(** Keeps the first occurrence of every path. *)
Fixpoint unique (seen : list Path) (l : list Path) : list Path :=
  match l with
  | [] => []
  | p :: l' =>
      if in_dec path_eq_dec p seen then unique seen l'
      else p :: unique (p :: seen) l'
  end.

Fixpoint _select_from (sel : selector) (root : node) (parent_path : Path)
  : list Path :=
  match sel with
  | _TerminatingSelector => [parent_path]
  | _PreciseSelector name dironly successor =>
      let path := parent_path ++ [name] in
      if (if dironly then Fs.is_dir root path else Fs.exists_ root path)
      then _select_from successor root path
      else []
  | _WildcardSelector pat dironly successor =>
      flat_map
        (fun entry : str * node =>
           if (negb dironly || Fs.is_dir_node (snd entry))
              && Fnmatch.fnmatch (fst entry) pat
           then _select_from successor root (parent_path ++ [fst entry])
           else [])
        (Fs.scandir root parent_path)
  | _RecursiveWildcardSelector successor =>
      unique []
        (flat_map (fun starting_point => _select_from successor root starting_point)
           (match Fs.resolve root parent_path with
            | Some n => _iterate_directories n parent_path
            | None => []
            end))
  end.

Definition select_from (sel : selector) (root : node) (parent_path : Path)
  : list Path :=
  if Fs.is_dir root parent_path then _select_from sel root parent_path else [].

(** [list(self.glob(pattern))] *)
Definition glob (root : node) (self : Path) (pattern : str)
  : result (list Path) :=
  match pattern with
  | [] => Raise (Exn ValueError (lit "Unacceptable pattern: ''") None)
  | _ :: _ =>
      if PyStr.startswith pattern [slash]
      then Raise (Exn NotImplementedError
                      (lit "Non-relative patterns are unsupported") None)
      else
        let pattern_parts :=
          parse_parts pattern
          ++ (if PyStr.endswith pattern [slash] then [[]] else []) in
        match pattern_parts with
        | [] => Raise (Exn IndexError (lit "tuple index out of range") None)
        | _ :: _ =>
            selector <- _make_selector pattern_parts ;;
            Ok (select_from selector root self)
        end
  end.

End Pathlib.

(** ** checkpoint_manager.py *)

Record SaveCheckpointData : Type := { save_dir : Path }.

Record LoadCheckpointData : Type :=
  { dir : Path; id : str; global_step : Z; run_id : str }.

(** exceptions.py, [CheckpointNotFoundError.__init__] *)
Definition CheckpointNotFoundError_init (id : option str) : exn :=
  let msg :=
    match id with
    | Some (c :: r) => lit "could not find a checkpoint with id " ++ c :: r
    | _ => lit "could not find the most recent checkpoint"
    end in
  Exn CheckpointNotFoundError msg None.

Record LocalFileCheckpointManager : Type :=
  { mgr_run_id : str;
    mgr_base_dir : Path;
    _most_recent_checkpoint_id : option str }.

(** What the body of a [with] block does: it changes the file system and
    either completes ([None]) or raises. *)
Definition scope_body (A : Type) : Type := A -> node -> node * option exn.

Module CheckpointManager.

Definition _runs_path (self : LocalFileCheckpointManager) : Path :=
  Pathlib.joinpath (mgr_base_dir self) (lit "runs").

Definition _checkpoints_path (self : LocalFileCheckpointManager) (run_id : str)
  : Path :=
  Pathlib.joinpath (Pathlib.joinpath (_runs_path self) run_id) (lit "checkpoints").

Definition _checkpoint_glob (id : str) : str := lit "*/checkpoints/" ++ id.

Definition _checkpoint_path (self : LocalFileCheckpointManager)
           (run_id id : str) : Path :=
  Pathlib.joinpath (_checkpoints_path self run_id) id.

(** Line 169: [f"{global_step}-{self.run_id}__{str(uuid4())}"], with the
    drawn token as an argument. *)
Definition format_checkpoint_id (global_step : Z) (run_id token : str) : str :=
  PyStr.str_of_int global_step ++ lit "-" ++ run_id ++ lit "__" ++ token.

(** Lines 237-240: the step and the run of a checkpoint id. *)
Definition decode_checkpoint_id (id : str) : result (Z * str) :=
  match PyStr.rsplit1 (lit "__") id with
  | [base; _] =>
      let parts := PyStr.split "-"%char base in
      match PyStr.int (hd [] parts) with
      | Some global_step => Ok (global_step, PyStr.join (lit "-") (tl parts))
      | None =>
          Raise (Exn ValueError (lit "invalid literal for int() with base 10") None)
      end
  | _ => Raise (Exn ValueError (lit "not enough values to unpack") None)
  end.

Definition is_hex_digit (c : ascii) : bool :=
  let n := nat_of_ascii c in
  (((48 <=? n) && (n <=? 57)) || ((97 <=? n) && (n <=? 102)))%nat.

(** The form of [str(uuid4())]: 8-4-4-4-12 lower-case hexadecimal digits. *)
Definition is_uuid_str (token : str) : bool :=
  let groups := PyStr.split "-"%char token in
  (List.length groups =? 5)%nat
  && forallb (fun '(g, n) => (List.length g =? n)%nat && forallb is_hex_digit g)
             (combine groups [8; 4; 4; 4; 12]%nat).

(** The [with self.save_checkpoint(global_step) as checkpoint: body]
    statement.  [token] is the drawn [uuid4], [t_open] and [t_close] the
    times of the two changes to the file system.  The result is the
    manager, the file system and what propagates to the caller. *)
Definition save_checkpoint (self : LocalFileCheckpointManager) (global_step : Z)
           (token : str) (t_open t_close : Z)
           (body : scope_body SaveCheckpointData) (fs : node)
  : LocalFileCheckpointManager * node * option exn :=
  let checkpoint_id := format_checkpoint_id global_step (mgr_run_id self) token in
  let self' := {| mgr_run_id := mgr_run_id self;
                  mgr_base_dir := mgr_base_dir self;
                  _most_recent_checkpoint_id := Some checkpoint_id |} in
  let checkpoint_path := _checkpoint_path self (mgr_run_id self) checkpoint_id in
  match Fs.makedirs fs checkpoint_path t_open with
  | (fs0, Some e) => (self', fs0, Some e)
  | (fs0, None) =>
      match body {| save_dir := checkpoint_path |} fs0 with
      | (fs1, None) => (self', fs1, None)
      | (fs1, Some e) =>
          if is_Exception (exn_cls e) then
            match Fs.rmtree fs1 checkpoint_path t_close (Some e) with
            | Ok fs2 => (self', fs2, Some e)
            | Raise e' => (self', fs1, Some e')
            end
          else (self', fs1, Some e)
      end
  end.

(** Python compares the pairs [(st_mtime, step)] lexicographically. *)
Definition key_gt (a b : Z * Z) : bool :=
  (fst a >? fst b)%Z || ((fst a =? fst b)%Z && (snd a >? snd b)%Z).

(** [max(l, key=...)] on the keyed items: the first of the greatest. *)
Fixpoint max_from (A : Type) (best : (Z * Z) * A) (l : list ((Z * Z) * A))
  : A :=
  match l with
  | [] => snd best
  | x :: l' => if key_gt (fst x) (fst best) then max_from x l' else max_from best l'
  end.

(** Line 225: [(c.stat().st_mtime, int(c.name.split("-")[0]))] *)
Definition checkpoint_key (fs : node) (c : Path) : result (Z * Z) :=
  match Fs.resolve fs c with
  | None => Raise (Exn FileNotFoundError (lit "stat") None)
  | Some n =>
      match PyStr.int (hd [] (PyStr.split "-"%char (Pathlib.name c))) with
      | Some k => Ok (Fs.st_mtime n, k)
      | None =>
          Raise (Exn ValueError (lit "invalid literal for int() with base 10") None)
      end
  end.

Fixpoint keyed (fs : node) (l : list Path) : result (list ((Z * Z) * Path)) :=
  match l with
  | [] => Ok []
  | c :: l' =>
      k <- checkpoint_key fs c ;;
      rest <- keyed fs l' ;;
      Ok ((k, c) :: rest)
  end.

(** [repr(id)] of a string without quotes or escapes in it. *)
Definition repr (s : str) : str := lit "'" ++ s ++ lit "'".

(** The value yielded by [self.load_checkpoint(id)], or what it raises. *)
Definition load_checkpoint (self : LocalFileCheckpointManager)
           (id : option str) (fs : node) : result LoadCheckpointData :=
  checkpoint_path <-
    match id with
    | None =>
        let checkpoints_path := _checkpoints_path self (mgr_run_id self) in
        checkpoint_paths <- Pathlib.glob fs checkpoints_path (lit "*") ;;
        match checkpoint_paths with
        | [] => Raise (CheckpointNotFoundError_init None)
        | _ :: _ =>
            ks <- keyed fs checkpoint_paths ;;
            match ks with
            | [] => Raise (Exn ValueError (lit "max() arg is an empty sequence") None)
            | k :: ks' => Ok (max_from k ks')
            end
        end
    | Some id =>
        let runs_path := _runs_path self in
        checkpoint_paths <- Pathlib.glob fs runs_path (_checkpoint_glob id) ;;
        match checkpoint_paths with
        | [] => Raise (CheckpointNotFoundError_init (Some id))
        | [checkpoint_path] => Ok checkpoint_path
        | _ :: _ :: _ =>
            Raise (Exn RuntimeError
                       (lit "unexpected multiple checkpoints with id " ++ repr id)
                       None)
        end
    end ;;
  let id := Pathlib.name checkpoint_path in
  decoded <- decode_checkpoint_id id ;;
  Ok {| dir := checkpoint_path; id := id;
        global_step := fst decoded; run_id := snd decoded |}.

(** An id that is the name of one entry: it has no separator and no
    glob metacharacter and is not empty, [.] or [..]. *)
Definition plain_name (id : str) : bool :=
  negb (PyStr.contains_char "/"%char id)
  && negb (Pathlib._is_wildcard_pattern id)
  && negb (PyStr.eqb id [])
  && negb (PyStr.eqb id (lit "."))
  && negb (PyStr.eqb id (lit "..")).

(** The entries called [id] in the checkpoint roots of all the runs
    below [runs_path], in the order of the runs. *)
Definition named_checkpoints (fs : node) (runs_path : Path) (id : str)
  : list Path :=
  flat_map
    (fun entry : str * node =>
       let p := runs_path ++ [fst entry; lit "checkpoints"; id] in
       if Fs.is_dir_node (snd entry) && Fs.exists_ fs p then [p] else [])
    (Fs.scandir fs runs_path).

(** A name of the form [{global_step}-{run_id}__{token}]. *)
Definition is_checkpoint_id (name : str) : Prop :=
  exists (global_step : Z) (run_id token : str),
    (0 <= global_step)%Z
    /\ PyStr.contains_char "_"%char token = false
    /\ name = format_checkpoint_id global_step run_id token.

(** The paths of the entries of a directory. *)
Definition children (fs : node) (parent : Path) : list Path :=
  map (fun entry : str * node => parent ++ [fst entry]) (Fs.scandir fs parent).

(** The selector of the pattern [*/checkpoints/{id}] for an id without
    separator and without glob metacharacter. *)
Definition id_selector (id : str) : Pathlib.selector :=
  if PyStr.eqb id [] then
    Pathlib._WildcardSelector (lit "*") true
      (Pathlib._PreciseSelector (lit "checkpoints") true Pathlib._TerminatingSelector)
  else if PyStr.eqb id (lit ".") then
    Pathlib._WildcardSelector (lit "*") true
      (Pathlib._PreciseSelector (lit "checkpoints") false Pathlib._TerminatingSelector)
  else
    Pathlib._WildcardSelector (lit "*") true
      (Pathlib._PreciseSelector (lit "checkpoints") true
         (Pathlib._PreciseSelector id false Pathlib._TerminatingSelector)).

Definition key_le (a b : Z * Z) : Prop :=
  (fst a < fst b \/ (fst a = fst b /\ snd a <= snd b))%Z.

End CheckpointManager.

(** ** run_context.py *)

Inductive role : Type := Config | Model | Progress | Metric | Checkpoint.

(** What a call of [__exit__(exc_type, exc_value, traceback)] does: it
    returns a value, of which only the truth matters, or it raises a
    newly created exception. *)
Inductive exit_result : Type :=
| ExitReturn (truthy : bool)
| ExitRaise (c : exc_class) (msg : str).

(** A collaborator of the run context, as it is when a [with] statement
    comes to it: which of the two special methods it has, and what they
    do when that statement calls them.  [do_enter] is [None] when
    [__enter__] returns and the exception that it raises otherwise.  An
    object that behaves otherwise the next time, as a context manager
    that can be entered once, is another record by then. *)
Record collaborator : Type :=
  { has_enter : bool;
    has_exit : bool;
    do_enter : option (exc_class * str);
    do_exit : option exn -> exit_result }.

(** A call that was made: [Enter r] is a call of [__enter__] that
    returned, [Exit r exc res] a call of [__exit__] with the exception
    details [exc], which did [res]. *)
Inductive event : Type :=
| Enter (r : role)
| Exit (r : role) (exc : option exn) (res : exit_result).

(** [contextlib.ExitStack], as in CPython 3.11. *)
Module ExitStack.

(** The callbacks, the last pushed first, and the calls made so far. *)
Record state : Type :=
  { _exit_callbacks : list (role * (option exn -> exit_result));
    trace : list event }.

Definition log (ev : event) (s : state) : state :=
  {| _exit_callbacks := _exit_callbacks s; trace := trace s ++ [ev] |}.

(** [enter_context(cm)]: the callback is pushed only when [__enter__]
    has returned. *)
Definition enter_context (r : role) (cm : collaborator) (s : state)
  : state * option exn :=
  match do_enter cm with
  | Some (c, msg) => (s, Some (raise_new c msg None))
  | None =>
      ({| _exit_callbacks := (r, do_exit cm) :: _exit_callbacks s;
          trace := trace s ++ [Enter r] |}, None)
  end.

(** [_fix_exception_context(new_exc, old_exc)] for an exception that a
    callback has just created: its [__context__] is the exception the
    frame was handling, if any.  Without one the chain ends at once and
    is left alone; otherwise its end is made to point to [old_exc]. *)
Definition _fix_exception_context (new_exc : exn) (old_exc : option exn) : exn :=
  match exn_context new_exc with
  | None => new_exc
  | Some _ => Exn (exn_cls new_exc) (exn_msg new_exc) old_exc
  end.

(** The loop of [__exit__]: the callbacks are popped and called with the
    current exception details. *)
Fixpoint unwind (callbacks : list (role * (option exn -> exit_result)))
         (frame_exc exc : option exn) (suppressed_exc pending_raise : bool)
         (tr : list event) : option exn * bool * bool * list event :=
  match callbacks with
  | [] => (exc, suppressed_exc, pending_raise, tr)
  | (r, cb) :: rest =>
      let res := cb exc in
      let tr' := tr ++ [Exit r exc res] in
      match res with
      | ExitReturn true => unwind rest frame_exc None true false tr'
      | ExitReturn false =>
          unwind rest frame_exc exc suppressed_exc pending_raise tr'
      | ExitRaise c msg =>
          let new_exc :=
            _fix_exception_context (raise_new c msg frame_exc) exc in
          unwind rest frame_exc (Some new_exc) suppressed_exc true tr'
      end
  end.

(** [ExitStack.__exit__] called while the frame handles [frame_exc]:
    the stack is emptied; the result is the returned truth value or the
    pending exception. *)
Definition __exit__ (s : state) (frame_exc exc : option exn)
  : state * result bool :=
  let received_exc := match exc with Some _ => true | None => false end in
  let '(exc', suppressed_exc, pending_raise, tr) :=
    unwind (_exit_callbacks s) frame_exc exc false false (trace s) in
  let s' := {| _exit_callbacks := []; trace := tr |} in
  if pending_raise then
    match exc' with
    | Some e => (s', Raise e)
    | None => (s', Ok (received_exc && suppressed_exc))
    end
  else (s', Ok (received_exc && suppressed_exc)).

End ExitStack.

Record RunContext : Type :=
  { rc_run_id : str;
    config_loader : collaborator;
    dataset_fetcher : collaborator;
    model_loader : collaborator;
    progress_saver : collaborator;
    metric_saver : collaborator;
    checkpoint_manager : collaborator;
    _exit_stack : ExitStack.state }.

Module RunCtx.

Definition _is_context_manager (obj : collaborator) : bool :=
  has_enter obj && has_exit obj.

(** [ExitStack()] *)
Definition new_stack : ExitStack.state :=
  {| ExitStack._exit_callbacks := []; ExitStack.trace := [] |}.

(** [RunContext.__init__]; the two signal handlers that it installs raise
    [RunContextInterruptedError] in the running code. *)
Definition __init__ (run_id : str)
           (config_loader dataset_fetcher model_loader progress_saver
                          metric_saver checkpoint_manager : collaborator)
  : RunContext :=
  {| rc_run_id := run_id;
     config_loader := config_loader;
     dataset_fetcher := dataset_fetcher;
     model_loader := model_loader;
     progress_saver := progress_saver;
     metric_saver := metric_saver;
     checkpoint_manager := checkpoint_manager;
     _exit_stack := new_stack |}.

Definition with_stack (self : RunContext) (s : ExitStack.state) : RunContext :=
  {| rc_run_id := rc_run_id self;
     config_loader := config_loader self;
     dataset_fetcher := dataset_fetcher self;
     model_loader := model_loader self;
     progress_saver := progress_saver self;
     metric_saver := metric_saver self;
     checkpoint_manager := checkpoint_manager self;
     _exit_stack := s |}.

(** One [if _is_context_manager(c): self._exit_stack.enter_context(c)],
    followed by the rest of the method. *)
Definition enter_if_cm (r : role) (c : collaborator)
           (rest : ExitStack.state -> ExitStack.state * option exn)
           (s : ExitStack.state) : ExitStack.state * option exn :=
  if _is_context_manager c then
    match ExitStack.enter_context r c s with
    | (s', None) => rest s'
    | (s', Some e) => (s', Some e)
    end
  else rest s.

(** [RunContext.__enter__]: the context with its stack, and the
    exception if an [__enter__] raised. *)
Definition __enter__ (self : RunContext) : RunContext * option exn :=
  let '(s, r) :=
    enter_if_cm Config (config_loader self)
      (enter_if_cm Model (model_loader self)
         (enter_if_cm Progress (progress_saver self)
            (enter_if_cm Metric (metric_saver self)
               (enter_if_cm Checkpoint (checkpoint_manager self)
                  (fun s => (s, None))))))
      (_exit_stack self) in
  (with_stack self s, r).

Definition isinstance_interrupted (exception_value : option exn) : bool :=
  match exception_value with
  | Some (Exn RunContextInterruptedError _ _) => true
  | _ => false
  end.

(** [RunContext.__exit__(exception_type, exception_value, traceback)],
    called by the [with] statement, which is handling
    [exception_value]. *)
Definition __exit__ (self : RunContext) (exception_value : option exn)
  : RunContext * result bool :=
  let '(s, exit_stack_exit) :=
    ExitStack.__exit__ (_exit_stack self) exception_value exception_value in
  (with_stack self s,
   match exit_stack_exit with
   | Raise e => Raise e
   | Ok b => if isinstance_interrupted exception_value then Ok true else Ok b
   end).

(** [with self: body], where the body completes ([None]) or raises: the
    context afterwards and the exception that the caller sees, if any. *)
Definition with_ (self : RunContext) (body : option exn)
  : RunContext * option exn :=
  match __enter__ self with
  | (self1, Some e) => (self1, Some e)
  | (self1, None) =>
      match __exit__ self1 body with
      | (self2, Raise e) => (self2, Some e)
      | (self2, Ok true) => (self2, None)
      | (self2, Ok false) => (self2, body)
      end
  end.

(** The five collaborators that [__enter__] looks at, in its order. *)
Definition collaborators (self : RunContext) : list (role * collaborator) :=
  [(Config, config_loader self); (Model, model_loader self);
   (Progress, progress_saver self); (Metric, metric_saver self);
   (Checkpoint, checkpoint_manager self)].

(** Those that are context managers. *)
Definition scoped (self : RunContext) : list (role * collaborator) :=
  filter (fun rc => _is_context_manager (snd rc)) (collaborators self).

Definition scoped_roles (self : RunContext) : list role :=
  map fst (scoped self).



(** The five steps of [__enter__] as one loop over [collaborators]. *)
Fixpoint enter_all (l : list (role * collaborator)) (s : ExitStack.state)
  : ExitStack.state * option exn :=
  match l with
  | [] => (s, None)
  | (r, c) :: l' => enter_if_cm r c (enter_all l') s
  end.

(** The callbacks of the scoped collaborators, the last entered first. *)
Definition release_actions (l : list (role * collaborator))
  : list (role * (option exn -> exit_result)) :=
  rev (map (fun rc => (fst rc, do_exit (snd rc))) l).

(** What the caller of [with self: body] sees, from the loop of the
    stack. *)
Definition seen (unwound : option exn * bool * bool * list event)
           (body : option exn) : option exn :=
  let '(exc', suppressed_exc, pending_raise, _) := unwound in
  let received_exc := match body with Some _ => true | None => false end in
  let swallowed :=
    if isinstance_interrupted body then true else received_exc && suppressed_exc in
  match pending_raise, exc' with
  | true, Some e => Some e
  | _, _ => if swallowed then None else body
  end.

(** The calls that release the collaborators [l], the one entered last
    first: each is a call of [__exit__] of its collaborator with some
    exception details, and did what that [__exit__] does with them. *)
Definition released (l : list (role * collaborator)) (calls : list event) : Prop :=
  Forall2 (fun (rc : role * collaborator) (call : event) =>
             exists exc, call = Exit (fst rc) exc (do_exit (snd rc) exc))
          (rev l) calls.

(** The exception details of the first of the calls. *)
Definition first_given (calls : list event) (exc : option exn) : Prop :=
  match calls with
  | Exit _ given _ :: _ => given = exc
  | _ => True
  end.

End RunCtx.

(** ** metric_saver.py *)

(** config_types.py, [JSON]; a [float] is an IEEE 754 value. *)
Inductive JSON : Type :=
| JNull
| JBool (b : bool)
| JInt (n : Z)
| JFloat (f : spec_float)
| JStr (s : str)
| JList (l : list JSON)
| JDict (items : list (str * JSON)).

Record SaveMetricDict : Type :=
  { metric_global_step : Z; metric_tag : str; metric_value : JSON }.

Record MemoryMetricSaver : Type := { metrics : list SaveMetricDict }.

Module MetricSaver.

(** [math.isfinite] *)
Definition isfinite (f : spec_float) : bool :=
  match f with
  | S754_zero _ | S754_finite _ _ _ => true
  | S754_infinity _ | S754_nan => false
  end.

Fixpoint _encode_nan_and_inf_as_none (o : JSON) : JSON :=
  match o with
  | JDict items =>
      JDict (map (fun '(key, value) => (key, _encode_nan_and_inf_as_none value))
                 items)
  | JList l => JList (map _encode_nan_and_inf_as_none l)
  | JFloat f => if negb (isfinite f) then JNull else o
  | _ => o
  end.

Definition _encode_metrics (metrics : list SaveMetricDict) : list SaveMetricDict :=
  map (fun m => {| metric_global_step := metric_global_step m;
                   metric_tag := metric_tag m;
                   metric_value := _encode_nan_and_inf_as_none (metric_value m) |})
      metrics.

Definition save_metrics (self : MemoryMetricSaver) (ms : list SaveMetricDict)
  : MemoryMetricSaver :=
  {| metrics := metrics self ++ _encode_metrics ms |}.

(** What the sink has to store for a value: [None] for a float that is
    not finite, the same value for any other leaf, and the same list or
    the same keys around stored members. *)
Inductive stored_as : JSON -> JSON -> Prop :=
| stored_nonfinite f : isfinite f = false -> stored_as (JFloat f) JNull
| stored_finite f : isfinite f = true -> stored_as (JFloat f) (JFloat f)
| stored_null : stored_as JNull JNull
| stored_bool b : stored_as (JBool b) (JBool b)
| stored_int n : stored_as (JInt n) (JInt n)
| stored_str s : stored_as (JStr s) (JStr s)
| stored_list l l' : Forall2 stored_as l l' -> stored_as (JList l) (JList l')
| stored_dict d d' :
    Forall2 (fun kv kv' => fst kv = fst kv' /\ stored_as (snd kv) (snd kv')) d d' ->
    stored_as (JDict d) (JDict d').

(** Whether a float that is not finite occurs in a value. *)
Fixpoint has_nonfinite (o : JSON) : bool :=
  match o with
  | JFloat f => negb (isfinite f)
  | JList l => existsb has_nonfinite l
  | JDict items => existsb (fun '(_, value) => has_nonfinite value) items
  | _ => false
  end.

End MetricSaver.

(** ** s3.py, on a POSIX system *)

Module Posixpath.

Definition sep : str := lit "/".

(** [os.path.join(a, b)] *)
Definition join (a b : str) : str :=
  if PyStr.startswith b sep then b
  else if match a with [] => true | _ :: _ => PyStr.endswith a sep end
       then a ++ b
       else a ++ sep ++ b.

(** The names of [os.path.abspath(path)] when the working directory is
    [cwd]: empty parts and [.] are dropped, [..] removes a name. *)
Definition abspath_parts (cwd path : str) : list str :=
  fold_left
    (fun acc c =>
       if PyStr.eqb c [] || PyStr.eqb c (lit ".") then acc
       else if PyStr.eqb c (lit "..") then removelast acc
       else acc ++ [c])
    (PyStr.split "/"%char (join cwd path)) [].

(** [len(os.path.commonprefix([a, b]))] on two lists of names. *)
Fixpoint common (a b : list str) : nat :=
  match a, b with
  | x :: a', y :: b' => if PyStr.eqb x y then S (common a' b') else O
  | _, _ => O
  end.

(** [os.path.relpath(path, start)] *)
Definition relpath (cwd path start : str) : result str :=
  match path with
  | [] => Raise (Exn ValueError (lit "no path specified") None)
  | _ :: _ =>
      let start_list := abspath_parts cwd start in
      let path_list := abspath_parts cwd path in
      let i := common start_list path_list in
      let rel_list :=
        repeat (lit "..") (List.length start_list - i) ++ skipn i path_list in
      match rel_list with
      | [] => Ok (lit ".")
      | _ :: _ => Ok (PyStr.join sep rel_list)
      end
  end.

End Posixpath.

Module S3.

Definition os_sep : str := Posixpath.sep.

Definition _file_path_to_s3_key (cwd : str)
           (file_path file_path_prefix_to_strip s3_key_prefix : str) : result str :=
  file_suffix <- Posixpath.relpath cwd file_path file_path_prefix_to_strip ;;
  let key_suffix := PyStr.replace file_suffix os_sep (lit "/") in
  Ok (s3_key_prefix ++ key_suffix).

Definition _s3_key_to_file_path (key file_path_prefix s3_key_prefix : str)
  : result str :=
  if negb (PyStr.endswith s3_key_prefix (lit "/"))
  then Raise (Exn AssertionError [] None)
  else
    let stripped_key := PyStr.replace key s3_key_prefix [] in
    let rel_file_path := PyStr.replace stripped_key (lit "/") os_sep in
    Ok (Posixpath.join file_path_prefix rel_file_path).

End S3.

(** ** Inputs of the examples *)

Module Examples.
Import CheckpointManager RunCtx.

Definition token0 : str := lit "123e4567-e89b-42d3-a456-426614174000".

Definition manager0 : LocalFileCheckpointManager :=
  {| mgr_run_id := lit "run-a";
     mgr_base_dir := [lit "data"];
     _most_recent_checkpoint_id := None |}.




Definition fs_one_run : node :=
  Dir 0 [(lit "data",
          Dir 0 [(lit "runs",
                  Dir 0 [(lit "a",
                          Dir 0 [(lit "checkpoints",
                                  Dir 1 [(lit "5-a__t", Dir 1 [])])])])])].

Definition fs_two_runs : node :=
  Dir 0 [(lit "data",
          Dir 0 [(lit "runs",
                  Dir 0 [(lit "a",
                          Dir 0 [(lit "checkpoints",
                                  Dir 1 [(lit "5-a__t", Dir 1 [])])]);
                         (lit "b",
                          Dir 0 [(lit "checkpoints",
                                  Dir 2 [(lit "5-a__t", Dir 2 [])])])])])].

Definition manager_a : LocalFileCheckpointManager :=
  {| mgr_run_id := lit "a";
     mgr_base_dir := [lit "data"];
     _most_recent_checkpoint_id := None |}.

Definition manager_b : LocalFileCheckpointManager :=
  {| mgr_run_id := lit "b";
     mgr_base_dir := [lit "data"];
     _most_recent_checkpoint_id := None |}.

Definition loaded_5a : LoadCheckpointData :=
  {| dir := [lit "data"; lit "runs"; lit "a"; lit "checkpoints"; lit "5-a__t"];
     id := lit "5-a__t"; global_step := 5; run_id := lit "a" |}.

(** Three checkpoints of the run [a]: the newest two were modified at
    the same time. *)
Definition fs_three : node :=
  Dir 0 [(lit "data",
          Dir 0 [(lit "runs",
                  Dir 0 [(lit "a",
                          Dir 0 [(lit "checkpoints",
                                  Dir 7 [(lit "3-a__x", Dir 7 []);
                                         (lit "9-a__y", Dir 5 []);
                                         (lit "4-a__z", Dir 7 [])])])])])].

Definition manager_three : LocalFileCheckpointManager :=
  {| mgr_run_id := lit "a";
     mgr_base_dir := [lit "data"];
     _most_recent_checkpoint_id := None |}.

Definition plain : collaborator :=
  {| has_enter := false; has_exit := false;
     do_enter := None; do_exit := fun _ => ExitReturn false |}.

(** A context manager whose [__exit__] does [f]. *)
Definition scoped_resource (f : option exn -> exit_result) : collaborator :=
  {| has_enter := true; has_exit := true; do_enter := None; do_exit := f |}.

Definition quiet : option exn -> exit_result := fun _ => ExitReturn false.

Definition suppressing : option exn -> exit_result := fun _ => ExitReturn true.

Definition failing (name : string) : option exn -> exit_result :=
  fun _ => ExitRaise (OtherException (lit name)) (lit "release failed").

Definition interrupted : exn :=
  Exn RunContextInterruptedError (lit "RunContext was interrupted") None.

Definition body_error : exn := Exn ValueError (lit "unrelated") None.

(** A context with a scoped config loader and a scoped checkpoint
    manager; the other collaborators are plain objects. *)
Definition context_of (config checkpoint : option exn -> exit_result)
  : RunContext :=
  __init__ (lit "run-a") (scoped_resource config) plain plain plain plain
           (scoped_resource checkpoint).

End Examples.

(** * More file systems and inputs *)

Module Fixtures.
Import CheckpointManager.

(** The characters that make a name a pattern or a path. *)
Definition special (c : ascii) : Prop := In c ["*"; "?"; "["; "/"]%char.

(** A checkpoint root with a checkpoint and a stray directory. *)
Definition fs_stray : node :=
  Dir 0 [(lit "data",
          Dir 0 [(lit "runs",
                  Dir 0 [(lit "a",
                          Dir 0 [(lit "checkpoints",
                                  Dir 3 [(lit "5-a__t", Dir 1 []);
                                         (lit "notes", Dir 3 [])])])])])].

(** A checkpoint root whose newest entry is a regular file. *)
Definition fs_file_newest : node :=
  Dir 0 [(lit "data",
          Dir 0 [(lit "runs",
                  Dir 0 [(lit "a",
                          Dir 0 [(lit "checkpoints",
                                  Dir 3 [(lit "5-a__t", Dir 1 []);
                                         (lit "7-a__u", File 2 [])])])])])].

(** A store with one checkpoint under the id made for step 3 of [run-a]. *)
Definition fs_generated : node :=
  Dir 0 [(lit "data",
          Dir 0 [(lit "runs",
                  Dir 0 [(lit "run-a",
                          Dir 0 [(lit "checkpoints",
                                  Dir 1 [(format_checkpoint_id 3 (lit "run-a")
                                                               Examples.token0,
                                          Dir 1 [])])])])])].

(** What making a directory leaves of an entry: it stays an entry of its
    kind, and a file stays as it is. *)
Definition kept (m m' : node) : Prop :=
  Fs.is_dir_node m' = Fs.is_dir_node m /\ (Fs.is_dir_node m = false -> m' = m).

(** The names of an absolute path are not empty and have no separator
    in them. *)
Definition is_name (c : str) : Prop :=
  c <> [] /\ PyStr.contains_char "/"%char c = false.

(** A body that writes a file and completes. *)
Definition body_write : scope_body SaveCheckpointData :=
  fun checkpoint fs =>
    (Fs.insert fs (save_dir checkpoint) (lit "model.pth") (File 10 (lit "w")) 10,
     None).

End Fixtures.

Module RunFixtures.
Import RunCtx.

(** A context manager whose [__enter__] raises. *)
Definition unenterable : collaborator :=
  {| has_enter := true; has_exit := true;
     do_enter := Some (OSError, lit "cannot open");
     do_exit := Examples.quiet |}.

(** [local_run_context(run_id=..., config=..., base_dir=...,
    dataset_fetcher=...)]: the loaders and savers that it makes,
    [MemoryConfigLoader], [LocalFileModelLoader], [MemoryProgressSaver],
    [MemoryMetricSaver] and [LocalFileCheckpointManager], have neither
    [__enter__] nor [__exit__]. *)
Definition local_run_context (run_id : str) (dataset_fetcher : option collaborator)
  : RunContext :=
  __init__ run_id Examples.plain
           (match dataset_fetcher with Some d => d | None => Examples.plain end)
           Examples.plain Examples.plain Examples.plain Examples.plain.

End RunFixtures.

(** ** dataset.py *)

Module Dataset.

Record LocalFileDatasetFetcher : Type :=
  { file_root : Path;
    snapshot_id : str;
    split : option str;
    _cached_datum_index_to_id : option (list (Z * str));
    _num_datums : option Z }.

(** [str(x)] for a string or [None]. *)
Definition str_of (x : option str) : str :=
  match x with Some s => s | None => lit "None" end.

(** [a == b] for two values that are strings or [None]. *)
Definition optional_eqb (a b : option str) : bool :=
  match a, b with
  | Some x, Some y => PyStr.eqb x y
  | None, None => true
  | _, _ => false
  end.

(** [p.mkdir(parents=True, exist_ok=True)]: the directories that are
    missing are made, as by [os.makedirs(p, exist_ok=True)]. *)
Definition mkdir (root : node) (p : Path) (now : Z) : node * option exn :=
  Fs.makedirs root p now.

Definition AttributeError : exc_class := OtherException (lit "AttributeError").

Definition IsADirectoryError : exc_class :=
  OtherException (lit "IsADirectoryError").

(** [LocalFileDatasetFetcher(base_dir=base_dir)] in the working directory
    [cwd]; the two attributes of the cache are not set. *)
Definition __init__ (cwd : Path) (base_dir : str) (now : Z) (fs : node)
  : node * result LocalFileDatasetFetcher :=
  let file_root :=
    Pathlib.joinpath (Pathlib.joinpath cwd base_dir) (lit "datasets") in
  match mkdir fs file_root now with
  | (fs', Some e) => (fs', Raise e)
  | (fs', None) =>
      (fs', Ok {| file_root := file_root;
                  snapshot_id := [];
                  split := None;
                  _cached_datum_index_to_id := None;
                  _num_datums := None |})
  end.

(** [p.is_file()] *)
Definition is_file (fs : node) (p : Path) : bool :=
  match Fs.resolve fs p with Some (File _ _) => true | _ => false end.

(** [p.stem]: the name without its last suffix; a dot that comes first
    or last starts no suffix. *)
Definition stem (p : Path) : str :=
  let name := Pathlib.name p in
  match PyStr.rpartition (lit ".") name with
  | Some (a :: before, _ :: _) => a :: before
  | _ => name
  end.

(** [enumerate(l)], counting from [i]. *)
Fixpoint enumerate_from (A : Type) (i : Z) (l : list A) : list (Z * A) :=
  match l with
  | [] => []
  | x :: l' => (i, x) :: enumerate_from (i + 1) l'
  end.

(** [{i: f.stem for i, f in enumerate(listing) if f.is_file()}], the
    items in the order of insertion. *)
Definition index_to_id (fs : node) (listing : list Path) : list (Z * str) :=
  map (fun item : Z * Path => (fst item, stem (snd item)))
      (filter (fun item : Z * Path => is_file fs (snd item))
              (enumerate_from 0 listing)).

(** The directory of a snapshot split. *)
Definition split_root (self : LocalFileDatasetFetcher) (snapshot_id : str)
           (split : option str) : Path :=
  Pathlib.joinpath (Pathlib.joinpath (file_root self) snapshot_id) (str_of split).

(** [self.prepare_snapshot_split(snapshot_id, split)]: the fetcher and
    the file system afterwards, and the exception if one is raised. *)
Definition prepare_snapshot_split (self : LocalFileDatasetFetcher)
           (snapshot_id : str) (split : option str) (now : Z) (fs : node)
  : LocalFileDatasetFetcher * node * option exn :=
  if PyStr.eqb (Dataset.snapshot_id self) snapshot_id
     && optional_eqb (Dataset.split self) split
  then (self, fs, None)
  else
    let self1 :=
      {| file_root := file_root self;
         snapshot_id := snapshot_id;
         split := split;
         _cached_datum_index_to_id := _cached_datum_index_to_id self;
         _num_datums := _num_datums self |} in
    let file_root := split_root self snapshot_id split in
    match mkdir fs file_root now with
    | (fs1, Some e) => (self1, fs1, Some e)
    | (fs1, None) =>
        match Pathlib.glob fs1 file_root (lit "*.json") with
        | Raise e => (self1, fs1, Some e)
        | Ok listing =>
            let cached := index_to_id fs1 listing in
            ({| file_root := Dataset.file_root self;
                snapshot_id := snapshot_id;
                split := split;
                _cached_datum_index_to_id := Some cached;
                _num_datums := Some (Z.of_nat (List.length cached)) |},
             fs1, None)
        end
    end.

(** [d.get(k)] *)
Fixpoint get (d : list (Z * str)) (k : Z) : option str :=
  match d with
  | [] => None
  | (i, v) :: d' => if (i =? k)%Z then Some v else get d' k
  end.

(** [p.read_bytes()] and [p.read_text()], of a file whose content is
    text. *)
Definition read (fs : node) (p : Path) : result str :=
  match Fs.resolve fs p with
  | Some (File _ content) => Ok content
  | Some (Dir _ _) => Raise (Exn IsADirectoryError (lit "open") None)
  | None => Raise (Exn (Fs.stat_error fs [] p) (lit "open") None)
  end.

Definition no_attribute (name : string) : exn :=
  Exn AttributeError
      (lit "'LocalFileDatasetFetcher' object has no attribute '" ++ lit name
           ++ lit "'") None.

(** The datum called [datum_id] below [file_root]: its bytes and its
    metadata, read by [loads], which stands for [json.loads]. *)
Definition fetch (A : Type) (loads : str -> result A) (fs : node)
           (file_root : Path) (datum_id : option str) : result (str * A) :=
  datum_bytes <- read fs (Pathlib.joinpath file_root (str_of datum_id)) ;;
  text <- read fs (Pathlib.joinpath file_root (str_of datum_id ++ lit ".json")) ;;
  datum_dict <- loads text ;;
  Ok (datum_bytes, datum_dict).

(** [self.get_datum_at_index(index)] *)
Definition get_datum_at_index (A : Type) (self : LocalFileDatasetFetcher)
           (index : Z) (loads : str -> result A) (fs : node) : result (str * A) :=
  let file_root := split_root self (snapshot_id self) (split self) in
  match _num_datums self with
  | None => Raise (no_attribute "_num_datums")
  | Some num_datums =>
      if (index <? 0)%Z || (index >=? num_datums)%Z
      then Raise (Exn ValueError
                      (lit "index must be a non-negative integer less than "
                           ++ PyStr.str_of_int num_datums ++ lit ". given "
                           ++ PyStr.str_of_int index) None)
      else
        match _cached_datum_index_to_id self with
        | None => Raise (no_attribute "_cached_datum_index_to_id")
        | Some cached => fetch loads fs file_root (get cached index)
        end
  end.

(** A directory called [b.json] before the file [a.json] and its datum
    [a]. *)
Definition fs_mixed : node :=
  Dir 0 [(lit "datasets",
          Dir 0 [(lit "snap",
                  Dir 0 [(lit "train",
                          Dir 0 [(lit "b.json", Dir 0 []);
                                 (lit "a.json", File 1 (lit "{}"));
                                 (lit "a", File 1 (lit "bytes"))])])])].

(** The split directory cannot be made: [snap] is a file. *)
Definition fs_blocked : node :=
  Dir 0 [(lit "datasets", Dir 0 [(lit "snap", File 0 [])])].

Definition fetcher0 : LocalFileDatasetFetcher :=
  {| file_root := [lit "datasets"];
     snapshot_id := [];
     split := None;
     _cached_datum_index_to_id := None;
     _num_datums := None |}.

End Dataset.

(** * Facts about the string operations *)

Module PyStrFacts.
Import PyStr.

Lemma eqb_eq (a b : str) : eqb a b = true <-> a = b.
Proof.
  unfold eqb. destruct (list_eq_dec ascii_dec a b); split; congruence.
Qed.

Lemma eqb_refl (a : str) : eqb a a = true.
Proof. apply eqb_eq. reflexivity. Qed.

Lemma eqb_neq (a b : str) : eqb a b = false <-> a <> b.
Proof.
  unfold eqb. destruct (list_eq_dec ascii_dec a b); split; congruence.
Qed.

Lemma digit_char_val (d : Z) :
  (0 <= d < 10)%Z -> digit_val (digit_char d) = Some d.
Proof.
  intros H.
  assert (C : (d = 0 \/ d = 1 \/ d = 2 \/ d = 3 \/ d = 4 \/ d = 5 \/ d = 6
               \/ d = 7 \/ d = 8 \/ d = 9)%Z) by lia.
  repeat (destruct C as [C | C]; [subst d; reflexivity | ]).
  subst d; reflexivity.
Qed.

Lemma is_digit_plain (c : ascii) :
  is_digit c = true ->
  is_space c = false /\ Ascii.eqb c "-"%char = false
  /\ Ascii.eqb c "+"%char = false /\ Ascii.eqb c "_"%char = false
  /\ Ascii.eqb c "/"%char = false.
Proof.
  destruct c as [[] [] [] [] [] [] [] []]; vm_compute; intros H;
    try discriminate H; repeat split.
Qed.

Lemma parse_digits_app (l s : str) :
  forall acc b,
    forallb is_digit l = true ->
    parse_digits acc b (l ++ s)
    = parse_digits (horner acc l) (match l with [] => b | _ :: _ => true end) s.
Proof.
  induction l as [| c l IH]; intros acc b H; [reflexivity | ].
  simpl in H. apply andb_prop in H. destruct H as [Hc Hl].
  destruct (is_digit_plain c Hc) as (_ & _ & _ & Hu & _).
  change ((c :: l) ++ s) with (c :: (l ++ s)).
  cbn [parse_digits]. rewrite Hu. unfold is_digit in Hc.
  destruct (digit_val c) as [d |] eqn:E; [ | discriminate Hc].
  rewrite IH by exact Hl. unfold horner. cbn [fold_left]. rewrite E.
  destruct l; reflexivity.
Qed.

Lemma horner_snoc (l : str) (acc d : Z) :
  (0 <= d < 10)%Z ->
  horner acc (l ++ [digit_char d]) = (10 * horner acc l + d)%Z.
Proof.
  intros H. unfold horner. rewrite fold_left_app. cbn [fold_left].
  rewrite digit_char_val by exact H. reflexivity.
Qed.

Lemma digits_fuel_S (f : nat) (n : Z) :
  digits_fuel (S f) n
  = if (n <? 10)%Z then [digit_char n]
    else digits_fuel f (n / 10) ++ [digit_char (n mod 10)].
Proof. reflexivity. Qed.

Lemma digits_fuel_small (f : nat) (n : Z) :
  (0 <= n < 10)%Z ->
  digits_fuel (S f) n <> []
  /\ forallb is_digit (digits_fuel (S f) n) = true
  /\ horner 0 (digits_fuel (S f) n) = n.
Proof.
  intros H.
  assert (E : (n <? 10)%Z = true) by (apply Z.ltb_lt; lia).
  rewrite digits_fuel_S, E.
  assert (V := digit_char_val (d := n) ltac:(lia)).
  repeat split.
  - discriminate.
  - cbn [forallb]. unfold is_digit. rewrite V. reflexivity.
  - unfold horner. cbn [fold_left]. rewrite V. lia.
Qed.

(** With enough fuel the digits of [n] are digits, there is at least one,
    and they denote [n]. *)
Lemma digits_fuel_spec (f : nat) :
  forall n, (0 <= n < 2 ^ Z.of_nat (S f))%Z ->
            digits_fuel (S f) n <> []
            /\ forallb is_digit (digits_fuel (S f) n) = true
            /\ horner 0 (digits_fuel (S f) n) = n.
Proof.
  induction f as [| f IH]; intros n H.
  - apply digits_fuel_small. change (2 ^ Z.of_nat 1)%Z with 2%Z in H. lia.
  - destruct (n <? 10)%Z eqn:E.
    + apply Z.ltb_lt in E. apply digits_fuel_small. lia.
    + assert (E' := proj1 (Z.ltb_ge _ _) E).
      assert (Hq : (0 <= n / 10 < 2 ^ Z.of_nat (S f))%Z).
      { rewrite (Nat2Z.inj_succ (S f)), Z.pow_succ_r in H by lia.
        split; [apply Z.div_pos; lia | ].
        apply Z.div_lt_upper_bound; lia. }
      destruct (IH _ Hq) as (Hne & Hd & Hv).
      assert (Hm : (0 <= n mod 10 < 10)%Z) by (apply Z.mod_pos_bound; lia).
      assert (V := digit_char_val Hm).
      assert (U : digits_fuel (S (S f)) n
                  = digits_fuel (S f) (n / 10) ++ [digit_char (n mod 10)]).
      { rewrite (digits_fuel_S (S f) n), E. reflexivity. }
      rewrite U. repeat split.
      * intros C. apply app_eq_nil in C. destruct C as [_ C]. discriminate C.
      * rewrite forallb_app, Hd. cbn [forallb]. unfold is_digit. rewrite V.
        reflexivity.
      * rewrite horner_snoc by exact Hm. rewrite Hv.
        symmetry. apply Z.div_mod. lia.
Qed.

Lemma digits_spec (n : Z) :
  (0 <= n)%Z ->
  digits n <> [] /\ forallb is_digit (digits n) = true /\ horner 0 (digits n) = n.
Proof.
  intros H. unfold digits. apply digits_fuel_spec. split; [exact H | ].
  destruct (Z.eq_dec n 0) as [-> | Hn]; [reflexivity | ].
  rewrite Nat2Z.inj_succ, Z2Nat.id by apply Z.log2_nonneg.
  apply Z.log2_spec. lia.
Qed.

Lemma lstrip_plain (l : str) :
  forallb (fun c => negb (is_space c)) l = true -> lstrip l = l.
Proof.
  destruct l as [| c l]; [reflexivity | ].
  simpl. intros H. apply andb_prop in H. destruct H as [H _].
  destruct (is_space c); [discriminate H | reflexivity].
Qed.

Lemma strip_plain (l : str) :
  forallb (fun c => negb (is_space c)) l = true -> strip l = l.
Proof.
  intros H. unfold strip. rewrite (lstrip_plain l H).
  rewrite lstrip_plain; [apply rev_involutive | ].
  rewrite forallb_forall in *. intros c Hc. apply H. apply in_rev. exact Hc.
Qed.

Lemma forallb_impl (A : Type) (p q : A -> bool) (l : list A) :
  (forall x, p x = true -> q x = true) ->
  forallb p l = true -> forallb q l = true.
Proof.
  intros I H. rewrite forallb_forall in *. intros x Hx. apply I, H, Hx.
Qed.

(** [int] reads back a non-empty string of digits. *)
Lemma int_of_digit_string (l : str) :
  l <> [] -> forallb is_digit l = true -> int l = Some (horner 0 l).
Proof.
  intros Hne Hd. unfold int.
  rewrite strip_plain.
  2:{ revert Hd. apply forallb_impl. intros c Hc.
      destruct (is_digit_plain c Hc) as (-> & _). reflexivity. }
  destruct l as [| c r]; [congruence | ].
  assert (Hc : is_digit c = true) by (simpl in Hd; apply andb_prop in Hd; tauto).
  destruct (is_digit_plain c Hc) as (_ & -> & -> & _).
  transitivity (parse_digits 0 false ((c :: r) ++ []));
    [rewrite app_nil_r; reflexivity | ].
  rewrite parse_digits_app by exact Hd. reflexivity.
Qed.

(** [int(str(n)) == n] for a natural number [n]. *)
Lemma int_str_of_int (n : Z) : (0 <= n)%Z -> int (str_of_int n) = Some n.
Proof.
  intros H. unfold str_of_int.
  destruct (n <? 0)%Z eqn:E; [apply Z.ltb_lt in E; lia | ].
  destruct (digits_spec H) as (Hne & Hd & Hv).
  rewrite int_of_digit_string by assumption. rewrite Hv. reflexivity.
Qed.

Lemma str_of_int_digits (n : Z) :
  (0 <= n)%Z -> forallb is_digit (str_of_int n) = true /\ str_of_int n <> [].
Proof.
  intros H. unfold str_of_int.
  destruct (n <? 0)%Z eqn:E; [apply Z.ltb_lt in E; lia | ].
  destruct (digits_spec H) as (Hne & Hd & _). split; assumption.
Qed.

(** *** [split] and [join] *)

Lemma split_nonempty (sep : ascii) (s : str) : split sep s <> [].
Proof.
  destruct s as [| c s]; simpl; [discriminate | ].
  destruct (Ascii.eqb c sep); [discriminate | ].
  destruct (split sep s); discriminate.
Qed.

Lemma join_cons (sep x : str) (l : list str) :
  l <> [] -> join sep (x :: l) = x ++ sep ++ join sep l.
Proof. destruct l; [congruence | reflexivity]. Qed.

(** Joining the pieces of a split gives the string back. *)
Lemma join_split (sep : ascii) (s : str) : join [sep] (split sep s) = s.
Proof.
  induction s as [| c s IH]; [reflexivity | ].
  simpl split. destruct (Ascii.eqb c sep) eqn:E.
  - apply Ascii.eqb_eq in E. subst c.
    rewrite join_cons by apply split_nonempty. rewrite IH. reflexivity.
  - destruct (split sep s) as [| w ws] eqn:S; [exfalso; eapply split_nonempty; eauto | ].
    destruct ws as [| w' ws].
    + simpl in *. congruence.
    + rewrite join_cons in * by discriminate.
      simpl. rewrite <- IH. reflexivity.
Qed.

(** A prefix without the separator is the first piece. *)
Lemma split_app_sep (sep : ascii) (a b : str) :
  contains_char sep a = false ->
  split sep (a ++ sep :: b) = a :: split sep b.
Proof.
  induction a as [| c a IH]; intros H.
  - simpl. rewrite Ascii.eqb_refl. reflexivity.
  - simpl in H. apply orb_false_iff in H. destruct H as [Hc Ha].
    simpl. rewrite Ascii.eqb_sym in Hc. rewrite Hc.
    rewrite IH by exact Ha. reflexivity.
Qed.

Lemma split_no_sep (sep : ascii) (a : str) :
  contains_char sep a = false -> split sep a = [a].
Proof.
  induction a as [| c a IH]; intros H; [reflexivity | ].
  simpl in H. apply orb_false_iff in H. destruct H as [Hc Ha].
  simpl. rewrite Ascii.eqb_sym in Hc. rewrite Hc.
  rewrite IH by exact Ha. reflexivity.
Qed.


(** Every character of a string is the separator or sits in a piece. *)
Lemma in_split (sep : ascii) (s : str) (c : ascii) :
  In c s -> c = sep \/ exists g, In g (split sep s) /\ In c g.
Proof.
  induction s as [| d s IH]; intros H; [destruct H | ].
  simpl split. destruct (Ascii.eqb d sep) eqn:E.
  - apply Ascii.eqb_eq in E. subst d. destruct H as [-> | H]; [now left | ].
    destruct (IH H) as [-> | (g & Hg & Hc)]; [now left | ].
    right. exists g. split; [right; exact Hg | exact Hc].
  - destruct (split sep s) as [| w ws] eqn:S; [exfalso; eapply split_nonempty; eauto | ].
    destruct H as [-> | H].
    + right. exists (c :: w). split; left; reflexivity.
    + destruct (IH H) as [-> | (g & [<- | Hg] & Hc)]; [now left | | ].
      * right. exists (d :: w). split; [left; reflexivity | right; exact Hc].
      * right. exists g. split; [right; exact Hg | exact Hc].
Qed.

(** *** [rsplit] *)

Lemma contains_char_false (c : ascii) (s : str) :
  contains_char c s = false <-> ~ In c s.
Proof.
  unfold contains_char. split.
  - intros H Hin. assert (existsb (Ascii.eqb c) s = true).
    { apply existsb_exists. exists c. split; [exact Hin | apply Ascii.eqb_refl]. }
    congruence.
  - intros H. destruct (existsb (Ascii.eqb c) s) eqn:E; [ | reflexivity].
    apply existsb_exists in E. destruct E as (x & Hx & Ex).
    apply Ascii.eqb_eq in Ex. subst x. contradiction.
Qed.

Lemma rpartition_uu_none (t : str) :
  contains_char "_"%char t = false ->
  rpartition uu t = None /\ rpartition uu ("_"%char :: t) = None.
Proof.
  induction t as [| c t IH]; intros H.
  - split; reflexivity.
  - simpl in H. apply orb_false_iff in H. destruct H as [Hc Ht].
    destruct (IH Ht) as [IH1 IH2].
    assert (R : rpartition uu (c :: t) = None).
    { simpl. simpl in IH1. rewrite IH1. rewrite Hc. reflexivity. }
    split; [exact R | ].
    change (rpartition uu ("_"%char :: c :: t))
      with (match rpartition uu (c :: t) with
            | Some (a, b) => Some ("_"%char :: a, b)
            | None => option_map (fun rest => ([], rest))
                                 (strip_prefix uu ("_"%char :: c :: t))
            end).
    rewrite R. simpl. rewrite Hc. reflexivity.
Qed.

(** The last double underscore of [base ++ "__" ++ token] is the one
    that was added, when the token has no underscore. *)
Lemma rsplit1_uu (base token : str) :
  contains_char "_"%char token = false ->
  rsplit1 uu (base ++ uu ++ token) = [base; token].
Proof.
  intros H. unfold rsplit1.
  assert (R : rpartition uu (base ++ uu ++ token) = Some (base, token)).
  { induction base as [| c base IH].
    - destruct (rpartition_uu_none token H) as [_ N].
      change ([] ++ uu ++ token) with ("_"%char :: "_"%char :: token).
      change (rpartition uu ("_"%char :: "_"%char :: token))
        with (match rpartition uu ("_"%char :: token) with
              | Some (a, b) => Some ("_"%char :: a, b)
              | None => option_map (fun rest => ([], rest))
                                   (strip_prefix uu ("_"%char :: "_"%char :: token))
              end).
      rewrite N. reflexivity.
    - change (rpartition uu ((c :: base) ++ uu ++ token))
        with (match rpartition uu (base ++ uu ++ token) with
              | Some (a, b) => Some (c :: a, b)
              | None => option_map (fun rest => ([], rest))
                                   (strip_prefix uu (c :: base ++ uu ++ token))
              end).
      rewrite IH. reflexivity. }
  rewrite R. reflexivity.
Qed.

End PyStrFacts.

Unset Implicit Arguments.

(** * The checkpoint store *)

Module CheckpointFacts.
Import PyStr PyStrFacts CheckpointManager Examples.

Lemma is_hex_digit_plain (c : ascii) :
  is_hex_digit c = true ->
  Ascii.eqb "_"%char c = false /\ Ascii.eqb "/"%char c = false
  /\ Ascii.eqb "."%char c = false.
Proof.
  destruct c as [[] [] [] [] [] [] [] []]; vm_compute; intros H;
    try discriminate H; repeat split.
Qed.

(** The characters of a token of the form of a UUID. *)
Lemma uuid_chars (token : str) :
  is_uuid_str token = true ->
  token <> [] /\ forall c, In c token -> c = "-"%char \/ is_hex_digit c = true.
Proof.
  intros H. split.
  - intros ->. discriminate H.
  - intros c Hin.
    destruct (in_split "-"%char token _ Hin) as [C | (g & Hg & Hc)];
      [left; exact C | right].
    unfold is_uuid_str in H. apply andb_prop in H. destruct H as [Hlen Hall].
    apply Nat.eqb_eq in Hlen.
    destruct (split "-"%char token) as [| g1 [| g2 [| g3 [| g4 [| g5 [| g6 gs]]]]]];
      try discriminate Hlen.
    cbn [combine forallb] in Hall.
    repeat match goal with
           | A : (_ && _)%bool = true |- _ => apply andb_prop in A; destruct A
           end.
    assert (Hex : forallb is_hex_digit g = true).
    { repeat (destruct Hg as [<- | Hg]; [assumption | ]). destruct Hg. }
    rewrite forallb_forall in Hex. apply Hex. exact Hc.
Qed.

Lemma uuid_lacks (token : str) (c : ascii) :
  is_uuid_str token = true ->
  In c ["_"; "/"; "."]%char ->
  contains_char c token = false.
Proof.
  intros H Hc. apply contains_char_false. intros Hin.
  destruct (uuid_chars token H) as [_ U].
  destruct (U c Hin) as [-> | Hx].
  - cbn [In] in Hc. repeat (destruct Hc as [Hc | Hc]; [discriminate Hc | ]).
    exact Hc.
  - destruct (is_hex_digit_plain c Hx) as (A & B & C).
    cbn [In] in Hc.
    repeat (destruct Hc as [Hc | Hc];
            [subst c; rewrite Ascii.eqb_refl in *; discriminate | ]).
    exact Hc.
Qed.

(** A token of the form of a UUID has no underscore. *)
Lemma uuid_no_underscore (token : str) :
  is_uuid_str token = true -> contains_char "_"%char token = false.
Proof. intros H. apply uuid_lacks; [exact H | left; reflexivity]. Qed.

Lemma digits_no_hyphen (l : str) :
  forallb is_digit l = true -> contains_char "-"%char l = false.
Proof.
  intros H. apply contains_char_false. intros Hin.
  rewrite forallb_forall in H. apply H in Hin.
  destruct (is_digit_plain _ Hin) as (_ & E & _). discriminate E.
Qed.

(** Decoding an id whose token has no underscore. *)
Lemma decode_format (global_step : Z) (run_id token : str) :
  (0 <= global_step)%Z ->
  contains_char "_"%char token = false ->
  decode_checkpoint_id (format_checkpoint_id global_step run_id token)
  = Ok (global_step, run_id).
Proof.
  intros Hs Ht. unfold decode_checkpoint_id, format_checkpoint_id.
  destruct (str_of_int_digits Hs) as [Hd Hne].
  replace (str_of_int global_step ++ lit "-" ++ run_id ++ lit "__" ++ token)
    with ((str_of_int global_step ++ "-"%char :: run_id) ++ uu ++ token)
    by (rewrite <- app_assoc; reflexivity).
  rewrite rsplit1_uu by exact Ht.
  rewrite split_app_sep by (apply digits_no_hyphen; exact Hd).
  cbn [hd tl]. rewrite int_str_of_int by exact Hs.
  change (lit "-") with ["-"%char]. rewrite join_split. reflexivity.
Qed.

(** C1.  For a step that is not negative, any run id (with hyphens or
    not) and a token of the form of a UUID, decoding the id
    [{global_step}-{run_id}__{token}] gives the step and the run id
    back. *)
Theorem checkpoint_id_roundtrip (global_step : Z) (run_id token : str) :
  (0 <= global_step)%Z ->
  is_uuid_str token = true ->
  decode_checkpoint_id (format_checkpoint_id global_step run_id token)
  = Ok (global_step, run_id).
Proof.
  intros Hs Ht. apply decode_format; [exact Hs | ].
  apply uuid_no_underscore. exact Ht.
Qed.

Lemma checkpoint_id_roundtrip_witness :
  decode_checkpoint_id (format_checkpoint_id 42 (lit "my-run-7") token0)
  = Ok (42%Z, lit "my-run-7").
Proof.
  apply (checkpoint_id_roundtrip 42%Z (lit "my-run-7") token0);
    [lia | vm_compute; reflexivity].
Defined.

End CheckpointFacts.

(** * The file system *)

Module FsFacts.
Import Fs.



Lemma assoc_update_same (c : str) (f : node -> node) (es : list (str * node)) :
  assoc c (update c f es) = option_map f (assoc c es).
Proof.
  induction es as [| [k v] es IH]; [reflexivity | ].
  cbn [update assoc]. destruct (PyStr.eqb k c) eqn:E.
  - cbn [assoc]. rewrite E. reflexivity.
  - cbn [assoc]. rewrite E. exact IH.
Qed.

Lemma assoc_update_other (c d : str) (f : node -> node) (es : list (str * node)) :
  d <> c -> assoc d (update c f es) = assoc d es.
Proof.
  intros N. induction es as [| [k v] es IH]; [reflexivity | ].
  cbn [update assoc]. destruct (PyStr.eqb k c) eqn:E.
  - apply PyStrFacts.eqb_eq in E. subst k. cbn [assoc].
    destruct (PyStr.eqb c d) eqn:F; [ | reflexivity].
    apply PyStrFacts.eqb_eq in F. congruence.
  - cbn [assoc]. rewrite IH. reflexivity.
Qed.



Lemma lookup_cons (t : Z) (es : list (str * node)) (c : str) (p : Path) :
  lookup (Dir t es) (c :: p)
  = match assoc c es with Some m => lookup m p | None => None end.
Proof. reflexivity. Qed.



Lemma canon_app (root : node) (p q : Path) :
  forall cur, canon root cur (p ++ q)
              = match canon root cur p with
                | Some c => canon root c q
                | None => None
                end.
Proof.
  induction p as [| c p IH]; intros cur; [reflexivity | ].
  cbn [app canon]. destruct (is_dir_at root cur); [ | reflexivity].
  destruct (PyStr.eqb c dotdot); apply IH.
Qed.





End FsFacts.

(** * Rollback of a failed checkpoint write *)

Module RollbackFacts.
Import PyStr PyStrFacts CheckpointManager CheckpointFacts FsFacts Examples.






End RollbackFacts.

(** * Lookup of a checkpoint by id *)

Module GlobFacts.
Import PyStr PyStrFacts Pathlib CheckpointManager FsFacts.

Lemma fnmatch_star (name : str) : Fnmatch.fnmatch name (lit "*") = true.
Proof.
  unfold Fnmatch.fnmatch.
  change (Fnmatch.translate (lit "*")) with [Fnmatch.PStar].
  induction name as [| c name IH]; [reflexivity | exact IH].
Qed.

Lemma contains_from_char (c : ascii) (r s : str) :
  contains_char c s = false -> contains (c :: r) s = false.
Proof.
  induction s as [| d s IH]; intros H; [reflexivity | ].
  cbn [contains_char existsb] in H. apply orb_false_iff in H.
  destruct H as [Hd Hs].
  cbn [contains strip_prefix]. rewrite Hd. apply IH. exact Hs.
Qed.

Lemma eqb_from_char (c : ascii) (r s : str) :
  contains_char c s = false -> PyStr.eqb s (c :: r) = false.
Proof.
  intros H. apply eqb_neq. intros ->.
  cbn [contains_char existsb] in H. rewrite Ascii.eqb_refl in H. discriminate H.
Qed.

Lemma make_selector_wildcard (pat : str) (child : list str) :
  PyStr.eqb pat [] = false ->
  contains (lit "**") pat = false ->
  _is_wildcard_pattern pat = true ->
  _make_selector (pat :: child)
  = (successor <- _make_selector child ;;
     Ok (_WildcardSelector pat (match child with [] => false | _ :: _ => true end)
                           successor)).
Proof.
  intros E C W. cbn [_make_selector]. rewrite E, C, W.
  destruct (PyStr.eqb pat (lit "**")) eqn:S; [ | reflexivity].
  apply eqb_eq in S. subst pat. discriminate C.
Qed.

Lemma make_selector_precise (pat : str) (child : list str) :
  PyStr.eqb pat [] = false ->
  _is_wildcard_pattern pat = false ->
  _make_selector (pat :: child)
  = (successor <- _make_selector child ;;
     Ok (_PreciseSelector pat (match child with [] => false | _ :: _ => true end)
                          successor)).
Proof.
  intros E W. cbn [_make_selector]. rewrite E, W.
  unfold _is_wildcard_pattern in W.
  apply orb_false_iff in W. destruct W as [W _].
  apply orb_false_iff in W. destruct W as [W _].
  assert (S1 : PyStr.eqb pat (lit "**") = false)
    by exact (eqb_from_char "*"%char ["*"%char] pat W).
  assert (S2 : contains (lit "**") pat = false)
    by exact (contains_from_char "*"%char ["*"%char] pat W).
  rewrite S1, S2. reflexivity.
Qed.

Lemma endswith_char (s : str) (c : ascii) :
  endswith s [c] = match rev s with
                   | d :: _ => Ascii.eqb c d
                   | [] => false
                   end.
Proof.
  unfold endswith, startswith. cbn [rev app strip_prefix].
  destruct (rev s) as [| d r]; [reflexivity | ].
  destruct (Ascii.eqb c d); reflexivity.
Qed.

Lemma endswith_app (a s : str) (c : ascii) :
  s <> [] -> contains_char c s = false -> endswith (a ++ s) [c] = false.
Proof.
  intros Hne Hc. rewrite endswith_char.
  destruct (exists_last Hne) as (s' & d & ->).
  rewrite app_assoc, rev_app_distr. cbn [rev app].
  destruct (Ascii.eqb c d) eqn:E; [ | reflexivity].
  apply Ascii.eqb_eq in E. subst d.
  apply contains_char_false in Hc. exfalso. apply Hc.
  rewrite in_app_iff. right. left. reflexivity.
Qed.

Lemma glob_literal_id (fs : node) (runs_path : Path) (id : str) :
  contains_char "/"%char id = false ->
  _is_wildcard_pattern id = false ->
  glob fs runs_path (_checkpoint_glob id)
  = Ok (select_from (id_selector id) fs runs_path).
Proof.
  intros Hs Hw. unfold glob, _checkpoint_glob.
  change (lit "*/checkpoints/" ++ id)
    with ("*"%char :: "/"%char :: lit "checkpoints/" ++ id).
  cbv beta iota.
  change (startswith ("*"%char :: "/"%char :: lit "checkpoints/" ++ id) [slash])
    with false.
  cbv beta iota.
  assert (P : parse_parts ("*"%char :: "/"%char :: lit "checkpoints/" ++ id)
              = lit "*" :: lit "checkpoints"
                  :: (if PyStr.eqb id [] || PyStr.eqb id (lit ".")
                      then [] else [id])).
  { unfold parse_parts.
    change ("*"%char :: "/"%char :: lit "checkpoints/" ++ id)
      with (lit "*" ++ slash :: (lit "checkpoints" ++ slash :: id)).
    rewrite split_app_sep by reflexivity.
    rewrite split_app_sep by reflexivity.
    rewrite split_no_sep by exact Hs.
    cbn [filter].
    change (negb (PyStr.eqb (lit "*") [] || PyStr.eqb (lit "*") (lit ".")))
      with true.
    change (negb (PyStr.eqb (lit "checkpoints") []
                  || PyStr.eqb (lit "checkpoints") (lit "."))) with true.
    cbv iota.
    destruct (PyStr.eqb id [] || PyStr.eqb id (lit ".")); reflexivity. }
  rewrite P. clear P.
  assert (W1 : _make_selector [lit "checkpoints"]
               = Ok (_PreciseSelector (lit "checkpoints") false
                                      _TerminatingSelector)) by reflexivity.
  unfold id_selector.
  destruct (PyStr.eqb id []) eqn:E1.
  - apply eqb_eq in E1. subst id. reflexivity.
  - cbn [orb].
    assert (Hne : id <> []) by (apply eqb_neq; exact E1).
    change ("*"%char :: "/"%char :: lit "checkpoints/" ++ id)
      with (lit "*/checkpoints/" ++ id).
    rewrite endswith_app by assumption.
    destruct (PyStr.eqb id (lit ".")) eqn:E2.
    + reflexivity.
    + cbn [app].
      rewrite make_selector_wildcard by reflexivity.
      rewrite make_selector_precise by reflexivity.
      rewrite make_selector_precise by assumption.
      reflexivity.
Qed.

(** What exists below a path shows that the path is a directory. *)
Lemma exists_snoc_is_dir (fs : node) (q : Path) (c : str) :
  Fs.exists_ fs (q ++ [c]) = true -> Fs.is_dir fs q = true.
Proof.
  unfold Fs.exists_, Fs.is_dir, Fs.resolve. rewrite canon_app.
  destruct (Fs.canon fs [] q) as [cur |]; [ | discriminate].
  cbn [Fs.canon]. unfold Fs.is_dir_at.
  destruct (Fs.lookup fs cur) as [[t s | t es] |]; try discriminate.
  reflexivity.
Qed.

Lemma is_dir_exists (fs : node) (q : Path) :
  Fs.is_dir fs q = true -> Fs.exists_ fs q = true.
Proof.
  unfold Fs.exists_, Fs.is_dir.
  destruct (Fs.resolve fs q) as [[t s | t es] |]; try discriminate; reflexivity.
Qed.

Lemma scandir_not_dir (fs : node) (q : Path) :
  Fs.is_dir fs q = false -> Fs.scandir fs q = [].
Proof.
  unfold Fs.scandir, Fs.is_dir.
  destruct (Fs.resolve fs q) as [[t s | t es] |]; try discriminate; reflexivity.
Qed.

(** For the name of an entry the glob finds the entries of that name in
    the checkpoint roots of all runs. *)
Lemma glob_plain_name (fs : node) (runs_path : Path) (id : str) :
  plain_name id = true ->
  glob fs runs_path (_checkpoint_glob id)
  = Ok (named_checkpoints fs runs_path id).
Proof.
  unfold plain_name. intros H.
  repeat (apply andb_prop in H; destruct H as [H ?]).
  repeat match goal with
         | A : negb _ = true |- _ => apply negb_true_iff in A
         end.
  rewrite glob_literal_id by assumption.
  unfold id_selector.
  repeat match goal with A : PyStr.eqb id _ = false |- _ => rewrite A end.
  f_equal. unfold select_from, named_checkpoints.
  destruct (Fs.is_dir fs runs_path) eqn:D.
  2:{ rewrite scandir_not_dir by exact D. reflexivity. }
  cbn [_select_from]. apply flat_map_ext. intros [run n].
  cbn [fst snd negb orb]. rewrite fnmatch_star, andb_true_r.
  replace (runs_path ++ [run; lit "checkpoints"; id])
    with (((runs_path ++ [run]) ++ [lit "checkpoints"]) ++ [id])
    by (rewrite <- !app_assoc; reflexivity).
  destruct (Fs.is_dir_node n); [ | reflexivity].
  cbn [andb].
  destruct (Fs.exists_ fs (((runs_path ++ [run]) ++ [lit "checkpoints"]) ++ [id]))
           eqn:X.
  - rewrite (exists_snoc_is_dir _ _ _ X). reflexivity.
  - destruct (Fs.is_dir fs ((runs_path ++ [run]) ++ [lit "checkpoints"]));
      reflexivity.
Qed.

Lemma name_snoc (q : Path) (c : str) : Pathlib.name (q ++ [c]) = c.
Proof. unfold Pathlib.name. apply last_last. Qed.

(** The last part of whatever the glob of a literal id finds. *)
Lemma select_literal_name (fs : node) (runs_path : Path) (id : str) (p : Path) :
  In p (select_from (id_selector id) fs runs_path) ->
  Pathlib.name p
  = if PyStr.eqb id [] || PyStr.eqb id (lit ".") then lit "checkpoints" else id.
Proof.
  unfold select_from, id_selector.
  destruct (Fs.is_dir fs runs_path); [ | intros []].
  destruct (PyStr.eqb id []); [ | destruct (PyStr.eqb id (lit "."))];
    cbn [_select_from orb]; intros H;
    apply in_flat_map in H; destruct H as ([run n] & _ & H);
    repeat match type of H with
           | In _ (if ?b then _ else _) => destruct b; [ | destruct H]
           end;
    cbn [In] in H; destruct H as [<- | []]; apply name_snoc.
Qed.

End GlobFacts.

Module LoadByIdFacts.
Import PyStr PyStrFacts Pathlib CheckpointManager GlobFacts Examples.

(** What [load_checkpoint(id)] does with what the glob finds, for a
    manager of any run on the base directory: without a path it raises
    [CheckpointNotFoundError(id)], and with more than one a
    [RuntimeError], which is another class.  For an id that is the name of
    an entry the glob finds the entries called [id] in the checkpoint
    roots of all the runs. *)
Lemma load_checkpoint_search
        (self : LocalFileCheckpointManager) (wanted : str) (fs : node) :
  (forall other : LocalFileCheckpointManager,
      mgr_base_dir other = mgr_base_dir self ->
      load_checkpoint other (Some wanted) fs = load_checkpoint self (Some wanted) fs)
  /\ (forall paths,
         glob fs (_runs_path self) (_checkpoint_glob wanted) = Ok paths ->
         (paths = [] ->
          load_checkpoint self (Some wanted) fs
          = Raise (CheckpointNotFoundError_init (Some wanted)))
         /\ (2 <= List.length paths ->
             exists e, load_checkpoint self (Some wanted) fs = Raise e
                       /\ exn_cls e = RuntimeError
                       /\ exn_cls e <> CheckpointNotFoundError))
  /\ (plain_name wanted = true ->
      glob fs (_runs_path self) (_checkpoint_glob wanted)
      = Ok (named_checkpoints fs (_runs_path self) wanted)
      /\ exn_msg (CheckpointNotFoundError_init (Some wanted))
         = lit "could not find a checkpoint with id " ++ wanted).
Proof.
  split; [ | split].
  - intros other E. unfold load_checkpoint, _runs_path. rewrite E. reflexivity.
  - intros paths G. unfold load_checkpoint. rewrite G. split.
    + intros ->. reflexivity.
    + intros L. destruct paths as [| p [| p' paths]]; cbn [List.length] in L;
        try lia.
      eexists. cbn [bind]. split; [reflexivity | ]. split; [reflexivity | ].
      discriminate.
  - intros P. split; [apply glob_plain_name; exact P | ].
    unfold plain_name in P.
    destruct wanted as [| c r]; [discriminate P | reflexivity].
Qed.

(** C3 fails on the code.  The id goes into the pattern
    [*/checkpoints/{id}] as it is, and the pattern is matched, not
    compared.  With the one checkpoint [5-a__t] of the run [a], no entry
    has the trailing segment [*], and still [load_checkpoint("*")] does
    not raise the not-found error that carries the id: it yields the
    checkpoint [5-a__t]. *)
Theorem load_checkpoint_by_id_pattern :
  children fs_one_run (_checkpoints_path manager_a (lit "a"))
  = [[lit "data"; lit "runs"; lit "a"; lit "checkpoints"; lit "5-a__t"]]
  /\ named_checkpoints fs_one_run (_runs_path manager_a) (lit "*") = []
  /\ _checkpoint_glob (lit "*") = lit "*/checkpoints/*"
  /\ load_checkpoint manager_a (Some (lit "*")) fs_one_run
     = Ok {| dir := [lit "data"; lit "runs"; lit "a"; lit "checkpoints";
                     lit "5-a__t"];
             id := lit "5-a__t"; global_step := 5; run_id := lit "a" |}
  /\ load_checkpoint manager_a (Some (lit "*")) fs_one_run
     <> Raise (CheckpointNotFoundError_init (Some (lit "*"))).
Proof.
  split; [vm_compute; reflexivity | ].
  split; [vm_compute; reflexivity | ].
  split; [reflexivity | ].
  split; [vm_compute; reflexivity | vm_compute; discriminate].
Qed.

(** C10, as amended.  When the id has no glob metacharacter and no
    separator, a checkpoint that [load_checkpoint(id)] yields has that
    id.  An id with a metacharacter can yield a checkpoint with another
    id. *)
Theorem load_checkpoint_yields_id :
  (forall (self : LocalFileCheckpointManager) (wanted : str) (fs : node)
          (d : LoadCheckpointData),
      _is_wildcard_pattern wanted = false ->
      contains_char "/"%char wanted = false ->
      load_checkpoint self (Some wanted) fs = Ok d ->
      id d = wanted)
  /\ (exists (self : LocalFileCheckpointManager) (wanted : str) (fs : node)
             (d : LoadCheckpointData),
         _is_wildcard_pattern wanted = true
         /\ load_checkpoint self (Some wanted) fs = Ok d
         /\ id d <> wanted).
Proof.
  split.
  - intros self wanted fs d W S. unfold load_checkpoint.
    rewrite glob_literal_id by assumption.
    destruct (select_from (id_selector wanted) fs (_runs_path self))
      as [| p [| p' paths]] eqn:Sel; cbn [bind]; try discriminate.
    assert (N := select_literal_name fs (_runs_path self) wanted p).
    rewrite Sel in N. specialize (N (or_introl eq_refl)).
    rewrite N.
    destruct (PyStr.eqb wanted [] || PyStr.eqb wanted (lit ".")).
    + vm_compute. discriminate.
    + destruct (decode_checkpoint_id wanted); cbn [bind]; [ | discriminate].
      intros E. injection E as <-. reflexivity.
  - exists manager_a, (lit "*"), fs_one_run. eexists.
    split; [reflexivity | ]. split; [vm_compute; reflexivity | ].
    vm_compute. discriminate.
Qed.

Lemma load_checkpoint_yields_id_witness :
  load_checkpoint manager_a (Some (lit "5-a__t")) fs_one_run = Ok loaded_5a
  /\ id loaded_5a = lit "5-a__t".
Proof.
  split; [vm_compute; reflexivity | ].
  apply (proj1 load_checkpoint_yields_id manager_a (lit "5-a__t") fs_one_run
               loaded_5a);
    vm_compute; reflexivity.
Defined.

(** C10 as stated fails for the id [5-a__t/], which has no glob
    metacharacter: the checkpoint that is yielded has the id [5-a__t]. *)
Lemma load_checkpoint_yields_id_counterexample :
  _is_wildcard_pattern (lit "5-a__t/") = false
  /\ exists d, load_checkpoint manager_a (Some (lit "5-a__t/")) fs_one_run = Ok d
               /\ id d = lit "5-a__t"
               /\ id d <> lit "5-a__t/".
Proof.
  split; [reflexivity | ].
  eexists. split; [vm_compute; reflexivity | ].
  split; [reflexivity | vm_compute; discriminate].
Qed.

End LoadByIdFacts.

(** * The most recent checkpoint *)

Module LatestFacts.
Import PyStr PyStrFacts Pathlib CheckpointManager CheckpointFacts FsFacts GlobFacts Examples.

Lemma glob_star (fs : node) (parent : Path) :
  glob fs parent (lit "*") = Ok (children fs parent).
Proof.
  change (glob fs parent (lit "*"))
    with (Ok (A := list Path)
             (select_from (_WildcardSelector (lit "*") false _TerminatingSelector)
                          fs parent)).
  f_equal. unfold select_from, children.
  destruct (Fs.is_dir fs parent) eqn:D.
  2:{ rewrite scandir_not_dir by exact D. reflexivity. }
  cbn [_select_from negb orb andb].
  induction (Fs.scandir fs parent) as [| [k n] es IH]; [reflexivity | ].
  cbn [flat_map map fst]. rewrite fnmatch_star, IH. reflexivity.
Qed.

Lemma lookup_app (p q : Path) :
  forall n, Fs.lookup n (p ++ q)
            = match Fs.lookup n p with
              | Some m => Fs.lookup m q
              | None => None
              end.
Proof.
  induction p as [| c p IH]; intros n; [reflexivity | ].
  cbn [app Fs.lookup]. destruct n as [t s | t es]; [reflexivity | ].
  destruct (Fs.assoc c es); [apply IH | reflexivity].
Qed.

Lemma assoc_in (name : str) (n : node) (es : list (str * node)) :
  In (name, n) es -> exists n', Fs.assoc name es = Some n'.
Proof.
  induction es as [| [k v] es IH]; intros H; [destruct H | ].
  cbn [Fs.assoc]. destruct (PyStr.eqb k name) eqn:E; [eexists; reflexivity | ].
  destruct H as [H | H]; [ | exact (IH H)].
  injection H as -> _. rewrite eqb_refl in E. discriminate E.
Qed.

(** An entry that [scandir] lists resolves, unless it is called [..]. *)
Lemma child_resolves (fs : node) (parent : Path) (name : str) (n : node) :
  In (name, n) (Fs.scandir fs parent) ->
  PyStr.eqb name Fs.dotdot = false ->
  exists n', Fs.resolve fs (parent ++ [name]) = Some n'.
Proof.
  unfold Fs.scandir, Fs.resolve. rewrite canon_app.
  destruct (Fs.canon fs [] parent) as [cur |]; [ | intros []].
  destruct (Fs.lookup fs cur) as [[t s | t es] |] eqn:L; try (intros []).
  intros Hin Hn. cbn [Fs.canon]. unfold Fs.is_dir_at. rewrite L, Hn.
  rewrite lookup_app, L. cbn [Fs.lookup].
  destruct (assoc_in _ _ _ Hin) as [n' ->]. exists n'. reflexivity.
Qed.

(** The leading segment of a checkpoint id is its step. *)
Lemma checkpoint_id_step (global_step : Z) (run_id token : str) :
  (0 <= global_step)%Z ->
  PyStr.int (hd [] (split "-"%char (format_checkpoint_id global_step run_id token)))
  = Some global_step
  /\ PyStr.eqb (format_checkpoint_id global_step run_id token) Fs.dotdot = false.
Proof.
  intros H. unfold format_checkpoint_id.
  destruct (str_of_int_digits H) as [Hd Hne].
  change (lit "-" ++ run_id ++ lit "__" ++ token)
    with ("-"%char :: run_id ++ lit "__" ++ token).
  rewrite split_app_sep by (apply digits_no_hyphen; exact Hd).
  cbn [hd]. split; [apply int_str_of_int; exact H | ].
  apply eqb_neq. intros E.
  destruct (str_of_int global_step) as [| c r]; [congruence | ].
  cbn [forallb] in Hd. apply andb_prop in Hd. destruct Hd as [Hc _].
  injection E as -> _. discriminate Hc.
Qed.

Lemma key_gt_true (a b : Z * Z) : key_gt a b = true -> key_le b a /\ ~ key_le a b.
Proof.
  unfold key_gt, key_le. intros H.
  apply orb_prop in H. destruct H as [H | H].
  - apply Z.gtb_lt in H. lia.
  - apply andb_prop in H. destruct H as [H1 H2].
    apply Z.eqb_eq in H1. apply Z.gtb_lt in H2. lia.
Qed.

Lemma key_gt_false (a b : Z * Z) : key_gt a b = false -> key_le a b.
Proof.
  unfold key_gt, key_le. intros H.
  apply orb_false_iff in H. destruct H as [H1 H2].
  rewrite Z.gtb_ltb in H1. apply Z.ltb_ge in H1.
  apply andb_false_iff in H2. destruct H2 as [H2 | H2].
  - apply Z.eqb_neq in H2. lia.
  - rewrite Z.gtb_ltb in H2. apply Z.ltb_ge in H2. lia.
Qed.

Lemma key_le_trans (a b c : Z * Z) : key_le a b -> key_le b c -> key_le a c.
Proof. unfold key_le. lia. Qed.

Lemma key_le_refl (a : Z * Z) : key_le a a.
Proof. unfold key_le. lia. Qed.

(** [max] returns an item whose key is the greatest. *)
Lemma max_from_spec (A : Type) (l : list ((Z * Z) * A)) :
  forall best,
  exists k, In (k, max_from best l) (best :: l)
            /\ forall x, In x (best :: l) -> key_le (fst x) k.
Proof.
  induction l as [| x l IH]; intros best.
  - exists (fst best). cbn [max_from]. split.
    + left. destruct best; reflexivity.
    + intros y [<- | []]. apply key_le_refl.
  - cbn [max_from]. destruct (key_gt (fst x) (fst best)) eqn:G.
    + destruct (IH x) as (k & Hin & Hmax). exists k. split.
      * right. exact Hin.
      * intros y [<- | Hy]; [ | exact (Hmax y Hy)].
        apply key_le_trans with (fst x);
          [apply key_gt_true in G; tauto | apply Hmax; left; reflexivity].
    + destruct (IH best) as (k & Hin & Hmax). exists k. split.
      * destruct Hin as [Hin | Hin]; [left; exact Hin | right; right; exact Hin].
      * intros y [<- | [<- | Hy]].
        -- apply Hmax. left. reflexivity.
        -- apply key_le_trans with (fst best);
             [apply key_gt_false; exact G | apply Hmax; left; reflexivity].
        -- apply Hmax. right. exact Hy.
Qed.

Lemma keyed_spec (fs : node) (l : list Path) :
  (forall p, In p l -> exists k, checkpoint_key fs p = Ok k) ->
  exists ks, keyed fs l = Ok ks
             /\ map snd ks = l
             /\ forall k p, In (k, p) ks -> checkpoint_key fs p = Ok k.
Proof.
  induction l as [| c l IH]; intros H.
  - exists []. repeat split. intros k p [].
  - destruct (H c (or_introl eq_refl)) as [k Hk].
    destruct IH as (ks & E & M & K); [intros p Hp; apply H; right; exact Hp | ].
    exists ((k, c) :: ks). cbn [keyed]. rewrite Hk, E. cbn [bind].
    repeat split.
    + cbn [map snd]. rewrite M. reflexivity.
    + intros k' p [Hp | Hp]; [injection Hp as <- <-; exact Hk | exact (K _ _ Hp)].
Qed.

(** The key of a listed entry whose name is a checkpoint id. *)
Lemma listed_key (fs : node) (parent p : Path) :
  In p (children fs parent) ->
  is_checkpoint_id (Pathlib.name p) ->
  exists n step,
    Fs.resolve fs p = Some n
    /\ PyStr.int (hd [] (split "-"%char (Pathlib.name p))) = Some step
    /\ checkpoint_key fs p = Ok (Fs.st_mtime n, step).
Proof.
  unfold children. intros Hin (gs & run & tok & Hgs & _ & Hname).
  apply in_map_iff in Hin. destruct Hin as ([name n] & <- & Hin).
  cbn [fst] in *. rewrite name_snoc in *.
  destruct (checkpoint_id_step gs run tok Hgs) as [Hstep Hdd].
  rewrite <- Hname in Hstep, Hdd.
  destruct (child_resolves _ _ _ _ Hin Hdd) as [n' R].
  exists n', gs. unfold checkpoint_key. rewrite R, name_snoc, Hstep.
  repeat split.
Qed.

(** C4, as amended.  Without an id, [load_checkpoint] lists the entries of the
    checkpoint root of its run, directories or not.  When there is none it raises
    [CheckpointNotFoundError()].  When there are some, all of them named
    by a checkpoint id, it yields one of them for which the pair of its
    modification time and of the integer before the first hyphen of its
    name is the greatest: every listed entry is older, or as old with a
    step that is not greater. *)
Theorem load_checkpoint_latest (self : LocalFileCheckpointManager) (fs : node) :
  let listed := children fs (_checkpoints_path self (mgr_run_id self)) in
  (listed = [] ->
   load_checkpoint self None fs = Raise (CheckpointNotFoundError_init None))
  /\ (listed <> [] ->
      (forall p, In p listed -> is_checkpoint_id (Pathlib.name p)) ->
      exists d n,
        load_checkpoint self None fs = Ok d
        /\ In (dir d) listed
        /\ id d = Pathlib.name (dir d)
        /\ decode_checkpoint_id (id d) = Ok (global_step d, run_id d)
        /\ Fs.resolve fs (dir d) = Some n
        /\ PyStr.int (hd [] (split "-"%char (Pathlib.name (dir d))))
           = Some (global_step d)
        /\ forall p, In p listed ->
                     exists n' step',
                       Fs.resolve fs p = Some n'
                       /\ PyStr.int (hd [] (split "-"%char (Pathlib.name p)))
                          = Some step'
                       /\ (Fs.st_mtime n' < Fs.st_mtime n
                           \/ (Fs.st_mtime n' = Fs.st_mtime n
                               /\ step' <= global_step d))%Z).
Proof.
  intros listed. unfold load_checkpoint. rewrite glob_star. fold listed.
  split; [intros ->; reflexivity | ].
  intros Hne Hall.
  assert (LK := listed_key fs (_checkpoints_path self (mgr_run_id self))).
  fold listed in LK.
  destruct (keyed_spec fs listed) as (ks & E & M & K).
  { intros p Hp. destruct (LK p Hp (Hall p Hp)) as (n & s & _ & _ & Hk).
    eexists. exact Hk. }
  destruct listed as [| p0 rest] eqn:L; [congruence | ].
  cbn [bind]. rewrite E. cbn [bind].
  destruct ks as [| k0 ks']; [discriminate M | ].
  destruct (max_from_spec _ ks' k0) as (k & Hin & Hmax).
  set (chosen := max_from k0 ks') in *.
  assert (Hl : In chosen (p0 :: rest)).
  { rewrite <- M. apply in_map_iff. exists (k, chosen). split; [reflexivity | exact Hin]. }
  destruct (Hall chosen Hl) as (gs & run & tok & Hgs & Htok & Hname).
  destruct (LK chosen Hl (Hall chosen Hl)) as (n & step & R & I & Hk).
  rewrite (K _ _ Hin) in Hk. injection Hk as ->.
  assert (Hstep : step = gs).
  { rewrite Hname in I.
    destruct (checkpoint_id_step gs run tok Hgs) as [I' _]. congruence. }
  subst step.
  assert (Dec : decode_checkpoint_id (name chosen) = Ok (gs, run))
    by (rewrite Hname; apply decode_format; assumption).
  cbn [bind].
  exists {| dir := chosen; id := name chosen; global_step := gs; run_id := run |}, n.
  cbn [dir id global_step run_id].
  split; [rewrite Dec; reflexivity | ].
  split; [exact Hl | ]. split; [reflexivity | ].
  split; [exact Dec | ].
  split; [exact R | ]. split; [exact I | ].
  intros p Hp.
  destruct (LK p Hp (Hall p Hp)) as (n' & step' & R' & I' & Hk').
  exists n', step'. split; [exact R' | ]. split; [exact I' | ].
  assert (Hk'' : In p (map snd (k0 :: ks'))) by (rewrite M; exact Hp).
  apply in_map_iff in Hk''. destruct Hk'' as ([k' p'] & Ep & Hin').
  cbn [snd] in Ep. subst p'.
  rewrite (K _ _ Hin') in Hk'. injection Hk' as ->.
  exact (Hmax _ Hin').
Qed.

Lemma load_checkpoint_latest_witness :
  exists d n,
    load_checkpoint manager_three None fs_three = Ok d
    /\ Fs.resolve fs_three (dir d) = Some n
    /\ forall p,
      In p (children fs_three (_checkpoints_path manager_three (lit "a"))) ->
      exists n' step',
        Fs.resolve fs_three p = Some n'
        /\ PyStr.int (hd [] (split "-"%char (Pathlib.name p))) = Some step'
        /\ (Fs.st_mtime n' < Fs.st_mtime n
            \/ (Fs.st_mtime n' = Fs.st_mtime n /\ step' <= global_step d))%Z.
Proof.
  destruct (proj2 (load_checkpoint_latest manager_three fs_three))
    as (d & n & L & _ & _ & _ & R & _ & M).
  - vm_compute. discriminate.
  - intros p Hp. vm_compute in Hp.
    destruct Hp as [<- | [<- | [<- | []]]].
    + exists 3%Z, (lit "a"), (lit "x").
      split; [lia | split; [reflexivity | vm_compute; reflexivity]].
    + exists 9%Z, (lit "a"), (lit "y").
      split; [lia | split; [reflexivity | vm_compute; reflexivity]].
    + exists 4%Z, (lit "a"), (lit "z").
      split; [lia | split; [reflexivity | vm_compute; reflexivity]].
  - exists d, n. repeat split; assumption.
Defined.

(** C4 as stated fails.  The entries of the checkpoint root are not
    only checkpoint directories.  Beside the checkpoint [5-a__t] the
    directory [notes] makes the call raise [ValueError], which is no
    not-found condition and yields nothing; and the regular file
    [7-a__u], which is the newest entry, is what the call yields. *)
Lemma load_checkpoint_latest_counterexample :
  load_checkpoint manager_a None Fixtures.fs_stray
  = Raise (Exn ValueError (lit "invalid literal for int() with base 10") None)
  /\ Fs.is_dir Fixtures.fs_stray
               [lit "data"; lit "runs"; lit "a"; lit "checkpoints"; lit "5-a__t"]
     = true
  /\ load_checkpoint manager_a None Fixtures.fs_file_newest
     = Ok {| dir := [lit "data"; lit "runs"; lit "a"; lit "checkpoints";
                     lit "7-a__u"];
             id := lit "7-a__u"; global_step := 7; run_id := lit "a" |}
  /\ Fs.is_dir Fixtures.fs_file_newest
               [lit "data"; lit "runs"; lit "a"; lit "checkpoints"; lit "7-a__u"]
     = false.
Proof. repeat split; vm_compute; reflexivity. Qed.

Example load_checkpoint_latest_example :
  load_checkpoint manager_three None fs_three
  = Ok {| dir := [lit "data"; lit "runs"; lit "a"; lit "checkpoints"; lit "4-a__z"];
          id := lit "4-a__z"; global_step := 4; run_id := lit "a" |}.
Proof. vm_compute. reflexivity. Qed.

End LatestFacts.

(** * The run context *)

Module RunContextFacts.
Import RunCtx Examples.

Lemma enter_unfold (self : RunContext) :
  __enter__ self
  = (with_stack self (fst (enter_all (collaborators self) (_exit_stack self))),
     snd (enter_all (collaborators self) (_exit_stack self))).
Proof.
  unfold __enter__, collaborators. cbn [enter_all].
  destruct (enter_if_cm _ _ _ _). reflexivity.
Qed.

(** When no [__enter__] raises, the scoped collaborators are entered in
    order and their callbacks are pushed. *)
Lemma enter_all_ok (l : list (role * collaborator)) :
  forall s,
    (forall rc, In rc l -> _is_context_manager (snd rc) = true ->
                do_enter (snd rc) = None) ->
    let entered := filter (fun rc => _is_context_manager (snd rc)) l in
    enter_all l s
    = ({| ExitStack._exit_callbacks :=
            release_actions entered ++ ExitStack._exit_callbacks s;
          ExitStack.trace := ExitStack.trace s ++ map Enter (map fst entered) |},
       None).
Proof.
  unfold release_actions.
  induction l as [| [r c] l IH]; intros s H.
  - cbn. rewrite app_nil_r. destruct s; reflexivity.
  - cbn [enter_all filter snd]. unfold enter_if_cm.
    destruct (_is_context_manager c) eqn:E.
    + unfold ExitStack.enter_context.
      assert (Hd := H (r, c) (or_introl eq_refl) E). cbn [snd] in Hd.
      rewrite Hd.
      rewrite IH by (intros rc Hin; apply H; right; exact Hin).
      cbn [ExitStack._exit_callbacks ExitStack.trace map rev fst snd].
      rewrite <- !app_assoc. reflexivity.
    + apply IH. intros rc Hin. apply H. right. exact Hin.
Qed.

(** Every callback is called once, the last pushed first, whatever the
    callbacks do: each call is logged with what it was given and what it
    did. *)
Lemma unwind_calls (cbs : list (role * (option exn -> exit_result))) :
  forall frame exc sup pend tr,
  exists calls,
    snd (ExitStack.unwind cbs frame exc sup pend tr) = tr ++ calls
    /\ Forall2 (fun (cb : role * (option exn -> exit_result)) (call : event) =>
                  exists x, call = Exit (fst cb) x (snd cb x))
               cbs calls
    /\ first_given calls exc.
Proof.
  induction cbs as [| [r cb] cbs IH]; intros frame exc sup pend tr.
  - exists []. cbn. rewrite app_nil_r. repeat split. constructor.
  - cbn [ExitStack.unwind]. cbv zeta.
    assert (K : forall e' s' p',
               exists calls,
                 snd (ExitStack.unwind cbs frame e' s' p' (tr ++ [Exit r exc (cb exc)]))
                 = tr ++ calls
                 /\ Forall2 (fun (cb : role * (option exn -> exit_result))
                                 (call : event) =>
                               exists x, call = Exit (fst cb) x (snd cb x))
                            ((r, cb) :: cbs) calls
                 /\ first_given calls exc).
    { intros e' s' p'.
      destruct (IH frame e' s' p' (tr ++ [Exit r exc (cb exc)])) as (calls & T & F & _).
      exists (Exit r exc (cb exc) :: calls). split; [ | split].
      - rewrite T, <- app_assoc. reflexivity.
      - constructor; [exists exc; reflexivity | exact F].
      - reflexivity. }
    destruct (cb exc) as [[] | c m]; apply K.
Qed.

Lemma Forall2_map_left (A B C : Type) (f : A -> B) (P : B -> C -> Prop)
      (l : list A) :
  forall l', Forall2 P (map f l) l' -> Forall2 (fun a c => P (f a) c) l l'.
Proof.
  induction l as [| a l IH]; intros l' H; inversion H; subst; constructor;
    [assumption | apply IH; assumption].
Qed.

Lemma released_actions (l : list (role * collaborator)) (calls : list event) :
  Forall2 (fun (cb : role * (option exn -> exit_result)) (call : event) =>
             exists x, call = Exit (fst cb) x (snd cb x))
          (release_actions l) calls ->
  released l calls.
Proof.
  unfold release_actions, released. rewrite <- map_rev. intros H.
  apply Forall2_map_left in H. exact H.
Qed.

Lemma unwind_app (a b : list (role * (option exn -> exit_result))) :
  forall frame exc sup pend tr,
    ExitStack.unwind (a ++ b) frame exc sup pend tr
    = let '(exc1, sup1, pend1, tr1) := ExitStack.unwind a frame exc sup pend tr in
      ExitStack.unwind b frame exc1 sup1 pend1 tr1.
Proof.
  induction a as [| [r cb] a IH]; intros frame exc sup pend tr; [reflexivity | ].
  cbn [app ExitStack.unwind].
  destruct (cb exc) as [[] | c m]; apply IH.
Qed.

Lemma unwind_all_false (cbs : list (role * (option exn -> exit_result))) :
  (forall rc, In rc cbs -> forall x, snd rc x = ExitReturn false) ->
  forall frame exc sup pend tr,
    ExitStack.unwind cbs frame exc sup pend tr
    = (exc, sup, pend,
       tr ++ map (fun rc => Exit (fst rc) exc (ExitReturn false)) cbs).
Proof.
  induction cbs as [| [r cb] cbs IH]; intros H frame exc sup pend tr.
  - cbn. rewrite app_nil_r. reflexivity.
  - cbn [ExitStack.unwind map fst].
    assert (Hb := H (r, cb) (or_introl eq_refl) exc). cbn [snd] in Hb.
    rewrite Hb.
    rewrite IH by (intros rc Hin; apply H; right; exact Hin).
    rewrite <- app_assoc. reflexivity.
Qed.

(** Callbacks that only return leave [pending_raise] as it is. *)
Lemma unwind_no_raise (cbs : list (role * (option exn -> exit_result))) :
  (forall rc, In rc cbs -> forall x, exists b, snd rc x = ExitReturn b) ->
  forall frame exc sup pend tr,
    snd (fst (ExitStack.unwind cbs frame exc sup pend tr)) = false
    \/ snd (fst (ExitStack.unwind cbs frame exc sup pend tr)) = pend.
Proof.
  induction cbs as [| [r cb] cbs IH]; intros H frame exc sup pend tr.
  - right. reflexivity.
  - cbn [ExitStack.unwind].
    destruct (H (r, cb) (or_introl eq_refl) exc) as [b Hb]. cbn [snd] in Hb.
    rewrite Hb.
    assert (H' : forall rc, In rc cbs -> forall x, exists b, snd rc x = ExitReturn b)
      by (intros rc Hin; apply H; right; exact Hin).
    destruct b.
    + destruct (IH H' frame None true false (tr ++ [Exit r exc (ExitReturn true)])) as [E | E];
        left; exact E.
    + apply IH. exact H'.
Qed.

Lemma chain_head (e : exn) : In e (context_chain e).
Proof. destruct e as [c m [x |]]; left; reflexivity. Qed.

Lemma chain_cons (c : exc_class) (m : str) (x : exn) :
  context_chain (Exn c m (Some x)) = Exn c m (Some x) :: context_chain x.
Proof. reflexivity. Qed.

(** While the frame handles [f] and no callback returns a true value:
    the exception that is current at the end has the one from the start
    and every release failure in its chain; it is the one from the start
    when nothing is pending, and a failure leaves a raise pending. *)
Lemma unwind_chain (cbs : list (role * (option exn -> exit_result))) (f : exn) :
  (forall rc, In rc cbs -> forall x, snd rc x <> ExitReturn true) ->
  forall exc0 sup pend tr,
  exists e1 pend' tr',
    ExitStack.unwind cbs (Some f) (Some exc0) sup pend tr
    = (Some e1, sup, pend', tr')
    /\ (exists pre, context_chain e1 = pre ++ context_chain exc0)
    /\ (pend' = false -> e1 = exc0)
    /\ (pend = true -> pend' = true)
    /\ (forall rc c m,
           In rc cbs -> (forall x, snd rc x = ExitRaise c m) ->
           pend' = true
           /\ exists e2, In e2 (context_chain e1)
                         /\ exn_cls e2 = c /\ exn_msg e2 = m).
Proof.
  induction cbs as [| [r cb] cbs IH]; intros H exc0 sup pend tr.
  - exists exc0, pend, tr. split; [reflexivity | ].
    split; [exists []; reflexivity | ]. split; [reflexivity | ].
    split; [tauto | ]. intros rc c m [].
  - assert (H' : forall rc, In rc cbs -> forall x, snd rc x <> ExitReturn true)
      by (intros rc Hin; apply H; right; exact Hin).
    cbn [ExitStack.unwind].
    destruct (cb (Some exc0)) as [[] | c m] eqn:E.
    + exfalso. exact (H (r, cb) (or_introl eq_refl) (Some exc0) E).
    + destruct (IH H' exc0 sup pend (tr ++ [Exit r (Some exc0) (ExitReturn false)]))
        as (e1 & pend' & tr' & U & P & Q & S & R).
      exists e1, pend', tr'. split; [exact U | ]. split; [exact P | ].
      split; [exact Q | ]. split; [exact S | ].
      intros rc c m [<- | Hin] Hr; [ | exact (R rc c m Hin Hr)].
      cbn [snd] in Hr. rewrite Hr in E. discriminate E.
    + unfold raise_new, ExitStack._fix_exception_context.
      cbn [exn_context exn_cls exn_msg].
      destruct (IH H' (Exn c m (Some exc0)) sup true
                  (tr ++ [Exit r (Some exc0) (ExitRaise c m)]))
        as (e1 & pend' & tr' & U & (pre & P) & Q & S & R).
      exists e1, pend', tr'. split; [exact U | ].
      split.
      { exists (pre ++ [Exn c m (Some exc0)]).
        rewrite P, chain_cons, <- app_assoc. reflexivity. }
      split; [intros F; rewrite (S eq_refl) in F; discriminate F | ].
      split; [intros _; exact (S eq_refl) | ].
      intros rc c' m' [<- | Hin] Hr; [ | exact (R rc c' m' Hin Hr)].
      cbn [snd] in Hr. rewrite Hr in E. injection E as <- <-.
      split; [exact (S eq_refl) | ].
      exists (Exn c' m' (Some exc0)). split; [ | split; reflexivity].
      rewrite P. apply in_or_app. right. apply chain_head.
Qed.

Lemma scoped_enter_ok (self : RunContext) :
  (forall rc, In rc (scoped self) -> do_enter (snd rc) = None) ->
  forall rc, In rc (collaborators self) ->
             _is_context_manager (snd rc) = true -> do_enter (snd rc) = None.
Proof.
  intros H rc Hin Hcm. apply H. unfold scoped. apply filter_In. split; assumption.
Qed.

Lemma enter_new (self : RunContext) :
  _exit_stack self = new_stack ->
  (forall rc, In rc (scoped self) -> do_enter (snd rc) = None) ->
  __enter__ self
  = (with_stack self
       {| ExitStack._exit_callbacks := release_actions (scoped self);
          ExitStack.trace := map Enter (scoped_roles self) |},
     None).
Proof.
  intros N H. rewrite enter_unfold.
  rewrite (enter_all_ok (collaborators self) (_exit_stack self)
                        (scoped_enter_ok self H)).
  rewrite N. cbn [fst snd new_stack ExitStack._exit_callbacks ExitStack.trace app].
  rewrite app_nil_r. reflexivity.
Qed.

Lemma with_new (self : RunContext) (body : option exn) :
  _exit_stack self = new_stack ->
  (forall rc, In rc (scoped self) -> do_enter (snd rc) = None) ->
  let unwound :=
    ExitStack.unwind (release_actions (scoped self)) body body false false
                     (map Enter (scoped_roles self)) in
  snd (with_ self body) = seen unwound body
  /\ ExitStack.trace (_exit_stack (fst (with_ self body))) = snd unwound
  /\ ExitStack._exit_callbacks (_exit_stack (fst (with_ self body))) = [].
Proof.
  intros N H unwound. unfold with_. rewrite (enter_new self N H).
  unfold __exit__, ExitStack.__exit__, seen.
  cbn [with_stack _exit_stack ExitStack._exit_callbacks ExitStack.trace].
  fold unwound.
  destruct unwound as [[[exc' sup] pend] tr].
  destruct pend, exc' as [e |], (isinstance_interrupted body), body as [b |], sup;
    cbn; repeat split.
Qed.

Lemma release_actions_roles (l : list (role * collaborator)) :
  map fst (release_actions l) = rev (map fst l).
Proof.
  unfold release_actions. rewrite map_rev, map_map. reflexivity.
Qed.

Lemma release_actions_in (l : list (role * collaborator)) (rc : role * collaborator) :
  In rc l -> In (fst rc, do_exit (snd rc)) (release_actions l).
Proof.
  intros H. unfold release_actions. apply -> in_rev.
  apply in_map_iff. exists rc. split; [reflexivity | exact H].
Qed.

Lemma release_actions_all (l : list (role * collaborator))
      (P : (option exn -> exit_result) -> Prop) :
  (forall rc, In rc l -> P (do_exit (snd rc))) ->
  forall cb, In cb (release_actions l) -> P (snd cb).
Proof.
  intros H cb Hin. unfold release_actions in Hin. apply in_rev in Hin.
  apply in_map_iff in Hin. destruct Hin as (rc & <- & Hrc). apply H. exact Hrc.
Qed.

Lemma enter_all_fails (pre : list (role * collaborator)) :
  forall (s : ExitStack.state) (r : role) (c : collaborator)
         (post : list (role * collaborator)) (cls : exc_class) (msg : str),
    (forall rc, In rc pre -> _is_context_manager (snd rc) = true ->
                do_enter (snd rc) = None) ->
    _is_context_manager c = true ->
    do_enter c = Some (cls, msg) ->
    let entered := filter (fun rc => _is_context_manager (snd rc)) pre in
    enter_all (pre ++ (r, c) :: post) s
    = ({| ExitStack._exit_callbacks :=
            release_actions entered ++ ExitStack._exit_callbacks s;
          ExitStack.trace := ExitStack.trace s ++ map Enter (map fst entered) |},
       Some (Exn cls msg None)).
Proof.
  unfold release_actions.
  induction pre as [| [r0 c0] pre IH]; intros s r c post cls msg H Hc Hd.
  - cbn [app enter_all filter map rev]. unfold enter_if_cm.
    rewrite Hc. unfold ExitStack.enter_context. rewrite Hd.
    rewrite app_nil_r. destruct s; reflexivity.
  - cbn [app enter_all filter snd]. unfold enter_if_cm at 1.
    assert (H' : forall rc, In rc pre -> _is_context_manager (snd rc) = true ->
                            do_enter (snd rc) = None)
      by (intros rc Hin; apply H; right; exact Hin).
    destruct (_is_context_manager c0) eqn:E.
    + unfold ExitStack.enter_context.
      assert (Hd0 := H (r0, c0) (or_introl eq_refl) E). cbn [snd] in Hd0.
      rewrite Hd0, (IH _ r c post cls msg H' Hc Hd).
      cbn [ExitStack._exit_callbacks ExitStack.trace map rev fst snd].
      rewrite <- !app_assoc. reflexivity.
    + apply IH; assumption.
Qed.





Lemma with_emptied (self : RunContext) (body : option exn) :
  ExitStack._exit_callbacks (_exit_stack self) = [] ->
  (forall rc, In rc (scoped self) -> do_enter (snd rc) = None) ->
  let unwound :=
    ExitStack.unwind (release_actions (scoped self)) body body false false
      (ExitStack.trace (_exit_stack self) ++ map Enter (scoped_roles self)) in
  with_ self body
  = (with_stack self {| ExitStack._exit_callbacks := []; ExitStack.trace := snd unwound |},
     seen unwound body).
Proof.
  intros N H unwound. unfold with_. rewrite enter_unfold.
  rewrite (enter_all_ok (collaborators self) (_exit_stack self)
                        (scoped_enter_ok self H)).
  rewrite N, app_nil_r. cbn [fst snd].
  unfold __exit__, ExitStack.__exit__, seen.
  cbn [with_stack _exit_stack ExitStack._exit_callbacks ExitStack.trace].
  fold (scoped self). fold (scoped_roles self). fold unwound.
  destruct unwound as [[[exc' sup] pend] tr].
  destruct pend, exc' as [e |], (isinstance_interrupted body), body as [b |], sup;
    reflexivity.
Qed.




Lemma not_interrupted (e : exn) :
  exn_cls e <> RunContextInterruptedError -> isinstance_interrupted (Some e) = false.
Proof. destruct e as [[] m x]; cbn; intros H; congruence. Qed.

Lemma is_interrupted (e : exn) :
  exn_cls e = RunContextInterruptedError -> isinstance_interrupted (Some e) = true.
Proof. destruct e as [[] m x]; cbn; intros H; congruence. Qed.

(** C6, as amended.  When the exception that leaves the body is the
    interruption, every entered resource is released: the [__exit__] of
    each is called, once and in the reverse order, the first with the
    interruption; and if no release action raises, the caller sees no
    exception.  For any other
    exception the run context adds no suppression: if no release action
    returns a true value, the caller sees an exception that has the one
    of the body in its chain. *)
Theorem interruption_suppressed (self : RunContext) (e : exn) :
  _exit_stack self = new_stack ->
  (forall rc, In rc (scoped self) -> do_enter (snd rc) = None) ->
  (exn_cls e = RunContextInterruptedError ->
   (exists calls,
       ExitStack.trace (_exit_stack (fst (with_ self (Some e))))
       = map Enter (scoped_roles self) ++ calls
       /\ released (scoped self) calls
       /\ first_given calls (Some e))
   /\ ((forall rc, In rc (scoped self) ->
                   forall x, exists b, do_exit (snd rc) x = ExitReturn b) ->
       snd (with_ self (Some e)) = None))
  /\ (exn_cls e <> RunContextInterruptedError ->
      (forall rc, In rc (scoped self) ->
                  forall x, do_exit (snd rc) x <> ExitReturn true) ->
      exists e', snd (with_ self (Some e)) = Some e' /\ In e (context_chain e')).
Proof.
  intros N H. destruct (with_new self (Some e) N H) as (S & T & _). split.
  - intros I. split.
    + destruct (unwind_calls (release_actions (scoped self)) (Some e) (Some e)
                  false false (map Enter (scoped_roles self)))
        as (calls & U & F & G).
      exists calls. rewrite T, U.
      split; [reflexivity | split; [apply released_actions; exact F | exact G]].
    + intros Q. rewrite S.
      destruct (unwind_no_raise (release_actions (scoped self))
                  (release_actions_all _ (fun f => forall x, exists b, f x = ExitReturn b) Q)
                  (Some e) (Some e) false false (map Enter (scoped_roles self)))
        as [P | P];
        destruct (ExitStack.unwind _ _ _ _ _ _) as [[[exc' sup] pend] tr];
        cbn [fst snd] in P; subst pend; unfold seen;
        rewrite (is_interrupted e I); reflexivity.
  - intros I Q. rewrite S.
    destruct (unwind_chain (release_actions (scoped self)) e
                (release_actions_all _ (fun f => forall x, f x <> ExitReturn true) Q)
                e false false (map Enter (scoped_roles self)))
      as (e1 & pend' & tr' & U & (pre & P) & R & _).
    rewrite U. unfold seen. rewrite (not_interrupted e I).
    destruct pend'.
    + exists e1. split; [reflexivity | ].
      rewrite P. apply in_or_app. right. apply chain_head.
    + cbn. exists e. split; [reflexivity | apply chain_head].
Qed.

Lemma interruption_suppressed_witness :
  snd (with_ (context_of quiet quiet) (Some interrupted)) = None
  /\ exists e', snd (with_ (context_of quiet (failing "E1")) (Some body_error)) = Some e'
                /\ In body_error (context_chain e').
Proof.
  assert (Hq : forall rc, In rc (scoped (context_of quiet quiet)) ->
                          do_enter (snd rc) = None)
    by (intros rc Hin; cbn in Hin; destruct Hin as [<- | [<- | []]]; reflexivity).
  assert (Hf : forall rc, In rc (scoped (context_of quiet (failing "E1"))) ->
                          do_enter (snd rc) = None)
    by (intros rc Hin; cbn in Hin; destruct Hin as [<- | [<- | []]]; reflexivity).
  split.
  - destruct (interruption_suppressed (context_of quiet quiet) interrupted
                eq_refl Hq) as [A _].
    destruct (A eq_refl) as [_ A']. apply A'.
    intros rc Hin x. cbn in Hin.
    destruct Hin as [<- | [<- | []]]; exists false; reflexivity.
  - destruct (interruption_suppressed (context_of quiet (failing "E1")) body_error
                eq_refl Hf) as [_ B].
    apply B; [discriminate | ].
    intros rc Hin x. cbn in Hin.
    destruct Hin as [<- | [<- | []]]; discriminate.
Defined.

(** C6 as stated fails: a release action that raises while the
    interruption propagates reaches the caller, and a release action
    that returns a true value makes the run context swallow a
    [ValueError]. *)
Lemma interruption_suppressed_counterexample :
  snd (with_ (context_of quiet (failing "E1")) (Some interrupted))
  = Some (Exn (OtherException (lit "E1")) (lit "release failed") (Some interrupted))
  /\ snd (with_ (context_of suppressing quiet) (Some body_error)) = None.
Proof. split; reflexivity. Qed.

(** C7, as amended.  Let the scoped collaborators be entered and let a
    release action fail whatever it is given.  If the body completed and
    the release actions that run after the failing one return a false
    value, the caller sees that failure.  If the body raised and no
    release action returns a true value, the caller sees an exception
    whose chain has the exception of the body and the failure of every
    such release action. *)
Theorem release_failure_propagates (self : RunContext) :
  _exit_stack self = new_stack ->
  (forall rc, In rc (scoped self) -> do_enter (snd rc) = None) ->
  (forall earlier r resource later c m,
      scoped self = earlier ++ (r, resource) :: later ->
      (forall x, do_exit resource x = ExitRaise c m) ->
      (forall rc, In rc earlier -> forall x, do_exit (snd rc) x = ExitReturn false) ->
      snd (with_ self None) = Some (Exn c m None))
  /\ (forall e r resource c m,
         In (r, resource) (scoped self) ->
         (forall x, do_exit resource x = ExitRaise c m) ->
         (forall rc, In rc (scoped self) ->
                     forall x, do_exit (snd rc) x <> ExitReturn true) ->
         exists e' e2,
           snd (with_ self (Some e)) = Some e'
           /\ In e (context_chain e')
           /\ In e2 (context_chain e') /\ exn_cls e2 = c /\ exn_msg e2 = m).
Proof.
  intros N H. split.
  - intros earlier r resource later c m E R Q.
    destruct (with_new self None N H) as (S & _). rewrite S. clear S.
    rewrite E. unfold release_actions.
    rewrite map_app, rev_app_distr. cbn [map rev fst snd].
    rewrite <- app_assoc. cbn [app].
    rewrite unwind_app.
    destruct (ExitStack.unwind (rev (map _ later)) None None false false _)
      as [[[exc1 sup1] pend1] tr1].
    cbn [ExitStack.unwind]. rewrite R.
    unfold raise_new, ExitStack._fix_exception_context. cbn [exn_context].
    rewrite unwind_all_false.
    + reflexivity.
    + apply (release_actions_all earlier (fun f => forall x, f x = ExitReturn false) Q).
  - intros e r resource c m Hin R Q.
    destruct (with_new self (Some e) N H) as (S & _). rewrite S. clear S.
    destruct (unwind_chain (release_actions (scoped self)) e
                (release_actions_all _ (fun f => forall x, f x <> ExitReturn true) Q)
                e false false (map Enter (scoped_roles self)))
      as (e1 & pend' & tr' & U & (pre & P) & _ & _ & F).
    destruct (F _ c m (release_actions_in _ _ Hin) R) as (-> & e2 & I2 & C2 & M2).
    rewrite U. exists e1, e2. unfold seen.
    split; [reflexivity | ].
    split; [rewrite P; apply in_or_app; right; apply chain_head | ].
    repeat split; assumption.
Qed.

Lemma release_failure_propagates_witness :
  snd (with_ (context_of quiet (failing "E1")) None)
  = Some (Exn (OtherException (lit "E1")) (lit "release failed") None)
  /\ exists e' e2,
    snd (with_ (context_of quiet (failing "E1")) (Some body_error)) = Some e'
    /\ In body_error (context_chain e')
    /\ In e2 (context_chain e')
    /\ exn_cls e2 = OtherException (lit "E1")
    /\ exn_msg e2 = lit "release failed".
Proof.
  assert (Hf : forall rc, In rc (scoped (context_of quiet (failing "E1"))) ->
                          do_enter (snd rc) = None)
    by (intros rc Hin; cbn in Hin; destruct Hin as [<- | [<- | []]]; reflexivity).
  destruct (release_failure_propagates (context_of quiet (failing "E1")) eq_refl Hf)
    as [A B].
  split.
  - apply (A [(Config, scoped_resource quiet)] Checkpoint
             (scoped_resource (failing "E1")) []).
    + reflexivity.
    + intros x. reflexivity.
    + intros rc [<- | []] x. reflexivity.
  - apply (B body_error Checkpoint (scoped_resource (failing "E1"))).
    + right. left. reflexivity.
    + intros x. reflexivity.
    + intros rc Hin x. cbn in Hin.
      destruct Hin as [<- | [<- | []]]; discriminate.
Defined.

(** C7 as stated fails.  A release failure after a body that completed
    is lost when a later release action returns a true value, and so
    are both errors when the body had raised; and of two release
    failures after a body that completed, the caller sees the second
    one, which does not refer to the first. *)
Lemma release_failure_propagates_counterexample :
  snd (with_ (context_of suppressing (failing "E1")) None) = None
  /\ snd (with_ (context_of suppressing (failing "E1")) (Some body_error)) = None
  /\ snd (with_ (context_of (failing "E2") (failing "E1")) None)
     = Some (Exn (OtherException (lit "E2")) (lit "release failed") None).
Proof. repeat split. Qed.

End RunContextFacts.

(** * The metric sink *)

Module MetricFacts.
Import MetricSaver.

(** Induction on a JSON value, with the members of lists and
    dictionaries. *)
Lemma JSON_induction (P : JSON -> Prop)
      (Hnull : P JNull) (Hbool : forall b, P (JBool b))
      (Hint : forall n, P (JInt n)) (Hfloat : forall f, P (JFloat f))
      (Hstr : forall s, P (JStr s))
      (Hlist : forall l, Forall P l -> P (JList l))
      (Hdict : forall d, Forall (fun kv => P (snd kv)) d -> P (JDict d)) :
  forall o, P o.
Proof.
  fix rec 1. intros [| b | n | f | s | l | d].
  - exact Hnull.
  - apply Hbool.
  - apply Hint.
  - apply Hfloat.
  - apply Hstr.
  - apply Hlist. induction l as [| x l IH]; constructor; [apply rec | exact IH].
  - apply Hdict. induction d as [| [k v] d IH]; constructor; [apply rec | exact IH].
Qed.

(** The encoder stores every value as the sink has to. *)
Lemma encode_stored_as (o : JSON) : stored_as o (_encode_nan_and_inf_as_none o).
Proof.
  induction o using JSON_induction; cbn [_encode_nan_and_inf_as_none];
    try (constructor; fail).
  - destruct (isfinite f) eqn:E; cbn [negb]; constructor; exact E.
  - constructor. induction H as [| x l Hx Hl IH]; constructor; assumption.
  - constructor. induction H as [| [k v] d Hv Hd IH]; constructor;
      [split; [reflexivity | exact Hv] | exact IH].
Qed.

(** What is stored holds no float that is not finite. *)
Lemma encode_finite (o : JSON) :
  has_nonfinite (_encode_nan_and_inf_as_none o) = false.
Proof.
  induction o using JSON_induction;
    cbn [_encode_nan_and_inf_as_none has_nonfinite]; try reflexivity.
  - destruct (isfinite f) eqn:E; cbn [negb has_nonfinite]; [rewrite E | ];
      reflexivity.
  - induction H as [| x l Hx Hl IH]; [reflexivity | ].
    cbn [map existsb]. rewrite Hx. exact IH.
  - induction H as [| [k v] d Hv Hd IH]; [reflexivity | ].
    cbn [map existsb]. cbn [snd] in Hv. rewrite Hv. exact IH.
Qed.

(** A value without such a float is stored as it is. *)
Lemma encode_unchanged (o : JSON) :
  has_nonfinite o = false -> _encode_nan_and_inf_as_none o = o.
Proof.
  induction o using JSON_induction;
    cbn [_encode_nan_and_inf_as_none has_nonfinite]; try reflexivity.
  - intros E. rewrite E. reflexivity.
  - intros E. f_equal. induction H as [| x l Hx Hl IH]; [reflexivity | ].
    cbn [existsb] in E. apply orb_false_iff in E. destruct E as [E1 E2].
    cbn [map]. rewrite (Hx E1), (IH E2). reflexivity.
  - intros E. f_equal. induction H as [| [k v] d Hv Hd IH]; [reflexivity | ].
    cbn [existsb] in E. apply orb_false_iff in E. destruct E as [E1 E2].
    cbn [map]. cbn [snd] in Hv. rewrite (Hv E1), (IH E2). reflexivity.
Qed.

(** C8.  [save_metrics] appends one record for each record that it is
    given, in order, with the same [global_step] and the same [tag]; in
    the value every float that is not finite, at any depth of lists and
    dictionaries, is stored as [None], and everything else is stored as
    it is. *)
Theorem save_metrics_sanitizes (self : MemoryMetricSaver) (ms : list SaveMetricDict) :
  exists stored,
    metrics (save_metrics self ms) = metrics self ++ stored
    /\ Forall2 (fun m s =>
                  metric_global_step s = metric_global_step m
                  /\ metric_tag s = metric_tag m
                  /\ stored_as (metric_value m) (metric_value s)
                  /\ has_nonfinite (metric_value s) = false
                  /\ (has_nonfinite (metric_value m) = false ->
                      metric_value s = metric_value m))
               ms stored.
Proof.
  exists (_encode_metrics ms). split; [reflexivity | ].
  induction ms as [| m ms IH]; constructor; [ | exact IH].
  cbn [metric_global_step metric_tag metric_value].
  repeat split.
  - apply encode_stored_as.
  - apply encode_finite.
  - apply encode_unchanged.
Qed.

End MetricFacts.

(** * The S3 keys *)

Module S3Facts.
Import S3.

(** C9 fails on the code.  With the key prefix [a/], the file
    [/src/a/b.txt] below [/src] goes to the key [a/a/b.txt]; on the way
    back [replace] takes the prefix out of the key twice, and the file
    comes to [/dst/b.txt], not to [/dst/a/b.txt]. *)
Theorem s3_key_roundtrip_fails :
  Posixpath.relpath (lit "/") (lit "/src/a/b.txt") (lit "/src") = Ok (lit "a/b.txt")
  /\ _file_path_to_s3_key (lit "/") (lit "/src/a/b.txt") (lit "/src") (lit "a/")
     = Ok (lit "a/a/b.txt")
  /\ _s3_key_to_file_path (lit "a/a/b.txt") (lit "/dst") (lit "a/")
     = Ok (lit "/dst/b.txt")
  /\ Posixpath.join (lit "/dst") (lit "a/b.txt") = lit "/dst/a/b.txt"
  /\ lit "/dst/b.txt" <> lit "/dst/a/b.txt".
Proof. repeat split; try reflexivity. discriminate. Qed.

End S3Facts.

(** * Further properties of the metric sink *)

Module MetricExtras.
Import MetricSaver MetricFacts.

(** X1.  Saving what the sink has stored stores the same records: the encoder
    changes nothing in its own output. *)
Theorem encode_metrics_idempotent (ms : list SaveMetricDict) :
  _encode_metrics (_encode_metrics ms) = _encode_metrics ms.
Proof.
  unfold _encode_metrics. rewrite map_map. apply map_ext. intros m.
  cbn [metric_global_step metric_tag metric_value].
  rewrite (encode_unchanged _ (encode_finite (metric_value m))). reflexivity.
Qed.

(** X2.  The sink only appends: two calls store what one call with both lists
    stores, the records stored before stay in front, and a call adds as
    many records as it is given. *)
Theorem save_metrics_appends (self : MemoryMetricSaver) (a b : list SaveMetricDict) :
  save_metrics (save_metrics self a) b = save_metrics self (a ++ b)
  /\ firstn (List.length (metrics self)) (metrics (save_metrics self a)) = metrics self
  /\ List.length (metrics (save_metrics self a))
     = (List.length (metrics self) + List.length a)%nat.
Proof.
  unfold save_metrics, _encode_metrics. cbn [metrics]. repeat split.
  - rewrite map_app, app_assoc. reflexivity.
  - rewrite firstn_app, Nat.sub_diag, firstn_all. cbn [firstn].
    apply app_nil_r.
  - rewrite length_app, length_map. reflexivity.
Qed.

End MetricExtras.

(** * Further properties of checkpoint ids *)

Module CheckpointIdExtras.
Import PyStr PyStrFacts CheckpointManager CheckpointFacts.

Lemma strip_prefix_some (p : str) :
  forall s r, strip_prefix p s = Some r -> s = p ++ r.
Proof.
  induction p as [| a p IH]; intros s r H.
  - cbn in H. injection H as ->. reflexivity.
  - destruct s as [| b s]; [discriminate H | ].
    cbn [strip_prefix] in H. destruct (Ascii.eqb a b) eqn:E; [ | discriminate H].
    apply Ascii.eqb_eq in E. subst b. cbn [app]. f_equal. apply IH. exact H.
Qed.

Lemma rpartition_some (sep : str) :
  forall s a b, rpartition sep s = Some (a, b) -> s = a ++ sep ++ b.
Proof.
  induction s as [| c s IH]; intros a b H.
  - cbn [rpartition] in H. destruct (strip_prefix sep []) as [r |] eqn:E;
      [ | discriminate H].
    cbn [option_map] in H. injection H as <- <-.
    apply strip_prefix_some in E. exact E.
  - cbn [rpartition] in H.
    destruct (rpartition sep s) as [[a' b'] |] eqn:R.
    + injection H as <- <-. rewrite (IH _ _ eq_refl). reflexivity.
    + destruct (strip_prefix sep (c :: s)) as [r |] eqn:E; [ | discriminate H].
      cbn [option_map] in H. injection H as <- <-.
      apply strip_prefix_some in E. exact E.
Qed.

Lemma rpartition_none (sep : str) :
  forall s, contains sep s = false -> rpartition sep s = None.
Proof.
  induction s as [| c s IH]; intros H.
  - cbn [contains] in H. cbn [rpartition].
    destruct (strip_prefix sep []); [discriminate H | reflexivity].
  - cbn [contains] in H. cbn [rpartition].
    destruct (strip_prefix sep (c :: s)) eqn:E; [discriminate H | ].
    rewrite (IH H). reflexivity.
Qed.

Lemma decode_without_token (name : str) :
  contains (lit "__") name = false ->
  decode_checkpoint_id name
  = Raise (Exn ValueError (lit "not enough values to unpack") None).
Proof.
  intros H. unfold decode_checkpoint_id, rsplit1.
  rewrite (rpartition_none (lit "__") name H). reflexivity.
Qed.

(** X3.  The id that [save_checkpoint] makes for a negative step cannot be
    decoded: its first segment is empty, and [int("")] raises
    [ValueError]. *)
Theorem decode_negative_step (global_step : Z) (run_id token : str) :
  (global_step < 0)%Z ->
  exists e,
    decode_checkpoint_id (format_checkpoint_id global_step run_id token) = Raise e
    /\ exn_cls e = ValueError.
Proof.
  intros H. unfold format_checkpoint_id, str_of_int.
  assert (E : (global_step <? 0)%Z = true) by (apply Z.ltb_lt; exact H).
  rewrite E. cbn [app].
  set (rest := digits (- global_step) ++ lit "-" ++ run_id ++ lit "__" ++ token).
  unfold decode_checkpoint_id, rsplit1.
  destruct (rpartition (lit "__") ("-"%char :: rest)) as [[a b] |] eqn:R.
  - apply rpartition_some in R.
    destruct a as [| c a]; [discriminate R | ].
    injection R as <- _.
    cbn [split]. rewrite Ascii.eqb_refl. cbn [hd].
    eexists. split; reflexivity.
  - eexists. split; reflexivity.
Qed.

Lemma decode_negative_step_witness :
  exists e,
    decode_checkpoint_id (format_checkpoint_id (-1) (lit "run-a") Examples.token0)
    = Raise e
    /\ exn_cls e = ValueError.
Proof. apply decode_negative_step. lia. Defined.

(** X4.  Checkpoint ids are unambiguous: two ids made from steps that are not
    negative and tokens without underscore are equal only if the steps,
    the run ids and the tokens are. *)
Theorem format_checkpoint_id_injective
        (step step' : Z) (run_id run_id' token token' : str) :
  (0 <= step)%Z -> (0 <= step')%Z ->
  contains_char "_"%char token = false ->
  contains_char "_"%char token' = false ->
  format_checkpoint_id step run_id token = format_checkpoint_id step' run_id' token' ->
  step = step' /\ run_id = run_id' /\ token = token'.
Proof.
  intros Hs Hs' Ht Ht' E.
  assert (D := decode_format step run_id token Hs Ht).
  rewrite E, (decode_format step' run_id' token' Hs' Ht') in D.
  injection D as <- <-. repeat split.
  unfold format_checkpoint_id in E. rewrite !app_assoc in E.
  apply app_inv_head in E. exact E.
Qed.

Lemma format_checkpoint_id_injective_witness :
  7%Z = 7%Z /\ lit "run-a" = lit "run-a" /\ Examples.token0 = Examples.token0.
Proof.
  apply (format_checkpoint_id_injective 7 7 (lit "run-a") (lit "run-a")
           Examples.token0 Examples.token0); try lia; reflexivity.
Defined.

End CheckpointIdExtras.

(** * Further properties of the lookups *)

Module LoadExtras.
Import PyStr PyStrFacts Pathlib CheckpointManager CheckpointFacts FsFacts.
Import GlobFacts LatestFacts CheckpointIdExtras Fixtures.

Lemma named_checkpoints_name (fs : node) (runs_path : Path) (id : str) (p : Path) :
  In p (named_checkpoints fs runs_path id) -> Pathlib.name p = id.
Proof.
  unfold named_checkpoints. intros H. apply in_flat_map in H.
  destruct H as ([run n] & _ & H). cbn [fst snd] in H.
  destruct (Fs.is_dir_node n && Fs.exists_ fs _); [ | destruct H].
  destruct H as [<- | []].
  change [run; lit "checkpoints"; id] with ([run; lit "checkpoints"] ++ [id]).
  rewrite app_assoc. apply name_snoc.
Qed.

Lemma load_single (self : LocalFileCheckpointManager) (wanted : str) (fs : node)
      (p : Path) :
  plain_name wanted = true ->
  named_checkpoints fs (_runs_path self) wanted = [p] ->
  load_checkpoint self (Some wanted) fs
  = (decoded <- decode_checkpoint_id wanted ;;
     Ok {| dir := p; id := wanted;
           global_step := fst decoded; run_id := snd decoded |}).
Proof.
  intros P N. unfold load_checkpoint.
  rewrite (glob_plain_name fs (_runs_path self) wanted P), N. cbn [bind].
  rewrite (named_checkpoints_name fs (_runs_path self) wanted p)
    by (rewrite N; left; reflexivity).
  reflexivity.
Qed.

(** X5.  An entry that is there under the wanted name, but whose name has no
    double underscore, is not reported as missing: [load_checkpoint(id)]
    raises the [ValueError] of the decoding. *)
Theorem load_checkpoint_undecodable
        (self : LocalFileCheckpointManager) (wanted : str) (fs : node) (p : Path) :
  plain_name wanted = true ->
  named_checkpoints fs (_runs_path self) wanted = [p] ->
  contains (lit "__") wanted = false ->
  load_checkpoint self (Some wanted) fs
  = Raise (Exn ValueError (lit "not enough values to unpack") None).
Proof.
  intros P N C. rewrite (load_single self wanted fs p P N).
  rewrite (decode_without_token wanted C). reflexivity.
Qed.

Lemma load_checkpoint_undecodable_witness :
  load_checkpoint Examples.manager_a (Some (lit "notes")) fs_stray
  = Raise (Exn ValueError (lit "not enough values to unpack") None).
Proof.
  apply (load_checkpoint_undecodable Examples.manager_a (lit "notes") fs_stray
           [lit "data"; lit "runs"; lit "a"; lit "checkpoints"; lit "notes"]);
    reflexivity.
Defined.

Lemma contains_char_app (c : ascii) (a b : str) :
  contains_char c (a ++ b) = contains_char c a || contains_char c b.
Proof. unfold contains_char. apply existsb_app. Qed.

Lemma is_digit_no_meta (c : ascii) :
  is_digit c = true ->
  Ascii.eqb "*"%char c = false /\ Ascii.eqb "?"%char c = false
  /\ Ascii.eqb "["%char c = false /\ Ascii.eqb "/"%char c = false.
Proof.
  destruct c as [[] [] [] [] [] [] [] []]; vm_compute; intros H;
    try discriminate H; repeat split.
Qed.

Lemma is_hex_no_meta (c : ascii) :
  is_hex_digit c = true ->
  Ascii.eqb "*"%char c = false /\ Ascii.eqb "?"%char c = false
  /\ Ascii.eqb "["%char c = false /\ Ascii.eqb "/"%char c = false.
Proof.
  destruct c as [[] [] [] [] [] [] [] []]; vm_compute; intros H;
    try discriminate H; repeat split.
Qed.

Lemma lacks_all (c : ascii) (s : str) :
  (forall d, In d s -> Ascii.eqb c d = false) -> contains_char c s = false.
Proof.
  intros H. apply contains_char_false. intros Hin.
  specialize (H c Hin). rewrite Ascii.eqb_refl in H. discriminate H.
Qed.

Lemma digits_lack (n : Z) (c : ascii) :
  (0 <= n)%Z -> special c -> contains_char c (str_of_int n) = false.
Proof.
  intros H Hc. destruct (str_of_int_digits H) as [Hd _].
  apply lacks_all. intros d Hin. rewrite forallb_forall in Hd.
  destruct (is_digit_no_meta d (Hd d Hin)) as (A & B & C & D).
  unfold special in Hc. cbn [In] in Hc.
  destruct Hc as [<- | [<- | [<- | [<- | []]]]]; assumption.
Qed.

Lemma uuid_lack (token : str) (c : ascii) :
  is_uuid_str token = true -> special c -> contains_char c token = false.
Proof.
  intros U Hc. destruct (uuid_chars token U) as [_ T].
  apply lacks_all. intros d Hin.
  unfold special in Hc. cbn [In] in Hc.
  destruct (T d Hin) as [-> | Hx].
  - destruct Hc as [<- | [<- | [<- | [<- | []]]]]; reflexivity.
  - destruct (is_hex_no_meta d Hx) as (A & B & C & D).
    destruct Hc as [<- | [<- | [<- | [<- | []]]]]; assumption.
Qed.

(** The id of a new checkpoint is the name of one entry when the run id
    has no separator and no glob metacharacter. *)
Lemma generated_id_plain (global_step : Z) (run_id token : str) :
  (0 <= global_step)%Z ->
  is_uuid_str token = true ->
  contains_char "/"%char run_id = false ->
  _is_wildcard_pattern run_id = false ->
  plain_name (format_checkpoint_id global_step run_id token) = true.
Proof.
  intros Hs U Hr Hw.
  unfold _is_wildcard_pattern in Hw.
  apply orb_false_iff in Hw. destruct Hw as [Hw W3].
  apply orb_false_iff in Hw. destruct Hw as [W1 W2].
  assert (L : forall c, special c -> contains_char c run_id = false ->
                        contains_char c (format_checkpoint_id global_step run_id token)
                        = false).
  { intros c Hc Hrun. unfold format_checkpoint_id.
    rewrite !contains_char_app, (digits_lack _ _ Hs Hc), Hrun, (uuid_lack _ _ U Hc).
    unfold special in Hc. cbn [In] in Hc.
    destruct Hc as [<- | [<- | [<- | [<- | []]]]]; reflexivity. }
  unfold plain_name, _is_wildcard_pattern.
  rewrite (L "/"%char), (L "*"%char), (L "?"%char), (L "["%char);
    try assumption; try (unfold special; cbn [In]; tauto).
  cbn [negb orb andb].
  assert (Hy : In "-"%char (format_checkpoint_id global_step run_id token)).
  { unfold format_checkpoint_id. apply in_or_app. right. left. reflexivity. }
  assert (N : forall s : str, ~ In "-"%char s ->
                              PyStr.eqb (format_checkpoint_id global_step run_id token) s
                              = false).
  { intros s Hn. apply eqb_neq. intros E. rewrite E in Hy. exact (Hn Hy). }
  rewrite (N []), (N (lit ".")), (N (lit "..")); try reflexivity;
    cbn; intuition discriminate.
Qed.

(** X6.  Loading by the id that [save_checkpoint] made, from any manager on the
    same base directory: when exactly one entry bears the id, the
    checkpoint that is yielded is that entry, with the step and the run id
    that were given to [save_checkpoint]. *)
Theorem load_generated_id
        (self : LocalFileCheckpointManager) (global_step : Z) (owner token : str)
        (fs : node) (p : Path) :
  let wanted := format_checkpoint_id global_step owner token in
  (0 <= global_step)%Z ->
  is_uuid_str token = true ->
  contains_char "/"%char owner = false ->
  _is_wildcard_pattern owner = false ->
  named_checkpoints fs (_runs_path self) wanted = [p] ->
  load_checkpoint self (Some wanted) fs
  = Ok {| dir := p; id := wanted; global_step := global_step; run_id := owner |}.
Proof.
  intros wanted Hs U Hr Hw N.
  rewrite (load_single self wanted fs p
             (generated_id_plain global_step owner token Hs U Hr Hw) N).
  unfold wanted.
  rewrite (decode_format global_step owner token Hs (uuid_no_underscore token U)).
  reflexivity.
Qed.

Lemma load_generated_id_witness :
  load_checkpoint Examples.manager_b
                  (Some (format_checkpoint_id 3 (lit "run-a") Examples.token0))
                  fs_generated
  = Ok {| dir := [lit "data"; lit "runs"; lit "run-a"; lit "checkpoints";
                  format_checkpoint_id 3 (lit "run-a") Examples.token0];
          id := format_checkpoint_id 3 (lit "run-a") Examples.token0;
          global_step := 3; run_id := lit "run-a" |}.
Proof.
  apply (load_generated_id Examples.manager_b 3 (lit "run-a") Examples.token0
           fs_generated); try lia; vm_compute; reflexivity.
Defined.

Lemma keyed_paths (fs : node) (l : list Path) :
  forall ks, keyed fs l = Ok ks -> map snd ks = l.
Proof.
  induction l as [| c l IH]; intros ks H.
  - cbn in H. injection H as <-. reflexivity.
  - cbn [keyed] in H. destruct (checkpoint_key fs c) as [k | e]; [ | discriminate H].
    cbn [bind] in H. destruct (keyed fs l) as [rest | e]; [ | discriminate H].
    cbn [bind] in H. injection H as <-. cbn [map snd]. rewrite (IH rest eq_refl).
    reflexivity.
Qed.

(** X7.  Without an id the lookup stays in the checkpoint root of the run of
    the manager: whatever [load_checkpoint()] yields is an entry of that
    directory, and its id is the name of the entry. *)
Theorem load_latest_confined
        (self : LocalFileCheckpointManager) (fs : node) (d : LoadCheckpointData) :
  load_checkpoint self None fs = Ok d ->
  In (dir d) (children fs (_checkpoints_path self (mgr_run_id self)))
  /\ id d = Pathlib.name (dir d).
Proof.
  unfold load_checkpoint. rewrite glob_star.
  destruct (children fs (_checkpoints_path self (mgr_run_id self)))
    as [| p0 rest] eqn:L; [discriminate | ].
  cbn [bind].
  destruct (keyed fs (p0 :: rest)) as [ks | e] eqn:K; [ | discriminate].
  cbn [bind]. destruct ks as [| k0 ks']; [discriminate | ].
  cbn [bind].
  destruct (decode_checkpoint_id (name (max_from k0 ks'))) as [dec | e];
    [ | discriminate].
  cbn [bind]. intros E. injection E as <-. cbn [dir id]. split; [ | reflexivity].
  destruct (max_from_spec _ ks' k0) as (k & Hin & _).
  rewrite <- (keyed_paths fs _ _ K).
  apply in_map_iff. exists (k, max_from k0 ks'). split; [reflexivity | exact Hin].
Qed.

Lemma load_latest_confined_witness :
  In (dir Examples.loaded_5a)
     (children Examples.fs_two_runs
               (_checkpoints_path Examples.manager_a (lit "a")))
  /\ id Examples.loaded_5a = Pathlib.name (dir Examples.loaded_5a).
Proof.
  apply (load_latest_confined Examples.manager_a Examples.fs_two_runs
                              Examples.loaded_5a).
  vm_compute. reflexivity.
Defined.

Lemma keyed_fails (fs : node) (l : list Path) :
  (forall p, In p l -> Fs.resolve fs p <> None) ->
  (exists p, In p l
             /\ PyStr.int (hd [] (split "-"%char (Pathlib.name p))) = None) ->
  exists e, keyed fs l = Raise e /\ exn_cls e = ValueError.
Proof.
  induction l as [| c l IH]; intros R (p & Hin & Hp); [destruct Hin | ].
  cbn [keyed]. unfold checkpoint_key at 1.
  destruct (Fs.resolve fs c) as [n |] eqn:Rc;
    [ | exfalso; apply (R c (or_introl eq_refl)); exact Rc].
  destruct (PyStr.int (hd [] (split "-"%char (name c)))) as [k |] eqn:I.
  - cbn [bind].
    destruct Hin as [-> | Hin]; [congruence | ].
    destruct IH as (e & E & C).
    + intros q Hq. apply R. right. exact Hq.
    + exists p. split; assumption.
    + rewrite E. exists e. split; [reflexivity | exact C].
  - eexists. split; reflexivity.
Qed.

(** X8.  One entry in the checkpoint root whose name does not begin with an
    integer makes the lookup without id fail for the whole run: it raises
    [ValueError], whatever checkpoints are beside it. *)
Theorem load_latest_stray_entry (self : LocalFileCheckpointManager) (fs : node) :
  let listed := children fs (_checkpoints_path self (mgr_run_id self)) in
  (forall p, In p listed -> Fs.resolve fs p <> None) ->
  (exists p, In p listed
             /\ PyStr.int (hd [] (split "-"%char (Pathlib.name p))) = None) ->
  exists e, load_checkpoint self None fs = Raise e /\ exn_cls e = ValueError.
Proof.
  intros listed R B. unfold load_checkpoint. rewrite glob_star. fold listed.
  destruct (keyed_fails fs listed R B) as (e & K & C).
  destruct listed as [| p0 rest]; [destruct B as (p & [] & _) | ].
  cbn [bind]. rewrite K. exists e. split; [reflexivity | exact C].
Qed.

Lemma load_latest_stray_entry_witness :
  exists e, load_checkpoint Examples.manager_a None fs_stray = Raise e
            /\ exn_cls e = ValueError.
Proof.
  apply (load_latest_stray_entry Examples.manager_a fs_stray).
  - intros p Hp. vm_compute in Hp.
    destruct Hp as [<- | [<- | []]]; vm_compute; discriminate.
  - exists [lit "data"; lit "runs"; lit "a"; lit "checkpoints"; lit "notes"].
    split; [vm_compute; tauto | reflexivity].
Defined.

(** X9.  The empty id and the id [.] never load a checkpoint.  What the
    pattern [*/checkpoints/{id}] finds then are checkpoint roots, paths
    called [checkpoints], and [load_checkpoint] raises for every file
    system: [CheckpointNotFoundError(id)] when the glob finds nothing,
    the [ValueError] of the decoding when it finds one path, and the
    [RuntimeError] when it finds several. *)
Theorem load_checkpoint_blank_id
        (self : LocalFileCheckpointManager) (wanted : str) (fs : node) :
  wanted = [] \/ wanted = lit "." ->
  exists found,
    glob fs (_runs_path self) (_checkpoint_glob wanted) = Ok found
    /\ (forall p, In p found -> Pathlib.name p = lit "checkpoints")
    /\ load_checkpoint self (Some wanted) fs
       = match found with
         | [] => Raise (CheckpointNotFoundError_init (Some wanted))
         | [_] => Raise (Exn ValueError (lit "not enough values to unpack") None)
         | _ :: _ :: _ =>
             Raise (Exn RuntimeError
                        (lit "unexpected multiple checkpoints with id "
                             ++ repr wanted) None)
         end.
Proof.
  intros B.
  assert (S : contains_char "/"%char wanted = false
              /\ _is_wildcard_pattern wanted = false
              /\ PyStr.eqb wanted [] || PyStr.eqb wanted (lit ".") = true)
    by (destruct B as [-> | ->]; repeat split).
  destruct S as (S1 & S2 & S3).
  assert (G := glob_literal_id fs (_runs_path self) wanted S1 S2).
  exists (select_from (id_selector wanted) fs (_runs_path self)).
  split; [exact G | ].
  assert (N : forall p,
             In p (select_from (id_selector wanted) fs (_runs_path self)) ->
             Pathlib.name p = lit "checkpoints").
  { intros p Hp.
    rewrite (select_literal_name fs (_runs_path self) wanted p Hp), S3.
    reflexivity. }
  split; [exact N | ].
  unfold load_checkpoint. rewrite G. cbn [bind].
  destruct (select_from (id_selector wanted) fs (_runs_path self))
    as [| p [| q l]]; [reflexivity | | reflexivity].
  cbn [bind]. rewrite (N p (or_introl eq_refl)). reflexivity.
Qed.

Lemma load_checkpoint_blank_id_witness :
  exists found,
    glob Examples.fs_one_run (_runs_path Examples.manager_a) (_checkpoint_glob [])
    = Ok found
    /\ (forall p, In p found -> Pathlib.name p = lit "checkpoints")
    /\ load_checkpoint Examples.manager_a (Some []) Examples.fs_one_run
       = match found with
         | [] => Raise (CheckpointNotFoundError_init (Some []))
         | [_] => Raise (Exn ValueError (lit "not enough values to unpack") None)
         | _ :: _ :: _ =>
             Raise (Exn RuntimeError
                        (lit "unexpected multiple checkpoints with id " ++ repr [])
                        None)
         end.
Proof.
  apply (load_checkpoint_blank_id Examples.manager_a [] Examples.fs_one_run).
  left. reflexivity.
Defined.

End LoadExtras.

(** * Further properties of the write scope *)

Module SaveExtras.
Import PyStr PyStrFacts Pathlib CheckpointManager CheckpointFacts Fs FsFacts.
Import RollbackFacts GlobFacts LatestFacts LoadExtras Fixtures.

Lemma assoc_app (c : str) (es es' : list (str * node)) :
  assoc c (es ++ es')
  = match assoc c es with Some m => Some m | None => assoc c es' end.
Proof.
  induction es as [| [k v] es IH]; [reflexivity | ].
  cbn [app assoc]. destruct (PyStr.eqb k c); [reflexivity | exact IH].
Qed.

Lemma insert_here (t now : Z) (es : list (str * node)) (name : str) (child : node) :
  insert (Dir t es) [] name child now = Dir now (es ++ [(name, child)]).
Proof. reflexivity. Qed.

Lemma insert_below (t now : Z) (es : list (str * node)) (c : str) (p : Path)
      (name : str) (child : node) :
  insert (Dir t es) (c :: p) name child now
  = Dir t (update c (fun m => insert m p name child now) es).
Proof. reflexivity. Qed.

Lemma kept_refl (m : node) : kept m m.
Proof. split; [reflexivity | intros _; reflexivity]. Qed.

Lemma kept_trans (a b c : node) : kept a b -> kept b c -> kept a c.
Proof.
  intros [D1 F1] [D2 F2]. split; [congruence | ].
  intros H. assert (E := F1 H). subst b. exact (F2 H).
Qed.

Lemma insert_keeps (cur : Path) :
  forall (n : node) (q : Path) (name : str) (child : node) (now : Z) (m : node),
    lookup n q = Some m ->
    exists m', lookup (insert n cur name child now) q = Some m' /\ kept m m'.
Proof.
  induction cur as [| c cur IH]; intros n q name child now m H.
  - destruct n as [t s | t es]; [exists m; split; [exact H | apply kept_refl] | ].
    rewrite insert_here. destruct q as [| d q].
    + cbn [lookup] in *. injection H as <-. eexists. split; [reflexivity | ].
      split; [reflexivity | discriminate].
    + rewrite lookup_cons in *. rewrite assoc_app.
      destruct (assoc d es) as [x |]; [ | discriminate H].
      exists m. split; [exact H | apply kept_refl].
  - destruct n as [t s | t es]; [exists m; split; [exact H | apply kept_refl] | ].
    rewrite insert_below. destruct q as [| d q].
    + cbn [lookup] in *. injection H as <-. eexists. split; [reflexivity | ].
      split; [reflexivity | discriminate].
    + rewrite lookup_cons in *.
      destruct (list_eq_dec ascii_dec d c) as [-> | N].
      * rewrite assoc_update_same.
        destruct (assoc c es) as [x |]; [ | discriminate H].
        cbn [option_map]. apply IH. exact H.
      * rewrite assoc_update_other by exact N.
        destruct (assoc d es) as [x |]; [ | discriminate H].
        exists m. split; [exact H | apply kept_refl].
Qed.

Lemma insert_new (cur : Path) :
  forall (n : node) (name : str) (child : node) (now : Z),
    is_dir_at n cur = true ->
    lookup n (cur ++ [name]) = None ->
    lookup (insert n cur name child now) (cur ++ [name]) = Some child.
Proof.
  unfold is_dir_at.
  induction cur as [| c cur IH]; intros n name child now D L.
  - cbn [lookup] in D. destruct n as [t s | t es]; [discriminate D | ].
    cbn [app] in *. rewrite insert_here, lookup_cons in *. rewrite assoc_app.
    destruct (assoc name es) as [x |]; [discriminate L | ].
    cbn [assoc]. rewrite eqb_refl. reflexivity.
  - destruct n as [t s | t es]; [discriminate D | ].
    cbn [app] in *. rewrite insert_below. rewrite lookup_cons in *.
    rewrite assoc_update_same.
    destruct (assoc c es) as [x |]; [ | discriminate D].
    cbn [option_map]. apply IH; assumption.
Qed.

Lemma makedirs_keeps (p : Path) :
  forall (root : node) (cur : Path) (now : Z) (root' : node) (o : option exn)
         (q : Path) (m : node),
    makedirs_from root cur p now = (root', o) ->
    lookup root q = Some m ->
    exists m', lookup root' q = Some m' /\ kept m m'.
Proof.
  induction p as [| c p IH]; intros root cur now root' o q m H L.
  - cbn in H. injection H as <- _. exists m. split; [exact L | apply kept_refl].
  - cbn [makedirs_from] in H.
    destruct (negb (is_dir_at root cur)).
    { injection H as <- _. exists m. split; [exact L | apply kept_refl]. }
    destruct (PyStr.eqb c dotdot); [exact (IH _ _ _ _ _ _ _ H L) | ].
    destruct (lookup root (cur ++ [c])) as [[t s | t es] |].
    + destruct p; injection H as <- _; exists m; (split; [exact L | apply kept_refl]).
    + exact (IH _ _ _ _ _ _ _ H L).
    + destruct (insert_keeps cur root q c (Dir now []) now m L) as (m1 & L1 & K1).
      destruct (IH _ _ _ _ _ _ _ H L1) as (m2 & L2 & K2).
      exists m2. split; [exact L2 | exact (kept_trans _ _ _ K1 K2)].
Qed.

Lemma kept_dir (n : node) (q : Path) (n' : node) :
  (forall m, lookup n q = Some m -> exists m', lookup n' q = Some m' /\ kept m m') ->
  is_dir_at n q = true -> is_dir_at n' q = true.
Proof.
  unfold is_dir_at. intros K D.
  destruct (lookup n q) as [[t s | t es] |]; try discriminate D.
  destruct (K _ eq_refl) as (m' & -> & [E _]).
  destruct m'; [discriminate E | reflexivity].
Qed.

Lemma is_dir_at_removelast (cur : Path) :
  forall n : node, is_dir_at n cur = true -> is_dir_at n (removelast cur) = true.
Proof.
  unfold is_dir_at.
  induction cur as [| c cur IH]; intros n H; [exact H | ].
  destruct n as [t s | t es]; [discriminate H | ].
  destruct cur as [| d cur]; [reflexivity | ].
  change (removelast (c :: d :: cur)) with (c :: removelast (d :: cur)).
  rewrite lookup_cons in *.
  destruct (assoc c es) as [m |]; [ | discriminate H].
  apply IH. exact H.
Qed.

(** When [makedirs] returns, its path resolves to a directory. *)
Lemma makedirs_from_dir (p : Path) :
  forall (root : node) (cur : Path) (now : Z) (root' : node),
    makedirs_from root cur p now = (root', None) ->
    is_dir_at root cur = true ->
    exists cp, canon root' cur p = Some cp /\ is_dir_at root' cp = true.
Proof.
  induction p as [| c p IH]; intros root cur now root' H D.
  - cbn in H. injection H as <-. exists cur. split; [reflexivity | exact D].
  - assert (D' : is_dir_at root' cur = true).
    { apply (kept_dir root cur root'); [ | exact D].
      intros m. apply (makedirs_keeps _ _ _ _ _ _ _ _ H). }
    cbn [makedirs_from] in H. rewrite D in H. cbn [negb] in H.
    cbn [canon]. rewrite D'.
    destruct (PyStr.eqb c dotdot).
    { apply (IH _ _ _ _ H). apply is_dir_at_removelast. exact D. }
    destruct (lookup root (cur ++ [c])) as [[t s | t es] |] eqn:L.
    + destruct p; discriminate H.
    + apply (IH _ _ _ _ H). unfold is_dir_at. rewrite L. reflexivity.
    + apply (IH _ _ _ _ H). unfold is_dir_at.
      rewrite (insert_new cur root c (Dir now []) now D L). reflexivity.
Qed.

Lemma makedirs_is_dir (root : node) (p : Path) (now : Z) (root' : node) :
  makedirs root p now = (root', None) ->
  is_dir_at root [] = true ->
  is_dir root' p = true.
Proof.
  intros H D. destruct (makedirs_from_dir p root [] now root' H D) as (cp & C & Dc).
  unfold is_dir, resolve. rewrite C. exact Dc.
Qed.

(** X10.  A scope whose body completes: the body was given a directory that was
    there when it began, the caller sees no exception, the file system
    is as the body left it, and the id of the checkpoint is the most
    recent one of the manager. *)
Theorem save_checkpoint_commit
        (self : LocalFileCheckpointManager) (global_step : Z) (token : str)
        (t_open t_close : Z) (body : scope_body SaveCheckpointData)
        (fs fs0 fs1 : node) :
  let checkpoint_id := format_checkpoint_id global_step (mgr_run_id self) token in
  let checkpoint_path := _checkpoint_path self (mgr_run_id self) checkpoint_id in
  is_dir_node fs = true ->
  Fs.makedirs fs checkpoint_path t_open = (fs0, None) ->
  body {| save_dir := checkpoint_path |} fs0 = (fs1, None) ->
  Fs.is_dir fs0 checkpoint_path = true
  /\ save_checkpoint self global_step token t_open t_close body fs
     = ({| mgr_run_id := mgr_run_id self;
           mgr_base_dir := mgr_base_dir self;
           _most_recent_checkpoint_id := Some checkpoint_id |}, fs1, None).
Proof.
  intros checkpoint_id checkpoint_path R M B. split.
  - apply (makedirs_is_dir _ _ _ _ M). unfold is_dir_at. cbn [lookup].
    destruct fs; [discriminate R | reflexivity].
  - unfold save_checkpoint. fold checkpoint_id. fold checkpoint_path.
    rewrite M, B. reflexivity.
Qed.

Lemma save_checkpoint_commit_witness :
  let checkpoint_id := format_checkpoint_id 3 (lit "run-a") Examples.token0 in
  let checkpoint_path := _checkpoint_path Examples.manager0 (lit "run-a") checkpoint_id in
  Fs.is_dir (fst (Fs.makedirs (Dir 0 []) checkpoint_path 10)) checkpoint_path = true
  /\ save_checkpoint Examples.manager0 3 Examples.token0 10 11 body_write (Dir 0 [])
     = ({| mgr_run_id := lit "run-a";
           mgr_base_dir := [lit "data"];
           _most_recent_checkpoint_id := Some checkpoint_id |},
        fst (body_write {| save_dir := checkpoint_path |}
                        (fst (Fs.makedirs (Dir 0 []) checkpoint_path 10))),
        None).
Proof.
  apply (save_checkpoint_commit Examples.manager0 3 Examples.token0 10 11 body_write
           (Dir 0 [])
           (fst (Fs.makedirs (Dir 0 [])
                   (_checkpoint_path Examples.manager0 (lit "run-a")
                      (format_checkpoint_id 3 (lit "run-a") Examples.token0)) 10))).
  - reflexivity.
  - vm_compute. reflexivity.
  - reflexivity.
Defined.




Lemma runs_path_eq (self : LocalFileCheckpointManager) :
  _runs_path self = mgr_base_dir self ++ [lit "runs"].
Proof. reflexivity. Qed.

Lemma plain_name_parts (s : str) :
  plain_name s = true ->
  contains_char "/"%char s = false /\ _is_wildcard_pattern s = false
  /\ s <> [] /\ s <> lit "." /\ s <> lit "..".
Proof.
  unfold plain_name. intros H.
  repeat (apply andb_prop in H; destruct H as [H ?]).
  repeat match goal with
         | A : negb _ = true |- _ => apply negb_true_iff in A
         end.
  repeat split; try assumption; apply eqb_neq; assumption.
Qed.

Lemma joinpath_plain (p : Path) (s : str) :
  plain_name s = true -> joinpath p s = p ++ [s].
Proof.
  intros H. destruct (plain_name_parts s H) as (S & _ & N0 & N1 & _).
  unfold joinpath, parse_parts.
  assert (St : startswith s [slash] = false).
  { destruct s as [| c s]; [reflexivity | ].
    cbn [contains_char existsb] in S. apply orb_false_iff in S.
    destruct S as [S _]. unfold startswith. cbn [strip_prefix].
    unfold slash. rewrite S. reflexivity. }
  rewrite St, (split_no_sep slash s S). cbn [filter].
  apply eqb_neq in N0. apply eqb_neq in N1. rewrite N0, N1. reflexivity.
Qed.

Lemma assoc_some_in (name : str) (es : list (str * node)) (n : node) :
  assoc name es = Some n -> In (name, n) es.
Proof.
  induction es as [| [k v] es IH]; intros H; [discriminate H | ].
  cbn [assoc] in H. destruct (PyStr.eqb k name) eqn:E.
  - apply eqb_eq in E. subst k. injection H as <-. left. reflexivity.
  - right. exact (IH H).
Qed.

Lemma is_dir_listed (fs : node) (parent : Path) (c : str) :
  PyStr.eqb c dotdot = false ->
  is_dir fs (parent ++ [c]) = true ->
  exists n, In (c, n) (scandir fs parent) /\ is_dir_node n = true.
Proof.
  unfold is_dir, scandir, resolve. intros Hc. rewrite canon_app.
  destruct (canon fs [] parent) as [cur |]; [ | discriminate].
  cbn [canon]. unfold is_dir_at.
  destruct (lookup fs cur) as [[t s | t es] |] eqn:L; try discriminate.
  rewrite Hc, lookup_app, L, lookup_cons.
  destruct (assoc c es) as [[t' s | t' es'] |] eqn:A; try discriminate.
  intros _. eexists. split; [exact (assoc_some_in _ _ _ A) | reflexivity].
Qed.

Lemma named_single (fs : node) (runs_path : Path) (owner wanted : str)
      (es : list (str * node)) :
  Fs.exists_ fs (runs_path ++ [owner; lit "checkpoints"; wanted]) = true ->
  (forall r n, In (r, n) es -> r <> owner ->
               Fs.exists_ fs (runs_path ++ [r; lit "checkpoints"; wanted]) = false) ->
  NoDup (map fst es) ->
  (exists n, In (owner, n) es /\ is_dir_node n = true) ->
  flat_map
    (fun entry : str * node =>
       let p := runs_path ++ [fst entry; lit "checkpoints"; wanted] in
       if Fs.is_dir_node (snd entry) && Fs.exists_ fs p then [p] else [])
    es
  = [runs_path ++ [owner; lit "checkpoints"; wanted]].
Proof.
  intros X.
  set (F := fun entry : str * node =>
              let p := runs_path ++ [fst entry; lit "checkpoints"; wanted] in
              if Fs.is_dir_node (snd entry) && Fs.exists_ fs p then [p] else []).
  assert (Z0 : forall l : list (str * node),
             (forall r n, In (r, n) l -> r <> owner ->
                          Fs.exists_ fs (runs_path ++ [r; lit "checkpoints"; wanted])
                          = false) ->
             ~ In owner (map fst l) -> flat_map F l = []).
  { induction l as [| [k' v'] l IHl]; intros O Hn; [reflexivity | ].
    cbn [flat_map map fst] in *. unfold F at 1. cbn [fst snd].
    rewrite (O k' v') by
        (try (left; reflexivity); intros ->; apply Hn; left; reflexivity).
    rewrite andb_false_r. apply IHl.
    - intros r n Hi. apply (O r n). right. exact Hi.
    - intros Hi. apply Hn. right. exact Hi. }
  induction es as [| [k v] es IH]; intros O U (n & Hin & Hd).
  { destruct Hin. }
  cbn [map fst] in U. inversion U as [| ? ? Hk U']; subst.
  cbn [flat_map]. unfold F at 1. cbn [fst snd].
  assert (O' : forall r n0, In (r, n0) es -> r <> owner ->
                            Fs.exists_ fs (runs_path ++ [r; lit "checkpoints"; wanted])
                            = false).
  { intros r n0 Hi. apply (O r n0). right. exact Hi. }
  destruct (list_eq_dec ascii_dec k owner) as [-> | Nk].
  - destruct Hin as [E | Hin].
    + injection E as ->. rewrite Hd, X. cbn [andb app].
      rewrite (Z0 es O' Hk). reflexivity.
    + exfalso. apply Hk. apply in_map_iff. exists (owner, n).
      split; [reflexivity | exact Hin].
  - rewrite (O k v (or_introl eq_refl) Nk), andb_false_r. cbn [app].
    destruct Hin as [E | Hin]; [congruence | ].
    apply IH; [exact O' | exact U' | exists n; split; assumption].
Qed.

(** X12.  A checkpoint can be loaded by its id as soon as its scope is entered,
    by any manager on the same base directory: when the directory of the
    new checkpoint has been made, and no other run holds an entry of that
    name, [load_checkpoint(id)] yields that directory with the step and
    the run id of [save_checkpoint]. *)
Theorem saved_checkpoint_loadable
        (self loader : LocalFileCheckpointManager) (global_step : Z) (token : str)
        (t_open : Z) (fs fs0 : node) :
  let owner := mgr_run_id self in
  let checkpoint_id := format_checkpoint_id global_step owner token in
  let checkpoint_path := _checkpoint_path self owner checkpoint_id in
  (0 <= global_step)%Z ->
  is_uuid_str token = true ->
  plain_name owner = true ->
  mgr_base_dir loader = mgr_base_dir self ->
  is_dir_node fs = true ->
  Fs.makedirs fs checkpoint_path t_open = (fs0, None) ->
  NoDup (map fst (Fs.scandir fs0 (_runs_path self))) ->
  (forall r n, In (r, n) (Fs.scandir fs0 (_runs_path self)) -> r <> owner ->
               Fs.exists_ fs0
                 (_runs_path self ++ [r; lit "checkpoints"; checkpoint_id])
               = false) ->
  load_checkpoint loader (Some checkpoint_id) fs0
  = Ok {| dir := checkpoint_path; id := checkpoint_id;
          global_step := global_step; run_id := owner |}.
Proof.
  intros owner checkpoint_id checkpoint_path Hs U P B R M ND O.
  destruct (plain_name_parts owner P) as (P1 & P2 & P3 & P4 & P5).
  assert (PI : plain_name checkpoint_id = true)
    by (apply generated_id_plain; assumption).
  assert (E : checkpoint_path
              = _runs_path self ++ [owner; lit "checkpoints"; checkpoint_id]).
  { unfold checkpoint_path, _checkpoint_path, _checkpoints_path.
    rewrite (joinpath_plain _ owner P).
    change (joinpath (_runs_path self ++ [owner]) (lit "checkpoints"))
      with ((_runs_path self ++ [owner]) ++ [lit "checkpoints"]).
    rewrite (joinpath_plain _ checkpoint_id PI), <- !app_assoc. reflexivity. }
  assert (D : is_dir fs0 checkpoint_path = true).
  { apply (makedirs_is_dir _ _ _ _ M). unfold is_dir_at. cbn [lookup].
    destruct fs; [discriminate R | reflexivity]. }
  assert (NC : named_checkpoints fs0 (_runs_path loader) checkpoint_id
               = [checkpoint_path]).
  2:{ rewrite (load_single loader checkpoint_id fs0 checkpoint_path PI NC).
      unfold checkpoint_id.
      rewrite (decode_format global_step owner token Hs
                             (uuid_no_underscore token U)).
      reflexivity. }
  unfold _runs_path. rewrite B. fold (_runs_path self).
  rewrite E in D |- *. unfold named_checkpoints.
  apply named_single; [apply is_dir_exists; exact D | exact O | exact ND | ].
  apply is_dir_listed; [apply eqb_neq; exact P5 | ].
  change [owner; lit "checkpoints"; checkpoint_id]
    with ([owner] ++ [lit "checkpoints"] ++ [checkpoint_id]) in D.
  rewrite !app_assoc in D.
  apply is_dir_exists, exists_snoc_is_dir in D.
  apply is_dir_exists, exists_snoc_is_dir in D.
  exact D.
Qed.

Lemma saved_checkpoint_loadable_witness :
  load_checkpoint Examples.manager_b
    (Some (format_checkpoint_id 7 (lit "a") Examples.token0))
    (fst (Fs.makedirs Examples.fs_two_runs
            (_checkpoint_path Examples.manager_a (lit "a")
               (format_checkpoint_id 7 (lit "a") Examples.token0)) 10))
  = Ok {| dir := _checkpoint_path Examples.manager_a (lit "a")
                   (format_checkpoint_id 7 (lit "a") Examples.token0);
          id := format_checkpoint_id 7 (lit "a") Examples.token0;
          global_step := 7; run_id := lit "a" |}.
Proof.
  apply (saved_checkpoint_loadable Examples.manager_a Examples.manager_b 7
           Examples.token0 10 Examples.fs_two_runs).
  - lia.
  - reflexivity.
  - reflexivity.
  - reflexivity.
  - reflexivity.
  - vm_compute. reflexivity.
  - vm_compute. repeat constructor; cbn; intuition discriminate.
  - intros r n Hin N. vm_compute in Hin.
    destruct Hin as [E | [E | []]]; injection E as <- _;
      [exfalso; apply N; reflexivity | vm_compute; reflexivity].
Defined.

End SaveExtras.

(** * Further properties of the run context *)

Module RunContextExtras.
Import RunCtx RunContextFacts.

(** X13.  When the [__enter__] of a collaborator raises, the caller of the
    [with] statement sees that exception, the body is not run, the
    collaborators after it are not entered, and those entered before it
    are not released: their callbacks stay on the stack. *)
Theorem enter_failure_leaks
        (self : RunContext) (body : option exn)
        (pre post : list (role * collaborator)) (r : role) (c : collaborator)
        (cls : exc_class) (msg : str) :
  _exit_stack self = new_stack ->
  collaborators self = pre ++ (r, c) :: post ->
  (forall rc, In rc pre -> _is_context_manager (snd rc) = true ->
              do_enter (snd rc) = None) ->
  _is_context_manager c = true ->
  do_enter c = Some (cls, msg) ->
  let entered := filter (fun rc => _is_context_manager (snd rc)) pre in
  with_ self body
  = (with_stack self
       {| ExitStack._exit_callbacks := release_actions entered;
          ExitStack.trace := map Enter (map fst entered) |},
     Some (Exn cls msg None)).
Proof.
  intros N L H Hc Hd entered. unfold with_. rewrite enter_unfold, L, N.
  rewrite (enter_all_fails pre new_stack r c post cls msg H Hc Hd).
  fold entered. cbn [fst snd new_stack ExitStack._exit_callbacks ExitStack.trace app].
  rewrite app_nil_r. reflexivity.
Qed.

Lemma enter_failure_leaks_witness :
  with_ (__init__ (lit "run-a") (Examples.scoped_resource Examples.quiet)
                  Examples.plain Examples.plain Examples.plain Examples.plain
                  RunFixtures.unenterable)
        None
  = (with_stack
       (__init__ (lit "run-a") (Examples.scoped_resource Examples.quiet)
                 Examples.plain Examples.plain Examples.plain Examples.plain
                 RunFixtures.unenterable)
       {| ExitStack._exit_callbacks := [(Config, Examples.quiet)];
          ExitStack.trace := [Enter Config] |},
     Some (Exn OSError (lit "cannot open") None)).
Proof.
  apply (enter_failure_leaks
           (__init__ (lit "run-a") (Examples.scoped_resource Examples.quiet)
                     Examples.plain Examples.plain Examples.plain Examples.plain
                     RunFixtures.unenterable)
           None
           [(Config, Examples.scoped_resource Examples.quiet);
            (Model, Examples.plain); (Progress, Examples.plain);
            (Metric, Examples.plain)]
           [] Checkpoint RunFixtures.unenterable OSError (lit "cannot open")).
  - reflexivity.
  - reflexivity.
  - intros rc Hin _.
    destruct Hin as [<- | [<- | [<- | [<- | []]]]]; reflexivity.
  - reflexivity.
  - reflexivity.
Defined.

Lemma enter_all_from (l : list (role * collaborator)) :
  forall s,
    enter_all l s
    = (let r := enter_all l {| ExitStack._exit_callbacks := ExitStack._exit_callbacks s;
                               ExitStack.trace := [] |} in
       ({| ExitStack._exit_callbacks := ExitStack._exit_callbacks (fst r);
           ExitStack.trace := ExitStack.trace s ++ ExitStack.trace (fst r) |},
        snd r)).
Proof.
  induction l as [| [r c] l IH]; intros s.
  - cbn. rewrite app_nil_r. destruct s; reflexivity.
  - cbn [enter_all]. unfold enter_if_cm.
    destruct (_is_context_manager c); [ | apply IH].
    unfold ExitStack.enter_context. destruct (do_enter c) as [[cls msg] |].
    + cbn. rewrite app_nil_r. destruct s; reflexivity.
    + cbn [ExitStack._exit_callbacks ExitStack.trace app].
      rewrite IH. rewrite (IH {| ExitStack._exit_callbacks := _;
                                 ExitStack.trace := [Enter r] |}).
      cbn [ExitStack._exit_callbacks ExitStack.trace fst snd app].
      rewrite <- app_assoc. reflexivity.
Qed.

(** The result of the loop does not depend on the calls logged before. *)
Lemma unwind_from (cbs : list (role * (option exn -> exit_result))) :
  forall frame exc sup pend tr,
    ExitStack.unwind cbs frame exc sup pend tr
    = (fst (ExitStack.unwind cbs frame exc sup pend []),
       tr ++ snd (ExitStack.unwind cbs frame exc sup pend [])).
Proof.
  induction cbs as [| [r cb] cbs IH]; intros frame exc sup pend tr.
  - cbn. rewrite app_nil_r. reflexivity.
  - cbn [ExitStack.unwind]. cbv zeta. cbn [app].
    destruct (cb exc) as [[] | c m];
      rewrite IH, (IH _ _ _ _ [_]); cbn [fst snd];
      rewrite <- app_assoc; reflexivity.
Qed.

(** A [with] statement on a context without a pending release action
    goes as on the same context with a new stack, after the calls that
    were logged before. *)
Lemma with_from (self : RunContext) (body : option exn) :
  ExitStack._exit_callbacks (_exit_stack self) = [] ->
  snd (with_ self body) = snd (with_ (with_stack self new_stack) body)
  /\ ExitStack._exit_callbacks (_exit_stack (fst (with_ self body)))
     = ExitStack._exit_callbacks
         (_exit_stack (fst (with_ (with_stack self new_stack) body)))
  /\ ExitStack.trace (_exit_stack (fst (with_ self body)))
     = ExitStack.trace (_exit_stack self)
         ++ ExitStack.trace
              (_exit_stack (fst (with_ (with_stack self new_stack) body))).
Proof.
  intros N. unfold with_. rewrite !enter_unfold.
  change (collaborators (with_stack self new_stack)) with (collaborators self).
  cbn [with_stack _exit_stack].
  rewrite (enter_all_from (collaborators self) (_exit_stack self)), N.
  change {| ExitStack._exit_callbacks := []; ExitStack.trace := [] |} with new_stack.
  destruct (enter_all (collaborators self) new_stack) as [s1 [e |]].
  - cbn. repeat split.
  - cbn [fst snd]. unfold __exit__, ExitStack.__exit__.
    cbn [with_stack _exit_stack ExitStack._exit_callbacks ExitStack.trace].
    rewrite (unwind_from (ExitStack._exit_callbacks s1) body body false false
                         (ExitStack.trace (_exit_stack self) ++ ExitStack.trace s1)).
    rewrite (unwind_from (ExitStack._exit_callbacks s1) body body false false
                         (ExitStack.trace s1)).
    destruct (ExitStack.unwind (ExitStack._exit_callbacks s1) body body false false [])
      as [[[exc' sup] pend] tr].
    cbn [fst snd].
    destruct pend, exc' as [e |], (isinstance_interrupted body), body as [b |], sup;
      cbn; rewrite <- ?app_assoc; repeat split.
Qed.

(** X14.  A run context keeps nothing from one [with] block to the next
    but its stack, which a block that was entered leaves without a
    release action.  So a second [with] block on the same context,
    whatever its collaborators do by then, goes as on a context that was
    just made with such collaborators: its caller sees the same, the same
    release actions are left, and the same calls are made, after those of
    the first block. *)
Theorem context_reusable (self again : RunContext) (first second : option exn) :
  ExitStack._exit_callbacks (_exit_stack self) = [] ->
  (forall rc, In rc (scoped self) -> do_enter (snd rc) = None) ->
  _exit_stack again = _exit_stack (fst (with_ self first)) ->
  snd (with_ again second) = snd (with_ (with_stack again new_stack) second)
  /\ ExitStack._exit_callbacks (_exit_stack (fst (with_ again second)))
     = ExitStack._exit_callbacks
         (_exit_stack (fst (with_ (with_stack again new_stack) second)))
  /\ ExitStack.trace (_exit_stack (fst (with_ again second)))
     = ExitStack.trace (_exit_stack (fst (with_ self first)))
         ++ ExitStack.trace
              (_exit_stack (fst (with_ (with_stack again new_stack) second))).
Proof.
  intros N H A.
  assert (E : ExitStack._exit_callbacks (_exit_stack again) = []).
  { rewrite A, (with_emptied self first N H). reflexivity. }
  destruct (with_from again second E) as (S & C & T).
  rewrite <- A. repeat split; assumption.
Qed.

Lemma context_reusable_witness :
  let once := RunFixtures.unenterable in
  let again :=
    with_stack
      (__init__ (lit "run-a") (Examples.scoped_resource Examples.quiet)
                Examples.plain Examples.plain Examples.plain Examples.plain once)
      (_exit_stack (fst (with_ (Examples.context_of Examples.quiet Examples.quiet)
                               (Some Examples.body_error)))) in
  snd (with_ again None) = snd (with_ (with_stack again new_stack) None)
  /\ ExitStack._exit_callbacks (_exit_stack (fst (with_ again None)))
     = ExitStack._exit_callbacks
         (_exit_stack (fst (with_ (with_stack again new_stack) None)))
  /\ ExitStack.trace (_exit_stack (fst (with_ again None)))
     = ExitStack.trace
         (_exit_stack (fst (with_ (Examples.context_of Examples.quiet Examples.quiet)
                                  (Some Examples.body_error))))
         ++ ExitStack.trace
              (_exit_stack (fst (with_ (with_stack again new_stack) None))).
Proof.
  intros once again.
  apply (context_reusable (Examples.context_of Examples.quiet Examples.quiet) again
                          (Some Examples.body_error) None).
  - reflexivity.
  - intros rc Hin. cbn in Hin. destruct Hin as [<- | [<- | []]]; reflexivity.
  - reflexivity.
Defined.

Lemma release_actions_app (a b : list (role * collaborator)) :
  release_actions (a ++ b) = release_actions b ++ release_actions a.
Proof. unfold release_actions. rewrite map_app, rev_app_distr. reflexivity. Qed.

(** X15.  One collaborator whose [__exit__] always returns a true value makes
    the run context swallow every failure, of the body and of the
    release actions that ran before its own, when the collaborators
    entered before it, which are released after it, return a false
    value: the caller of the [with] statement sees no exception. *)
Theorem release_swallows_failures
        (self : RunContext) (body : option exn)
        (earlier later : list (role * collaborator)) (r : role) (c : collaborator) :
  _exit_stack self = new_stack ->
  (forall rc, In rc (scoped self) -> do_enter (snd rc) = None) ->
  scoped self = earlier ++ (r, c) :: later ->
  (forall x, do_exit c x = ExitReturn true) ->
  (forall rc, In rc earlier -> forall x, do_exit (snd rc) x = ExitReturn false) ->
  snd (with_ self body) = None.
Proof.
  intros N H L Hc He.
  destruct (with_new self body N H) as (S & _). rewrite S, L.
  rewrite release_actions_app.
  change ((r, c) :: later) with ([(r, c)] ++ later).
  rewrite release_actions_app, <- app_assoc, unwind_app.
  destruct (ExitStack.unwind (release_actions later) _ _ _ _ _)
    as [[[exc1 sup1] pend1] tr1].
  change (release_actions [(r, c)] ++ release_actions earlier)
    with ((r, do_exit c) :: release_actions earlier).
  cbn [ExitStack.unwind]. rewrite Hc.
  rewrite unwind_all_false
    by exact (release_actions_all earlier
                (fun f => forall x, f x = ExitReturn false) He).
  unfold seen. destruct body as [b |]; [ | reflexivity].
  destruct (isinstance_interrupted (Some b)); reflexivity.
Qed.

Lemma release_swallows_failures_witness :
  snd (with_ (Examples.context_of Examples.suppressing (Examples.failing "E1"))
             (Some Examples.body_error))
  = None.
Proof.
  apply (release_swallows_failures
           (Examples.context_of Examples.suppressing (Examples.failing "E1"))
           (Some Examples.body_error)
           [] [(Checkpoint, Examples.scoped_resource (Examples.failing "E1"))]
           Config (Examples.scoped_resource Examples.suppressing)).
  - reflexivity.
  - intros rc Hin. cbn in Hin. destruct Hin as [<- | [<- | []]]; reflexivity.
  - reflexivity.
  - reflexivity.
  - intros rc [].
Defined.

Lemma unscoped_context (self : RunContext) (body : option exn) :
  _exit_stack self = new_stack ->
  scoped self = [] ->
  with_ self body
  = (self, if isinstance_interrupted body then None else body).
Proof.
  intros N L.
  assert (N0 : ExitStack._exit_callbacks (_exit_stack self) = [])
    by (rewrite N; reflexivity).
  assert (H : forall rc, In rc (scoped self) -> do_enter (snd rc) = None)
    by (rewrite L; intros rc []).
  rewrite (with_emptied self body N0 H). unfold scoped_roles. rewrite L, N.
  cbn [release_actions map rev ExitStack.unwind snd new_stack ExitStack.trace app].
  unfold seen. destruct self as [a b c d e f g s]. cbn in N. subst s.
  unfold with_stack. cbn.
  destruct body as [x |]; [ | reflexivity].
  destruct (isinstance_interrupted (Some x)); reflexivity.
Qed.

(** X16.  The run context that [local_run_context] makes has no scoped
    collaborator, whatever dataset fetcher it is given: its [with]
    statement calls no [__enter__] and no [__exit__], and the caller sees
    the exception of the body as it is, except for the interruption,
    which is swallowed. *)
Theorem local_run_context_unscoped
        (run_id : str) (dataset_fetcher : option collaborator) (body : option exn) :
  with_ (RunFixtures.local_run_context run_id dataset_fetcher) body
  = (RunFixtures.local_run_context run_id dataset_fetcher,
     if isinstance_interrupted body then None else body).
Proof. apply unscoped_context; reflexivity. Qed.

End RunContextExtras.

(** * Further properties of the S3 keys *)

Module S3Extras.
Import PyStr PyStrFacts S3 CheckpointIdExtras Fixtures.

Lemma strip_prefix_app (p r : str) : strip_prefix p (p ++ r) = Some r.
Proof.
  induction p as [| a p IH]; [reflexivity | ].
  cbn [app strip_prefix]. rewrite Ascii.eqb_refl. exact IH.
Qed.

Lemma contains_unfold (p s : str) :
  contains p s
  = match strip_prefix p s with
    | Some _ => true
    | None => match s with [] => false | _ :: s' => contains p s' end
    end.
Proof. destruct s; reflexivity. Qed.

Lemma replace_fuel_S (f : nat) (old new s : str) :
  replace_fuel (S f) old new s
  = match strip_prefix old s with
    | Some rest => new ++ replace_fuel f old new rest
    | None => match s with
              | [] => []
              | c :: s' => c :: replace_fuel f old new s'
              end
    end.
Proof. reflexivity. Qed.

(** Nothing to replace: the string comes back. *)
Lemma replace_fuel_absent (old new : str) :
  forall (s : str) (f : nat),
    contains old s = false -> (List.length s < f)%nat ->
    replace_fuel f old new s = s.
Proof.
  induction s as [| c s IH]; intros f H L.
  - destruct f as [| f]; [reflexivity | ].
    rewrite replace_fuel_S. rewrite contains_unfold in H.
    destruct (strip_prefix old []); [discriminate H | reflexivity].
  - destruct f as [| f]; [reflexivity | ].
    rewrite replace_fuel_S. rewrite contains_unfold in H.
    destruct (strip_prefix old (c :: s)); [discriminate H | ].
    f_equal. apply IH; [exact H | cbn [List.length] in L; lia].
Qed.

Lemma replace_fuel_shorter (old : str) :
  forall (f : nat) (s : str),
    (List.length (replace_fuel f old [] s) <= List.length s)%nat.
Proof.
  induction f as [| f IH]; intros s; [cbn; lia | ].
  rewrite replace_fuel_S.
  destruct (strip_prefix old s) as [rest |] eqn:E.
  - apply strip_prefix_some in E. subst s. cbn [app].
    rewrite length_app. specialize (IH rest). lia.
  - destruct s as [| c s]; [cbn; lia | ].
    cbn [List.length]. specialize (IH s). lia.
Qed.

(** An occurrence that is taken out makes the string shorter. *)
Lemma replace_fuel_present (old : str) :
  old <> [] ->
  forall (s : str) (f : nat),
    contains old s = true -> (List.length s < f)%nat ->
    (List.length (replace_fuel f old [] s) < List.length s)%nat.
Proof.
  intros N. induction s as [| c s IH]; intros f H L.
  - rewrite contains_unfold in H.
    destruct (strip_prefix old []) as [r |] eqn:E; [ | discriminate H].
    apply strip_prefix_some in E. destruct old; [congruence | discriminate E].
  - destruct f as [| f]; [lia | ].
    rewrite replace_fuel_S. rewrite contains_unfold in H.
    destruct (strip_prefix old (c :: s)) as [rest |] eqn:E.
    + apply strip_prefix_some in E. rewrite E. cbn [app].
      rewrite length_app. assert (B := replace_fuel_shorter old f rest).
      destruct old; [congruence | cbn [List.length]; lia].
    + cbn [List.length] in *. specialize (IH f H). lia.
Qed.

Lemma replace_same_char (c : ascii) (s : str) : replace s [c] [c] = s.
Proof.
  unfold replace. generalize (S (List.length s)) as f. intros f. revert s.
  induction f as [| f IH]; intros s; [reflexivity | ].
  rewrite replace_fuel_S. destruct s as [| d s]; [reflexivity | ].
  cbn [strip_prefix]. destruct (Ascii.eqb c d) eqn:E.
  - apply Ascii.eqb_eq in E. subst d. cbn [app]. f_equal. apply IH.
  - f_equal. apply IH.
Qed.

(** What [key.replace(s3_key_prefix, "")] makes of the key of a relative
    path. *)
Lemma stripped_key (prefix rel : str) :
  prefix <> [] ->
  replace (prefix ++ rel) prefix []
  = replace_fuel (List.length (prefix ++ rel)) prefix [] rel.
Proof.
  intros N. unfold replace. destruct prefix as [| a p]; [congruence | ].
  rewrite replace_fuel_S, strip_prefix_app. reflexivity.
Qed.

Lemma endswith_nonempty (s : str) : endswith s (lit "/") = true -> s <> [].
Proof. intros H E. subst s. discriminate H. Qed.

Lemma split_parts (sep : ascii) (s : str) :
  Forall (fun c => contains_char sep c = false) (split sep s).
Proof.
  induction s as [| c s IH]; [repeat constructor | ].
  cbn [split]. destruct (Ascii.eqb c sep) eqn:E.
  - constructor; [reflexivity | exact IH].
  - destruct (split sep s) as [| w ws]; [repeat constructor; cbn | ].
    + rewrite Ascii.eqb_sym, E. reflexivity.
    + inversion IH as [| ? ? Hw Hws]; subst. constructor; [ | exact Hws].
      cbn [contains_char existsb]. rewrite Ascii.eqb_sym, E. exact Hw.
Qed.

Lemma Forall_removelast (A : Type) (P : A -> Prop) (l : list A) :
  Forall P l -> Forall P (removelast l).
Proof.
  induction l as [| x l IH]; intros H; [constructor | ].
  inversion H as [| ? ? Hx Hl]; subst. cbn [removelast].
  destruct l; [constructor | constructor; [exact Hx | exact (IH Hl)]].
Qed.

Lemma abspath_parts_names (cwd path : str) :
  Forall is_name (Posixpath.abspath_parts cwd path).
Proof.
  unfold Posixpath.abspath_parts.
  assert (G : forall l acc,
             Forall (fun c => contains_char "/"%char c = false) l ->
             Forall is_name acc ->
             Forall is_name
               (fold_left
                  (fun acc c =>
                     if PyStr.eqb c [] || PyStr.eqb c (lit ".") then acc
                     else if PyStr.eqb c (lit "..") then removelast acc
                          else acc ++ [c]) l acc)).
  { induction l as [| c l IH]; intros acc Hl Ha; [exact Ha | ].
    inversion Hl as [| ? ? Hc Hl']; subst. cbn [fold_left]. apply IH; [exact Hl' | ].
    destruct (PyStr.eqb c []) eqn:E0; [exact Ha | ].
    destruct (PyStr.eqb c (lit ".")); [exact Ha | ]. cbn [orb].
    destruct (PyStr.eqb c (lit "..")); [apply Forall_removelast; exact Ha | ].
    apply Forall_app. split; [exact Ha | ].
    constructor; [ | constructor]. split; [apply eqb_neq; exact E0 | exact Hc]. }
  apply G; [apply split_parts | constructor].
Qed.

(** A relative path does not begin with the separator. *)
Lemma relpath_relative (cwd path start rel : str) :
  Posixpath.relpath cwd path start = Ok rel -> startswith rel (lit "/") = false.
Proof.
  unfold Posixpath.relpath. destruct path as [| c0 path0]; [discriminate | ].
  set (start_list := Posixpath.abspath_parts cwd start).
  set (path_list := Posixpath.abspath_parts cwd (c0 :: path0)).
  set (i := Posixpath.common start_list path_list).
  assert (F : Forall (fun c => exists a r, c = a :: r /\ Ascii.eqb "/"%char a = false)
                     (repeat (lit "..") (List.length start_list - i)
                        ++ skipn i path_list)).
  { apply Forall_app. split.
    - apply Forall_forall. intros x Hx. apply repeat_spec in Hx. subst x.
      eexists. eexists. split; reflexivity.
    - assert (P := abspath_parts_names cwd (c0 :: path0)). fold path_list in P.
      apply Forall_forall. intros x Hx.
      assert (Hin : In x path_list).
      { rewrite <- (firstn_skipn i path_list). apply in_or_app. right. exact Hx. }
      rewrite Forall_forall in P. destruct (P x Hin) as [Hne Hs].
      destruct x as [| a r]; [congruence | ].
      cbn [contains_char existsb] in Hs. apply orb_false_iff in Hs.
      exists a, r. split; [reflexivity | tauto]. }
  destruct (repeat (lit "..") (List.length start_list - i) ++ skipn i path_list)
    as [| x l]; intros H; injection H as <-; [reflexivity | ].
  inversion F as [| ? ? (a & r & -> & Ha) _]; subst.
  unfold startswith.
  destruct l; cbn [lit list_ascii_of_string app strip_prefix];
    rewrite Ha; reflexivity.
Qed.

Lemma join_relative_length (dst rel : str) :
  startswith rel Posixpath.sep = false ->
  exists pre, Posixpath.join dst rel = pre ++ rel
              /\ forall other, startswith other Posixpath.sep = false ->
                               Posixpath.join dst other = pre ++ other.
Proof.
  intros H. unfold Posixpath.join. rewrite H.
  destruct (match dst with [] => true | _ :: _ => endswith dst Posixpath.sep end).
  - exists dst. split; [reflexivity | ]. intros other ->. reflexivity.
  - exists (dst ++ Posixpath.sep). split; [apply app_assoc | ].
    intros other ->. apply app_assoc.
Qed.

(** X17.  A file that is uploaded under a key prefix comes back, on download
    with the same prefix, to its relative path below the destination
    exactly when the key prefix does not occur in that relative path. *)
Theorem s3_roundtrip_iff (cwd file_path src_dir dst_dir key_prefix rel : str) :
  Posixpath.relpath cwd file_path src_dir = Ok rel ->
  endswith key_prefix (lit "/") = true ->
  ((key <- _file_path_to_s3_key cwd file_path src_dir key_prefix ;;
    _s3_key_to_file_path key dst_dir key_prefix)
   = Ok (Posixpath.join dst_dir rel))
  <-> contains key_prefix rel = false.
Proof.
  intros R E. assert (N := endswith_nonempty key_prefix E).
  assert (Hrel := relpath_relative _ _ _ _ R).
  unfold _file_path_to_s3_key, _s3_key_to_file_path. rewrite R. cbn [bind].
  rewrite E. cbn [negb].
  change os_sep with [("/")%char]. change (lit "/") with [("/")%char].
  rewrite !replace_same_char, (stripped_key key_prefix rel N).
  split.
  - intros H. destruct (contains key_prefix rel) eqn:C; [exfalso | reflexivity].
    assert (L := replace_fuel_present key_prefix N rel
                   (List.length (key_prefix ++ rel)) C).
    assert (Lk : (List.length rel < List.length (key_prefix ++ rel))%nat).
    { rewrite length_app. destruct key_prefix; [congruence | cbn; lia]. }
    specialize (L Lk).
    set (stripped := replace_fuel (List.length (key_prefix ++ rel)) key_prefix [] rel)
      in *.
    injection H as H.
    destruct (join_relative_length dst_dir rel Hrel) as (pre & J & Jo).
    rewrite J in H.
    destruct (startswith stripped Posixpath.sep) eqn:S0.
    + unfold Posixpath.join in H. rewrite S0 in H.
      apply (f_equal (@List.length ascii)) in H. rewrite length_app in H. lia.
    + rewrite (Jo stripped S0) in H.
      apply (f_equal (@List.length ascii)) in H. rewrite !length_app in H. lia.
  - intros C. rewrite (replace_fuel_absent key_prefix [] rel _ C).
    + reflexivity.
    + rewrite length_app. destruct key_prefix; [congruence | cbn; lia].
Qed.

Lemma s3_roundtrip_iff_witness :
  ((key <- _file_path_to_s3_key (lit "/") (lit "/src/a/b.txt") (lit "/src")
                                (lit "run/") ;;
    _s3_key_to_file_path key (lit "/dst") (lit "run/"))
   = Ok (Posixpath.join (lit "/dst") (lit "a/b.txt")))
  <-> contains (lit "run/") (lit "a/b.txt") = false.
Proof.
  apply (s3_roundtrip_iff (lit "/") (lit "/src/a/b.txt") (lit "/src") (lit "/dst")
                          (lit "run/") (lit "a/b.txt")); reflexivity.
Defined.

End S3Extras.

(** * The dataset fetcher *)

Module DatasetExtras.
Import PyStr PyStrFacts Pathlib Dataset GlobFacts.

Lemma glob_json (fs : node) (parent : Path) :
  glob fs parent (lit "*.json")
  = Ok (select_from (_WildcardSelector (lit "*.json") false _TerminatingSelector)
                    fs parent).
Proof. reflexivity. Qed.

Lemma get_below (fs : node) (l : list Path) :
  forall (k i : Z),
    (i < k)%Z ->
    get (map (fun item : Z * Path => (fst item, stem (snd item)))
             (filter (fun item : Z * Path => is_file fs (snd item))
                     (enumerate_from k l))) i = None.
Proof.
  induction l as [| x l IH]; intros k i H; [reflexivity | ].
  cbn [enumerate_from filter snd].
  destruct (is_file fs x).
  - cbn [map get fst snd].
    destruct (k =? i)%Z eqn:E; [apply Z.eqb_eq in E; lia | ].
    apply IH. lia.
  - apply IH. lia.
Qed.

(** The cache maps the position of an entry in the listing to its stem,
    and has nothing for the position of an entry that is no file. *)
Lemma get_position (fs : node) (l : list Path) :
  forall (k i : Z),
    (k <= i)%Z ->
    get (map (fun item : Z * Path => (fst item, stem (snd item)))
             (filter (fun item : Z * Path => is_file fs (snd item))
                     (enumerate_from k l))) i
    = match nth_error l (Z.to_nat (i - k)) with
      | Some f => if is_file fs f then Some (stem f) else None
      | None => None
      end.
Proof.
  induction l as [| x l IH]; intros k i H.
  - cbn. destruct (Z.to_nat (i - k)); reflexivity.
  - cbn [enumerate_from filter snd].
    destruct (Z.eq_dec i k) as [-> | N].
    + rewrite Z.sub_diag. cbn [Z.to_nat nth_error].
      destruct (is_file fs x).
      * cbn [map get fst snd]. rewrite Z.eqb_refl. reflexivity.
      * apply get_below. lia.
    + replace (Z.to_nat (i - k)) with (S (Z.to_nat (i - (k + 1)))) by lia.
      cbn [nth_error]. rewrite <- IH by lia.
      destruct (is_file fs x); [ | reflexivity].
      cbn [map get fst snd].
      destruct (k =? i)%Z eqn:E; [apply Z.eqb_eq in E; lia | reflexivity].
Qed.

Lemma enumerate_files (fs : node) (l : list Path) :
  forall k,
    List.length (filter (fun item : Z * Path => is_file fs (snd item))
                        (enumerate_from k l))
    = List.length (filter (is_file fs) l).
Proof.
  induction l as [| x l IH]; intros k; [reflexivity | ].
  cbn [enumerate_from filter snd].
  destruct (is_file fs x); cbn [List.length]; rewrite IH; reflexivity.
Qed.

Lemma index_to_id_length (fs : node) (l : list Path) :
  List.length (index_to_id fs l) = List.length (filter (is_file fs) l).
Proof. unfold index_to_id. rewrite length_map. apply enumerate_files. Qed.

Lemma prepared (self self' : LocalFileDatasetFetcher) (wanted : str)
      (part : option str) (now : Z) (fs fs1 : node) (listing : list Path) :
  PyStr.eqb (snapshot_id self) wanted && optional_eqb (split self) part = false ->
  prepare_snapshot_split self wanted part now fs = (self', fs1, None) ->
  glob fs1 (split_root self wanted part) (lit "*.json") = Ok listing ->
  self' = {| file_root := file_root self;
             snapshot_id := wanted;
             split := part;
             _cached_datum_index_to_id := Some (index_to_id fs1 listing);
             _num_datums :=
               Some (Z.of_nat (List.length (filter (is_file fs1) listing))) |}.
Proof.
  intros C P G. unfold prepare_snapshot_split in P. rewrite C in P.
  destruct (mkdir fs (split_root self wanted part) now) as [fs' [e |]];
    [discriminate P | ].
  destruct (glob fs' (split_root self wanted part) (lit "*.json")) as [l | e] eqn:G';
    [ | discriminate P].
  injection P as <- <-. rewrite G in G'. injection G' as <-.
  rewrite index_to_id_length. reflexivity.
Qed.

(** X18.  After [prepare_snapshot_split] the number of datums is the number of
    regular files among the entries that match [*.json], while an index
    is a position among all the entries that match: for an index within
    the number of datums, [get_datum_at_index] fetches the datum named by
    the stem of the entry at that position if the entry is a regular
    file, and the datum named [None] if it is not. *)
Theorem datum_of_index
        (A : Type) (loads : str -> result A)
        (self self' : LocalFileDatasetFetcher) (wanted : str) (part : option str)
        (now : Z) (fs fs1 fs2 : node) (listing : list Path) (index : Z) :
  PyStr.eqb (snapshot_id self) wanted && optional_eqb (split self) part = false ->
  prepare_snapshot_split self wanted part now fs = (self', fs1, None) ->
  glob fs1 (split_root self wanted part) (lit "*.json") = Ok listing ->
  (0 <= index < Z.of_nat (List.length (filter (is_file fs1) listing)))%Z ->
  _num_datums self' = Some (Z.of_nat (List.length (filter (is_file fs1) listing)))
  /\ exists entry,
      nth_error listing (Z.to_nat index) = Some entry
      /\ get_datum_at_index self' index loads fs2
         = fetch loads fs2 (split_root self wanted part)
                 (if is_file fs1 entry then Some (stem entry) else None).
Proof.
  intros C P G I. rewrite (prepared self self' wanted part now fs fs1 listing C P G).
  split; [reflexivity | ].
  assert (L : (List.length (filter (is_file fs1) listing) <= List.length listing)%nat)
    by apply filter_length_le.
  destruct (nth_error listing (Z.to_nat index)) as [entry |] eqn:N.
  2:{ apply nth_error_None in N. lia. }
  exists entry. split; [reflexivity | ].
  unfold get_datum_at_index.
  cbn [_num_datums _cached_datum_index_to_id snapshot_id split].
  replace (index <? 0)%Z with false by (symmetry; apply Z.ltb_ge; lia).
  replace (index >=? Z.of_nat (List.length (filter (is_file fs1) listing)))%Z
    with false by (symmetry; rewrite Z.geb_leb; apply Z.leb_gt; lia).
  cbn [orb]. unfold index_to_id. rewrite get_position by lia.
  rewrite Z.sub_0_r, N. reflexivity.
Qed.

Lemma datum_of_index_witness :
  let root := [lit "datasets"; lit "snap"; lit "train"] in
  let self' :=
    fst (fst (prepare_snapshot_split fetcher0 (lit "snap") (Some (lit "train"))
                                     5 fs_mixed)) in
  _num_datums self' = Some 1%Z
  /\ exists entry,
      nth_error [root ++ [lit "b.json"]; root ++ [lit "a.json"]] 0 = Some entry
      /\ get_datum_at_index self' 0 (fun text => Ok text) fs_mixed
         = fetch (fun text => Ok text) fs_mixed root
                 (if is_file fs_mixed entry then Some (stem entry) else None).
Proof.
  apply (datum_of_index str (fun text => Ok text) fetcher0
           (fst (fst (prepare_snapshot_split fetcher0 (lit "snap")
                                             (Some (lit "train")) 5 fs_mixed)))
           (lit "snap") (Some (lit "train")) 5 fs_mixed fs_mixed fs_mixed
           [[lit "datasets"; lit "snap"; lit "train"] ++ [lit "b.json"];
            [lit "datasets"; lit "snap"; lit "train"] ++ [lit "a.json"]] 0).
  - reflexivity.
  - vm_compute. reflexivity.
  - vm_compute. reflexivity.
  - vm_compute. split; [discriminate | reflexivity].
Defined.

Lemma filter_some_out (A : Type) (p : A -> bool) (l : list A) :
  (exists d, In d l /\ p d = false) ->
  (List.length (filter p l) < List.length l)%nat.
Proof.
  induction l as [| x l IH]; intros (d & Hin & Hd); [destruct Hin | ].
  cbn [filter]. destruct Hin as [-> | Hin].
  - rewrite Hd. cbn [List.length]. assert (B := filter_length_le p l). lia.
  - assert (B := IH (ex_intro _ d (conj Hin Hd))).
    destruct (p x); cbn [List.length]; lia.
Qed.

Lemma filter_all_out (A : Type) (p : A -> bool) (l : list A) :
  (forall f, In f l -> p f = false) -> filter p l = [].
Proof.
  induction l as [| x l IH]; intros H; [reflexivity | ].
  cbn [filter]. rewrite (H x (or_introl eq_refl)).
  apply IH. intros f Hf. apply H. right. exact Hf.
Qed.

(** X19.  A matching entry that is no regular file puts the last files out of
    reach: when such an entry comes before a position and no regular file
    comes after it, that position is not an index, and
    [get_datum_at_index] raises [ValueError] for it. *)
Theorem position_out_of_range
        (A : Type) (loads : str -> result A)
        (self self' : LocalFileDatasetFetcher) (wanted : str) (part : option str)
        (now : Z) (fs fs1 fs2 : node) (pre post : list Path) (entry : Path) :
  PyStr.eqb (snapshot_id self) wanted && optional_eqb (split self) part = false ->
  prepare_snapshot_split self wanted part now fs = (self', fs1, None) ->
  glob fs1 (split_root self wanted part) (lit "*.json")
  = Ok (pre ++ entry :: post) ->
  (exists d, In d pre /\ is_file fs1 d = false) ->
  (forall f, In f post -> is_file fs1 f = false) ->
  exists e,
    get_datum_at_index self' (Z.of_nat (List.length pre)) loads fs2 = Raise e
    /\ exn_cls e = ValueError.
Proof.
  intros C P G Hpre Hpost.
  rewrite (prepared self self' wanted part now fs fs1 _ C P G).
  unfold get_datum_at_index. cbn [_num_datums].
  assert (L : (List.length (filter (is_file fs1) (pre ++ entry :: post))
               <= List.length pre)%nat).
  { rewrite filter_app, length_app. cbn [filter].
    rewrite (filter_all_out _ _ post Hpost).
    assert (B := filter_some_out _ (is_file fs1) pre Hpre).
    destruct (is_file fs1 entry); cbn [List.length]; lia. }
  replace (Z.of_nat (List.length pre)
           >=? Z.of_nat (List.length (filter (is_file fs1) (pre ++ entry :: post))))%Z
    with true by (symmetry; rewrite Z.geb_leb; apply Z.leb_le; lia).
  rewrite orb_true_r. eexists. split; reflexivity.
Qed.

Lemma position_out_of_range_witness :
  exists e,
    get_datum_at_index
      (fst (fst (prepare_snapshot_split fetcher0 (lit "snap") (Some (lit "train"))
                                        5 fs_mixed)))
      1 (fun text => Ok text) fs_mixed
    = Raise e
    /\ exn_cls e = ValueError.
Proof.
  apply (position_out_of_range str (fun text => Ok text) fetcher0
           (fst (fst (prepare_snapshot_split fetcher0 (lit "snap")
                                             (Some (lit "train")) 5 fs_mixed)))
           (lit "snap") (Some (lit "train")) 5 fs_mixed fs_mixed fs_mixed
           [[lit "datasets"; lit "snap"; lit "train"; lit "b.json"]] []
           [lit "datasets"; lit "snap"; lit "train"; lit "a.json"]).
  - reflexivity.
  - vm_compute. reflexivity.
  - vm_compute. reflexivity.
  - exists [lit "datasets"; lit "snap"; lit "train"; lit "b.json"].
    split; [left; reflexivity | reflexivity].
  - intros f [].
Defined.

Lemma optional_eqb_refl (x : option str) : optional_eqb x x = true.
Proof. destruct x; [apply eqb_refl | reflexivity]. Qed.

(** X20.  A fetcher that was just made has no cache: [get_datum_at_index]
    raises [AttributeError] for every index, and still does after
    [prepare_snapshot_split] with the empty snapshot id and no split,
    which returns at once and touches nothing. *)
Theorem new_fetcher_has_no_cache
        (A : Type) (loads : str -> result A) (cwd : Path) (base_dir : str)
        (now : Z) (fs fs' : node) (self : LocalFileDatasetFetcher) :
  __init__ cwd base_dir now fs = (fs', Ok self) ->
  (forall now' fs2, prepare_snapshot_split self [] None now' fs2 = (self, fs2, None))
  /\ (forall index fs3,
         get_datum_at_index self index loads fs3
         = Raise (no_attribute "_num_datums")).
Proof.
  unfold __init__. intros H.
  destruct (mkdir fs _ now) as [fs0 [e |]]; [discriminate H | ].
  injection H as _ <-. split; reflexivity.
Qed.

Lemma new_fetcher_has_no_cache_witness :
  (forall now' fs2,
      prepare_snapshot_split fetcher0 [] None now' fs2 = (fetcher0, fs2, None))
  /\ (forall index fs3,
         get_datum_at_index fetcher0 index (fun text => Ok text) fs3
         = Raise (no_attribute "_num_datums")).
Proof.
  apply (new_fetcher_has_no_cache str (fun text => Ok text) [] [] 5 fs_mixed fs_mixed
                                  fetcher0).
  reflexivity.
Defined.

(** X21.  The new snapshot id and split are stored before the directory is
    made: when [prepare_snapshot_split] fails, the fetcher names the new
    snapshot split but keeps the cache that it had, and the same call
    made again returns at once, without an exception and without looking
    at the file system. *)
Theorem failed_prepare_is_not_retried
        (self self1 : LocalFileDatasetFetcher) (wanted : str) (part : option str)
        (now : Z) (fs fs1 : node) (e : exn) :
  prepare_snapshot_split self wanted part now fs = (self1, fs1, Some e) ->
  (forall now' fs2,
      prepare_snapshot_split self1 wanted part now' fs2 = (self1, fs2, None))
  /\ snapshot_id self1 = wanted
  /\ split self1 = part
  /\ _cached_datum_index_to_id self1 = _cached_datum_index_to_id self
  /\ _num_datums self1 = _num_datums self.
Proof.
  unfold prepare_snapshot_split at 1. intros H.
  destruct (PyStr.eqb (snapshot_id self) wanted && optional_eqb (split self) part);
    [discriminate H | ].
  assert (E : self1 = {| file_root := file_root self;
                         snapshot_id := wanted;
                         split := part;
                         _cached_datum_index_to_id := _cached_datum_index_to_id self;
                         _num_datums := _num_datums self |}).
  { destruct (mkdir fs (split_root self wanted part) now) as [fs0 [e0 |]].
    - injection H as <- _ _. reflexivity.
    - destruct (glob fs0 (split_root self wanted part) (lit "*.json"));
        [discriminate H | injection H as <- _ _; reflexivity]. }
  subst self1. split; [ | repeat split].
  intros now' fs2. unfold prepare_snapshot_split.
  cbn [snapshot_id split]. rewrite eqb_refl, optional_eqb_refl. reflexivity.
Qed.

Lemma failed_prepare_is_not_retried_witness :
  let self1 :=
    fst (fst (prepare_snapshot_split fetcher0 (lit "snap") (Some (lit "train"))
                                     5 fs_blocked)) in
  (forall now' fs2,
      prepare_snapshot_split self1 (lit "snap") (Some (lit "train")) now' fs2
      = (self1, fs2, None))
  /\ snapshot_id self1 = lit "snap"
  /\ split self1 = Some (lit "train")
  /\ _cached_datum_index_to_id self1 = _cached_datum_index_to_id fetcher0
  /\ _num_datums self1 = _num_datums fetcher0.
Proof.
  apply (failed_prepare_is_not_retried fetcher0
           (fst (fst (prepare_snapshot_split fetcher0 (lit "snap")
                                             (Some (lit "train")) 5 fs_blocked)))
           (lit "snap") (Some (lit "train")) 5 fs_blocked fs_blocked
           (raise_new NotADirectoryError (lit "mkdir") None)).
  vm_compute. reflexivity.
Defined.

End DatasetExtras.
